(** * go-tuf-metadata: the metadata model and the updater workflow

    A shallow embedding of the TUF client of this repository: the
    [metadata] package (documents, constructors, integrity checks,
    delegation matching, threshold verification, (de)serialisation, the
    keys of the roles and signing) and the [updater] package (root
    rotation, loading of the top-level and of the targets metadata, the
    pre-order walk over delegations, and the download of target files).

    Conventions of the embedding.
    - A Go [error] value is an [option error]: [None] is [nil].  Error
      messages are dropped, an error is its kind.
    - A function that can dereference a nil pointer returns an [outcome],
      whose third case is the panic.
    - [int], [int64] are [Z], for values whose sums stay in range;
      [[]byte] is [list byte]; [string] is [string]; a Go map is a [gmap],
      a map used as a set is a [gset].
    - [time.Time] is the instant, a [Z].
    - What the repository imports from elsewhere is a parameter: the hash
      functions, the signature primitives and the JSON codec are variables
      of the sections that use them; the disk, the fetcher, the trusted
      metadata set and the order of a [range] over a map are the fields
      of [updater.Externals].
    - The module [fixture] holds small instances of these parameters and
      small repositories, on which the model is run. *)

From Stdlib Require Import ZArith Lia Ascii String List.
From stdpp Require Import gmap strings list fin_maps pretty.

Open Scope Z_scope.
Open Scope string_scope.

Abbreviation byte := Byte.byte.
Abbreviation bytes := (list Byte.byte).

#[global] Instance byte_eq_dec : EqDecision byte := Byte.byte_eq_dec.

(** ** Errors and outcomes *)

(** The error kinds of the repository (section 7 of the specification);
    [errorString] stands for the errors built with [fmt.Errorf] and for
    those coming from the libraries. *)
Inductive error : Type :=
| ErrRepository
| ErrUnsignedMetadata
| ErrBadVersionNumber
| ErrEqualVersionNumber
| ErrExpiredMetadata
| ErrLengthOrHashMismatch
| ErrType
| ErrValue
| ErrRuntime
| ErrDownloadHTTP (StatusCode : Z)
| ErrDownloadLengthMismatch
| ErrBadPattern
| errorString (msg : string).

#[global] Instance error_eq_dec : EqDecision error.
Proof. solve_decision. Defined.

(** The result of a call that may return a value, return an error, or
    panic on a nil pointer. *)
Inductive outcome (A : Type) : Type :=
| Ok (a : A)
| Err (e : error)
| Panic.
Arguments Ok {A} a.
Arguments Err {A} e.
Arguments Panic {A}.

Definition obind {A B} (x : outcome A) (f : A -> outcome B) : outcome B :=
  match x with
  | Ok a => f a
  | Err e => Err e
  | Panic => Panic
  end.

Notation "'let?' x := c 'in' k" := (obind c (fun x => k))
  (at level 10, x name, c at level 100, k at level 200).
Notation "'let?' ' p := c 'in' k" := (obind c (fun x => match x with p => k end))
  (at level 10, p pattern, c at level 100, k at level 200).

(** An [error] result seen as an outcome. *)
Definition of_error (e : option error) : outcome unit :=
  match e with
  | None => Ok tt
  | Some e => Err e
  end.

(** ** encoding/hex *)

Module hex.

Definition digit (n : N) : ascii :=
  ascii_of_N (if (n <? 10)%N then 48 + n else 87 + n)%N.

Fixpoint EncodeToString (b : bytes) : string :=
  match b with
  | [] => EmptyString
  | x :: b' =>
      let n := Byte.to_N x in
      String (digit (n / 16)) (String (digit (n mod 16)) (EncodeToString b'))
  end.

End hex.

(** ** unicode/utf8 and path/filepath: Match

    [Match] is the standard library's, transcribed from its source (Go
    1.16 and later, where the separator is [/] and the backslash escapes):
    the pattern is cut into chunks at its stars, each chunk is matched at
    the first place it fits, and the characters of the name that [?] and
    the classes read are runes, decoded from UTF-8.  A string is the
    sequence of its bytes. *)

Module utf8.

Definition RuneError : N := 65533.

Definition byteAt (s : string) (i : nat) : option N :=
  N_of_ascii <$> String.get i s.

(** A continuation byte between [lo] and [hi]. *)
Definition between (lo hi : N) (b : option N) : option N :=
  match b with
  | Some b => if ((lo <=? b) && (b <=? hi))%N then Some b else None
  | None => None
  end.

(** The rune at the head of [s] and the number of its bytes; an encoding
    that is not valid reads as [RuneError] on one byte, the empty string
    as [RuneError] on none. *)
Definition DecodeRuneInString (s : string) : N * nat :=
  match byteAt s 0 with
  | None => (RuneError, 0%nat)
  | Some s0 =>
      if (s0 <? 128)%N then (s0, 1%nat)
      else if (s0 <? 194)%N then (RuneError, 1%nat)
      else if (s0 <? 224)%N then
        match between 128 191 (byteAt s 1) with
        | Some s1 => (N.land s0 31 * 64 + N.land s1 63, 2%nat)
        | None => (RuneError, 1%nat)
        end
      else if (s0 <? 240)%N then
        let lo := if (s0 =? 224)%N then 160 else 128 in
        let hi := if (s0 =? 237)%N then 159 else 191 in
        match between lo hi (byteAt s 1), between 128 191 (byteAt s 2) with
        | Some s1, Some s2 =>
            (N.land s0 15 * 4096 + N.land s1 63 * 64 + N.land s2 63, 3%nat)
        | _, _ => (RuneError, 1%nat)
        end
      else if (s0 <? 245)%N then
        let lo := if (s0 =? 240)%N then 144 else 128 in
        let hi := if (s0 =? 244)%N then 143 else 191 in
        match between lo hi (byteAt s 1), between 128 191 (byteAt s 2),
              between 128 191 (byteAt s 3) with
        | Some s1, Some s2, Some s3 =>
            (N.land s0 7 * 262144 + N.land s1 63 * 4096 + N.land s2 63 * 64
             + N.land s3 63, 4%nat)
        | _, _, _ => (RuneError, 1%nat)
        end
      else (RuneError, 1%nat)
  end%N.

End utf8.

Module filepath.

Definition Separator : ascii := "/"%char.

(** [s[n:]]. *)
Fixpoint skip (n : nat) (s : string) : string :=
  match n, s with
  | S n', String _ s' => skip n' s'
  | _, _ => s
  end.

(** The chunk that the scan of [scanChunk] cuts off a pattern without its
    leading stars, and the rest of the pattern. *)
Fixpoint scan (pattern : string) (inrange : bool) : string * string :=
  match pattern with
  | EmptyString => (EmptyString, EmptyString)
  | String c rest =>
      if bool_decide (c = "\"%char) then
        match rest with
        | EmptyString => (String c EmptyString, EmptyString)
        | String c' rest' =>
            let '(chunk, rest) := scan rest' inrange in (String c (String c' chunk), rest)
        end
      else if bool_decide (c = "["%char) then
        let '(chunk, rest) := scan rest true in (String c chunk, rest)
      else if bool_decide (c = "]"%char) then
        let '(chunk, rest) := scan rest false in (String c chunk, rest)
      else if bool_decide (c = "*"%char) && negb inrange then (EmptyString, pattern)
      else
        let '(chunk, rest) := scan rest inrange in (String c chunk, rest)
  end.

Fixpoint stars (pattern : string) : bool * string :=
  match pattern with
  | String "*"%char rest => (true, (stars rest).2)
  | _ => (false, pattern)
  end.

Definition scanChunk (pattern : string) : bool * string * string :=
  let '(star, pattern) := stars pattern in
  let '(chunk, rest) := scan pattern false in
  (star, chunk, rest).

(** A character of a class, possibly escaped; [None] is [ErrBadPattern]. *)
Definition getEsc (chunk : string) : option (N * string) :=
  match chunk with
  | EmptyString => None
  | String c rest =>
      if bool_decide (c = "-"%char) || bool_decide (c = "]"%char) then None
      else
        let chunk := if bool_decide (c = "\"%char) then rest else chunk in
        match chunk with
        | EmptyString => None
        | _ =>
            let '(r, n) := utf8.DecodeRuneInString chunk in
            if bool_decide (r = utf8.RuneError) && bool_decide (n = 1%nat) then None
            else
              match skip n chunk with
              | EmptyString => None
              | nchunk => Some (r, nchunk)
              end
        end
  end.

(** The ranges of a class up to its closing bracket, against the rune
    [r]: whether one of them holds [r], and the chunk after the class. *)
Fixpoint ranges (fuel : nat) (r : N) (chunk : string) (nrange : nat) (matched : bool)
  : option (bool * string) :=
  match fuel with
  | O => None
  | S fuel' =>
      match chunk, nrange with
      | String "]"%char rest, S _ => Some (matched, rest)
      | _, _ =>
          match getEsc chunk with
          | None => None
          | Some (lo, String "-"%char rest) =>
              match getEsc rest with
              | None => None
              | Some (hi, chunk) =>
                  ranges fuel' r chunk (S nrange) (matched || ((lo <=? r) && (r <=? hi))%N)
              end
          | Some (lo, chunk) =>
              ranges fuel' r chunk (S nrange) (matched || ((lo <=? r) && (r <=? lo))%N)
          end
      end
  end.

(** The loop of [matchChunk]: after the match has failed it goes on
    through the chunk, to see that it is well formed, and reads no more of
    [s].  [None] is [ErrBadPattern]. *)
Fixpoint matchChunk_loop (fuel : nat) (chunk s : string) (failed : bool)
  : option (string * bool) :=
  match chunk with
  | EmptyString => if failed then Some (EmptyString, false) else Some (s, true)
  | String c chunk' =>
      match fuel with
      | O => None
      | S fuel' =>
          let failed := failed || bool_decide (s = EmptyString) in
          if bool_decide (c = "["%char) then
            let '(r, s) :=
              if failed then (0%N, s)
              else let '(r, n) := utf8.DecodeRuneInString s in (r, skip n s) in
            let '(negated, chunk) :=
              match chunk' with
              | String "^"%char chunk'' => (true, chunk'')
              | _ => (false, chunk')
              end in
            match ranges (S (String.length chunk)) r chunk 0 false with
            | None => None
            | Some (matched, chunk) =>
                matchChunk_loop fuel' chunk s (failed || eqb matched negated)
            end
          else if bool_decide (c = "?"%char) then
            if failed then matchChunk_loop fuel' chunk' s failed
            else
              matchChunk_loop fuel' chunk' (skip (utf8.DecodeRuneInString s).2 s)
                (bool_decide (String.get 0 s = Some Separator))
          else
            let literal (c : ascii) (chunk : string) :=
              if failed then matchChunk_loop fuel' chunk s failed
              else
                matchChunk_loop fuel' chunk (skip 1 s)
                  (negb (bool_decide (String.get 0 s = Some c))) in
            if bool_decide (c = "\"%char) then
              match chunk' with
              | EmptyString => None
              | String c' chunk'' => literal c' chunk''
              end
            else literal c chunk'
      end
  end.

Definition matchChunk (chunk s : string) : option (string * bool) :=
  matchChunk_loop (String.length chunk) chunk s false.

(** What the loop of [Match] over the places after a star ends with. *)
Inductive skipped : Type :=
| Found (t : string)
| NotFound
| BadPattern.

(** [for i := 0; i < len(name) && name[i] != Separator; i++] with
    [matchChunk(chunk, name[i+1:])]. *)
Fixpoint skipping (chunk : string) (last : bool) (name : string) : skipped :=
  match name with
  | EmptyString => NotFound
  | String c name' =>
      if bool_decide (c = Separator) then NotFound
      else
        match matchChunk chunk name' with
        | None => BadPattern
        | Some (t, true) =>
            if last && negb (bool_decide (t = EmptyString)) then skipping chunk last name'
            else Found t
        | Some (_, false) => skipping chunk last name'
        end
  end.

(** Whether the chunks of the rest of a pattern are well formed. *)
Fixpoint wellFormed (fuel : nat) (pattern : string) : bool :=
  match fuel with
  | O => true
  | S fuel' =>
      match pattern with
      | EmptyString => true
      | _ =>
          let '(_, chunk, pattern) := scanChunk pattern in
          match matchChunk chunk EmptyString with
          | None => false
          | Some _ => wellFormed fuel' pattern
          end
      end
  end.

Fixpoint contains (s : string) (c : ascii) : bool :=
  match s with
  | EmptyString => false
  | String c' s' => bool_decide (c' = c) || contains s' c
  end.

(** The loop of [Match] over the chunks of the pattern. *)
Fixpoint Match_loop (fuel : nat) (pattern name : string) : bool * option error :=
  match pattern with
  | EmptyString => (bool_decide (name = EmptyString), None)
  | _ =>
      match fuel with
      | O => (false, None)
      | S fuel' =>
          let '(star, chunk, pattern) := scanChunk pattern in
          if star && bool_decide (chunk = EmptyString)
          then (negb (contains name Separator), None)
          else
            let last := bool_decide (pattern = EmptyString) in
            let unmatched :=
              if wellFormed (String.length pattern) pattern then (false, None)
              else (false, Some ErrBadPattern) in
            let after_star :=
              if star then
                match skipping chunk last name with
                | Found t => Match_loop fuel' pattern t
                | BadPattern => (false, Some ErrBadPattern)
                | NotFound => unmatched
                end
              else unmatched in
            match matchChunk chunk name with
            | None => (false, Some ErrBadPattern)
            | Some (t, true) =>
                if bool_decide (t = EmptyString) || negb last
                then Match_loop fuel' pattern t
                else after_star
            | Some (_, false) => after_star
            end
      end
  end.

Definition Match (pattern name : string) : bool * option error :=
  Match_loop (String.length pattern) pattern name.

End filepath.

(** ** Package metadata *)

Module metadata.

(** Modelled from the spec: the role tags, the specification version and
    the key type names are constants of the package's type declarations,
    which are not part of the sources at hand (sections 3 and 6). *)
Definition ROOT : string := "root".
Definition SNAPSHOT : string := "snapshot".
Definition TARGETS : string := "targets".
Definition TIMESTAMP : string := "timestamp".
Definition SPECIFICATION_VERSION : string := "1.0.31".
Definition KeyTypeEd25519 : string := "ed25519".

(** The instant of a [time.Time]. *)
Definition Time : Type := Z.

(** The documents.  The records follow the fields the code reads and
    writes; a field holding a pointer that the code compares with nil is
    an [option]. *)

Module Key.
Record t : Type := { Type_ : string; Scheme : string; Value : string }.
End Key.

Module Role.
Record t : Type := { KeyIDs : list string; Threshold : Z }.
End Role.

Module Signature.
Record t : Type := { KeyID : string; Signature : bytes }.
End Signature.

Module MetaFiles.
Record t : Type := { Length : Z; Hashes : gmap string bytes; Version : Z }.
End MetaFiles.

Module TargetFiles.
Record t : Type := { Length : Z; Hashes : gmap string bytes; Path : string }.
End TargetFiles.

Module DelegatedRole.
Record t : Type := {
  Name : string;
  KeyIDs : list string;
  Threshold : Z;
  Terminating : bool;
  Paths : list string;
  PathHashPrefixes : list string
}.
End DelegatedRole.

Module Delegations.
(** [Keys] is a [map[string]*Key]: a key that is absent and a key bound
    to nil read the same, both are an absent key here. *)
Record t : Type := {
  Keys : gmap string Key.t;
  Roles : list DelegatedRole.t
}.
End Delegations.

Module RootType.
(** [Roles] is a [map[string]*Role]: [Some None] is a role bound to nil. *)
Record t : Type := {
  Type_ : string;
  SpecVersion : string;
  ConsistentSnapshot : bool;
  Version : Z;
  Expires : Time;
  Keys : gmap string Key.t;
  Roles : gmap string (option Role.t)
}.
End RootType.

Module SnapshotType.
Record t : Type := {
  Type_ : string;
  SpecVersion : string;
  Version : Z;
  Expires : Time;
  Meta : gmap string MetaFiles.t
}.
End SnapshotType.

Module TimestampType.
Record t : Type := {
  Type_ : string;
  SpecVersion : string;
  Version : Z;
  Expires : Time;
  Meta : gmap string MetaFiles.t
}.
End TimestampType.

Module TargetsType.
Record t : Type := {
  Type_ : string;
  SpecVersion : string;
  Version : Z;
  Expires : Time;
  Targets : gmap string TargetFiles.t;
  Delegations : option Delegations.t
}.
End TargetsType.

Record Metadata (T : Type) : Type := {
  Signed : T;
  Signatures : list Signature.t
}.
Arguments Signed {T} _.
Arguments Signatures {T} _.

(** The four roles a [Metadata[T]] can be instantiated at. *)
Inductive AnyMetadata : Type :=
| OfRoot (m : Metadata RootType.t)
| OfSnapshot (m : Metadata SnapshotType.t)
| OfTimestamp (m : Metadata TimestampType.t)
| OfTargets (m : Metadata TargetsType.t).

(** *** Constructors

    [now] is the reading of the clock, used when no expiry is given. *)

Definition expiry (now : Time) (expires : list Time) : Time :=
  match expires with
  | [] => now
  | e :: _ => e
  end.

Definition Root (now : Time) (expires : list Time) : Metadata RootType.t :=
  let roles : gmap string (option Role.t) :=
    foldl (fun roles r => <[r := Some {| Role.KeyIDs := []; Role.Threshold := 1 |}]> roles)
      ∅ [ROOT; SNAPSHOT; TARGETS; TIMESTAMP] in
  {| Signed := {|
       RootType.Type_ := ROOT;
       RootType.SpecVersion := SPECIFICATION_VERSION;
       RootType.ConsistentSnapshot := true;
       RootType.Version := 1;
       RootType.Expires := expiry now expires;
       RootType.Keys := ∅;
       RootType.Roles := roles |};
     Signatures := [] |}.

Definition Snapshot (now : Time) (expires : list Time) : Metadata SnapshotType.t :=
  {| Signed := {|
       SnapshotType.Type_ := SNAPSHOT;
       SnapshotType.SpecVersion := SPECIFICATION_VERSION;
       SnapshotType.Version := 1;
       SnapshotType.Expires := expiry now expires;
       SnapshotType.Meta :=
         {[ "targets.json" :=
              {| MetaFiles.Length := 0; MetaFiles.Hashes := ∅; MetaFiles.Version := 1 |} ]} |};
     Signatures := [] |}.

Definition Timestamp (now : Time) (expires : list Time) : Metadata TimestampType.t :=
  {| Signed := {|
       TimestampType.Type_ := TIMESTAMP;
       TimestampType.SpecVersion := SPECIFICATION_VERSION;
       TimestampType.Version := 1;
       TimestampType.Expires := expiry now expires;
       TimestampType.Meta :=
         {[ "snapshot.json" :=
              {| MetaFiles.Length := 0; MetaFiles.Hashes := ∅; MetaFiles.Version := 1 |} ]} |};
     Signatures := [] |}.

Definition Targets (now : Time) (expires : list Time) : Metadata TargetsType.t :=
  {| Signed := {|
       TargetsType.Type_ := TARGETS;
       TargetsType.SpecVersion := SPECIFICATION_VERSION;
       TargetsType.Version := 1;
       TargetsType.Expires := expiry now expires;
       TargetsType.Targets := ∅;
       TargetsType.Delegations := None |};
     Signatures := [] |}.

Definition TargetFile : TargetFiles.t :=
  {| TargetFiles.Length := 0; TargetFiles.Hashes := ∅; TargetFiles.Path := "" |}.

Definition MetaFile (version : Z) : MetaFiles.t :=
  let version := if decide (version < 1) then 1 else version in
  {| MetaFiles.Length := 0; MetaFiles.Hashes := ∅; MetaFiles.Version := version |}.

Definition ClearSignatures {T} (meta : Metadata T) : Metadata T :=
  {| Signed := Signed meta; Signatures := [] |}.

(** *** Integrity checks *)

(** [io.Copy] from a reader over [data] into [io.Discard] returns the
    number of bytes of [data] and no error. *)
Definition verifyLength (data : bytes) (length : Z) : option error :=
  let len := Z.of_nat (List.length data) in
  if decide (length ≠ len) then Some ErrLengthOrHashMismatch else None.

Section Hashes.

(** The digests of [crypto/sha256] and [crypto/sha512]. *)
Variable sha256 sha512 : bytes -> bytes.

(** The body of the loop of [verifyHashes] for one entry of the map. *)
Definition verifyHash (data : bytes) (k : string) (v : bytes) : option error :=
  if decide (k = "sha256") then
    if decide (hex.EncodeToString v ≠ hex.EncodeToString (sha256 data))
    then Some ErrLengthOrHashMismatch else None
  else if decide (k = "sha512") then
    if decide (hex.EncodeToString v ≠ hex.EncodeToString (sha512 data))
    then Some ErrLengthOrHashMismatch else None
  else Some ErrLengthOrHashMismatch.

(** The loop over the entries in the order [hashes] lists them: it
    returns at the first entry that fails. *)
Fixpoint verifyHashes_range (data : bytes) (hashes : list (string * bytes)) : option error :=
  match hashes with
  | [] => None
  | (k, v) :: rest =>
      match verifyHash data k v with
      | Some e => Some e
      | None => verifyHashes_range data rest
      end
  end.

(** Go leaves the order of a [range] over a map open; every failure is the
    same error kind, so the order [map_to_list] picks is as good as any
    (lemma [verifyHashes_any_order]). *)
Definition verifyHashes (data : bytes) (hashes : gmap string bytes) : option error :=
  verifyHashes_range data (map_to_list hashes).

Definition MetaFiles_VerifyLengthHashes (f : MetaFiles.t) (data : bytes) : option error :=
  match (if decide (0 < Z.of_nat (size (MetaFiles.Hashes f)))
         then verifyHashes data (MetaFiles.Hashes f) else None) with
  | Some err => Some err
  | None =>
      if decide (MetaFiles.Length f ≠ 0)
      then verifyLength data (MetaFiles.Length f)
      else None
  end.

Definition TargetFiles_VerifyLengthHashes (f : TargetFiles.t) (data : bytes) : option error :=
  match verifyHashes data (TargetFiles.Hashes f) with
  | Some err => Some err
  | None => verifyLength data (TargetFiles.Length f)
  end.

End Hashes.

(** *** Delegated paths *)

(** The loop over [role.Paths] returns in its first iteration, with
    [filepath.Match] called on the target path and the pattern in this
    order. *)
Definition IsDelegatedPath (role : DelegatedRole.t) (targetFilepath : string)
  : bool * option error :=
  if decide (0 < List.length (DelegatedRole.PathHashPrefixes role))%nat then (false, None)
  else if decide (0 < List.length (DelegatedRole.Paths role))%nat then
    match DelegatedRole.Paths role with
    | pathPattern :: _ => filepath.Match targetFilepath pathPattern
    | [] => (false, None)
    end
  else (false, None).

Definition GetRolesForTarget (role : Delegations.t) (targetFilepath : string)
  : gmap string bool :=
  foldl (fun res r =>
           match IsDelegatedPath r targetFilepath with
           | (true, None) => <[DelegatedRole.Name r := DelegatedRole.Terminating r]> res
           | _ => res
           end)
    ∅ (Delegations.Roles role).

(** *** Threshold verification *)

(** [crypto.Hash(0)] and [crypto.SHA256]. *)
Inductive crypto_Hash : Type := Hash0 | SHA256.

(** The [Signed] part of a document of any role, the input of the
    canonical encoder. *)
Inductive AnySigned : Type :=
| SignedRoot (s : RootType.t)
| SignedSnapshot (s : SnapshotType.t)
| SignedTimestamp (s : TimestampType.t)
| SignedTargets (s : TargetsType.t).

Definition signedOf (d : AnyMetadata) : AnySigned :=
  match d with
  | OfRoot m => SignedRoot (Signed m)
  | OfSnapshot m => SignedSnapshot (Signed m)
  | OfTimestamp m => SignedTimestamp (Signed m)
  | OfTargets m => SignedTargets (Signed m)
  end.

Definition signaturesOf (d : AnyMetadata) : list Signature.t :=
  match d with
  | OfRoot m => Signatures m
  | OfSnapshot m => Signatures m
  | OfTimestamp m => Signatures m
  | OfTargets m => Signatures m
  end.

(** The loop [for _, s := range d.Signatures { if s.KeyID == v { sign = s } }]
    from the zero [Signature]. *)
Definition signatureFor (v : string) (sigs : list Signature.t) : Signature.t :=
  foldl (fun sign s => if decide (Signature.KeyID s = v) then s else sign)
    {| Signature.KeyID := ""; Signature.Signature := [] |} sigs.

(** The first [switch] of [VerifyDelegate]: the keys, key ids and
    threshold of [delegated_role] in the delegator.  A targets delegator
    without delegations, and a root role bound to nil, are nil
    dereferences. *)
Definition delegationOf (meta : AnyMetadata) (delegated_role : string)
  : outcome (gmap string Key.t * list string * Z) :=
  match meta with
  | OfRoot i =>
      match RootType.Roles (Signed i) !! delegated_role with
      | Some (Some role) =>
          Ok (RootType.Keys (Signed i), Role.KeyIDs role, Role.Threshold role)
      | Some None => Panic
      | None => Err ErrValue
      end
  | OfTargets i =>
      match TargetsType.Delegations (Signed i) with
      | None => Panic
      | Some d =>
          match List.find (fun v => bool_decide (DelegatedRole.Name v = delegated_role))
                  (Delegations.Roles d) with
          | Some v =>
              Ok (Delegations.Keys d, DelegatedRole.KeyIDs v, DelegatedRole.Threshold v)
          | None => Ok (Delegations.Keys d, [], 0)
          end
      end
  | _ => Err ErrType
  end.

Section Crypto.

(** The signature primitives: the conversion of a key of the package to a
    public key (a method of [*Key], whose receiver is nil for [None]), the
    loading of a verifier, the canonical JSON encoder and the check of one
    signature over a payload. *)
Context {PublicKey Verifier : Type}.
Variable Key_ToPublicKey : option Key.t -> outcome PublicKey.
Variable LoadVerifier : PublicKey -> crypto_Hash -> outcome Verifier.
Variable EncodeCanonical : AnySigned -> outcome bytes.
Variable VerifySignature : Verifier -> bytes -> bytes -> option error.

(** The loop over the key ids of the role; [delegated_metadata] is [None]
    for a value that is no metadata of one of the four roles, and a
    metadata is a pointer that is not nil. *)
Fixpoint VerifyDelegate_range (keys : gmap string Key.t)
    (delegated_metadata : option AnyMetadata)
    (roleKeyIDs : list string) (signing_keys : gset string) : outcome (gset string) :=
  match roleKeyIDs with
  | [] => Ok signing_keys
  | v :: rest =>
      let? key := Key_ToPublicKey (keys !! v) in
      match keys !! v with
      | None => Panic
      | Some k =>
          let hash := if decide (Key.Type_ k ≠ KeyTypeEd25519) then SHA256 else Hash0 in
          let? verifier := LoadVerifier key hash in
          match delegated_metadata with
          | None => Err ErrType
          | Some d =>
              let sign := signatureFor v (signaturesOf d) in
              let? payload := EncodeCanonical (signedOf d) in
              let signing_keys :=
                match VerifySignature verifier (Signature.Signature sign) payload with
                | Some _ => signing_keys
                | None => {[v]} ∪ signing_keys
                end in
              VerifyDelegate_range keys delegated_metadata rest signing_keys
          end
      end
  end.

Definition VerifyDelegate (meta : AnyMetadata) (delegated_role : string)
    (delegated_metadata : option AnyMetadata) : outcome unit :=
  let? '(keys, roleKeyIDs, roleThreshold) := delegationOf meta delegated_role in
  if decide (List.length roleKeyIDs = 0%nat) then Err ErrValue
  else
    let? signing_keys := VerifyDelegate_range keys delegated_metadata roleKeyIDs ∅ in
    if decide (Z.of_nat (size signing_keys) < roleThreshold)
    then Err ErrUnsignedMetadata
    else Ok tt.

(** Whether the key [v] of the role verifies the document: the key is
    there, loads as a verifier, and accepts the signature the document
    carries for [v] over the canonical encoding. *)
Definition keyVerifies (keys : gmap string Key.t) (d : AnyMetadata) (v : string) : bool :=
  match keys !! v with
  | None => false
  | Some k =>
      match Key_ToPublicKey (Some k) with
      | Ok key =>
          match LoadVerifier key
                  (if decide (Key.Type_ k ≠ KeyTypeEd25519) then SHA256 else Hash0) with
          | Ok verifier =>
              match EncodeCanonical (signedOf d) with
              | Ok payload =>
                  match VerifySignature verifier
                          (Signature.Signature (signatureFor v (signaturesOf d))) payload with
                  | None => true
                  | Some _ => false
                  end
              | _ => false
              end
          | _ => false
          end
      | _ => false
      end
  end.

(** The number of distinct key ids of the role that verify the document. *)
Definition verifiedCount (keys : gmap string Key.t) (d : AnyMetadata)
    (roleKeyIDs : list string) : Z :=
  Z.of_nat (size (filter (fun v => keyVerifies keys d v = true)
                         (list_to_set roleKeyIDs : gset string))).

(** The key [v] can be used: it is in the key map and loads as a verifier. *)
Definition keyLoads (keys : gmap string Key.t) (v : string) : Prop :=
  exists k key verifier,
    keys !! v = Some k
    /\ Key_ToPublicKey (Some k) = Ok key
    /\ LoadVerifier key (if decide (Key.Type_ k ≠ KeyTypeEd25519) then SHA256 else Hash0)
       = Ok verifier.

End Crypto.

(** The document [d] with the signatures [sigs]. *)
Definition withSignatures (d : AnyMetadata) (sigs : list Signature.t) : AnyMetadata :=
  match d with
  | OfRoot m => OfRoot {| Signed := Signed m; Signatures := sigs |}
  | OfSnapshot m => OfSnapshot {| Signed := Signed m; Signatures := sigs |}
  | OfTimestamp m => OfTimestamp {| Signed := Signed m; Signatures := sigs |}
  | OfTargets m => OfTargets {| Signed := Signed m; Signatures := sigs |}
  end.

(** *** Serialisation *)

(** The type parameter [T Roles] of [Metadata[T]]. *)
Inductive Roles : Type := RootRole | SnapshotRole | TimestampRole | TargetsRole.

Definition typeOf (T : Roles) : Type :=
  match T with
  | RootRole => RootType.t
  | SnapshotRole => SnapshotType.t
  | TimestampRole => TimestampType.t
  | TargetsRole => TargetsType.t
  end.

Definition toAny {T : Roles} : Metadata (typeOf T) -> AnyMetadata :=
  match T with
  | RootRole => OfRoot
  | SnapshotRole => OfSnapshot
  | TimestampRole => OfTimestamp
  | TargetsRole => OfTargets
  end.

(** The [_type] field of a [Signed] part. *)
Definition signedType (s : AnySigned) : string :=
  match s with
  | SignedRoot s => RootType.Type_ s
  | SignedSnapshot s => SnapshotType.Type_ s
  | SignedTimestamp s => TimestampType.Type_ s
  | SignedTargets s => TargetsType.Type_ s
  end.

(** The constructor of the role [T]. *)
Definition New (T : Roles) (now : Time) (expires : list Time) : Metadata (typeOf T) :=
  match T with
  | RootRole => Root now expires
  | SnapshotRole => Snapshot now expires
  | TimestampRole => Timestamp now expires
  | TargetsRole => Targets now expires
  end.

(** A JSON value as [encoding/json] decodes it into an [any]; an object
    keeps its members in the order of the text, and a name that occurs
    twice reads as its last occurrence. *)
#[warnings="-register-all"]
Inductive json : Type :=
| JNull
| JBool (b : bool)
| JNumber (literal : string)
| JString (s : string)
| JArray (l : list json)
| JObject (members : list (string * json)).

Fixpoint member (name : string) (members : list (string * json)) : option json :=
  match members with
  | [] => None
  | (k, v) :: rest =>
      match member name rest with
      | Some v' => Some v'
      | None => if decide (k = name) then Some v else None
      end
  end.

Definition checkUniqueSignatures {T} (meta : Metadata T) : option error :=
  (fix range (sigs : list Signature.t) (signatures : list string) : option error :=
     match sigs with
     | [] => None
     | sig :: rest =>
         if decide (Signature.KeyID sig ∈ signatures) then Some ErrValue
         else range rest (signatures ++ [Signature.KeyID sig])%list
     end) (Signatures meta) [].

Section Json.

(** [encoding/json]: the parser of a JSON text ([None] for a text that is
    not JSON), the decoder of a text into a [Metadata[T]] and the two
    encoders of a [Metadata[T]]. *)
Variable json_parse : bytes -> option json.
Variable json_Unmarshal : forall T : Roles, bytes -> outcome (Metadata (typeOf T)).
Variable json_Marshal : forall T : Roles, Metadata (typeOf T) -> outcome bytes.
Variable json_MarshalIndent : forall T : Roles, Metadata (typeOf T) -> outcome bytes.

(** [json.Unmarshal] into a [map[string]any], then
    [m["signed"].(map[string]any)["_type"].(string)]: a type assertion
    that fails is a panic. *)
Definition checkType (T : Roles) (data : bytes) : outcome unit :=
  let? m :=
    match json_parse data with
    | Some (JObject members) => Ok members
    | Some JNull => Ok []
    | _ => Err (errorString "json: cannot unmarshal")
    end in
  match member "signed" m with
  | Some (JObject signed) =>
      match member "_type" signed with
      | Some (JString signedType) =>
          match T with
          | RootRole => if decide (ROOT ≠ signedType) then Err ErrValue else Ok tt
          | SnapshotRole => if decide (SNAPSHOT ≠ signedType) then Err ErrValue else Ok tt
          | TimestampRole => if decide (TIMESTAMP ≠ signedType) then Err ErrValue else Ok tt
          | TargetsRole => if decide (TARGETS ≠ signedType) then Err ErrValue else Ok tt
          end
      | _ => Panic
      end
  | _ => Panic
  end.

Definition fromBytes (T : Roles) (data : bytes) : outcome (Metadata (typeOf T)) :=
  let? _ := checkType T data in
  let? meta := json_Unmarshal T data in
  let? _ := of_error (checkUniqueSignatures meta) in
  Ok meta.

(** The method assigns the document read to its receiver and returns it. *)
Definition FromBytes (T : Roles) (data : bytes) : outcome (Metadata (typeOf T)) :=
  let? m := fromBytes T data in
  Ok m.

Definition ToBytes (T : Roles) (meta : Metadata (typeOf T)) (pretty : bool) : outcome bytes :=
  if pretty then json_MarshalIndent T meta else json_Marshal T meta.

(** The text [data] carries the type tag of the document [meta] where
    [checkType] looks for it. *)
Definition carriesType (T : Roles) (meta : Metadata (typeOf T)) (data : bytes) : Prop :=
  exists members signed,
    json_parse data = Some (JObject members)
    /\ member "signed" members = Some (JObject signed)
    /\ member "_type" signed = Some (JString (signedType (signedOf (toAny meta)))).

End Json.

End metadata.

(** ** The helpers file

    The same package keeps a second, earlier file of helpers whose length
    and hash checks are left to be written. *)

Module helpers.

Definition verifyLength (data : bytes) (length : Z) : option error := None.

Definition verifyHashes (data : bytes) (hashes : gmap string bytes) : option error := None.

End helpers.

(** ** net/url and strconv *)

Module url.

(** [QueryEscape]: letters, digits and [-], [_], [.], [~] stay, a space
    becomes [+], any other byte becomes [%XX]. *)
Definition unreserved (c : ascii) : bool :=
  let n := nat_of_ascii c in
  ((48 <=? n) && (n <=? 57) || (65 <=? n) && (n <=? 90) || (97 <=? n) && (n <=? 122)
   || (n =? 45) || (n =? 95) || (n =? 46) || (n =? 126))%nat.

Definition upperhex (n : N) : ascii :=
  ascii_of_N (if (n <? 10)%N then 48 + n else 55 + n)%N.

Fixpoint QueryEscape (s : string) : string :=
  match s with
  | EmptyString => EmptyString
  | String c rest =>
      if unreserved c then String c (QueryEscape rest)
      else if bool_decide (c = " "%char) then String "+"%char (QueryEscape rest)
      else
        let n := N_of_ascii c in
        String "%"%char (String (upperhex (n / 16)) (String (upperhex (n mod 16))
          (QueryEscape rest)))
  end.

End url.

Module strconv.

(** [FormatInt(i, 10)]. *)
Definition FormatInt (i : Z) : string := pretty i.

End strconv.

(** ** Package config

    Modelled from the spec: the configuration of the updater is declared
    in a file that is not part of the sources at hand; its fields are the
    tunables of section 4.5. *)

Module config.

Record UpdaterConfig : Type := {
  MaxRootRotations : Z;
  MaxDelegations : Z;
  RootMaxLength : Z;
  TimestampMaxLength : Z;
  SnapshotMaxLength : Z;
  TargetsMaxLength : Z;
  PrefixTargetsWithHash : bool
}.

End config.

(** ** Package trustedmetadata

    The trusted set as the updater reads it: the root is always there,
    [Targets] maps the names of the roles loaded so far to their
    documents.  The methods that update it are not part of the sources at
    hand, the updater takes them from [Externals] below. *)

Module trustedmetadata.

Record TrustedMetadata : Type := {
  Root : metadata.Metadata metadata.RootType.t;
  Snapshot : option (metadata.Metadata metadata.SnapshotType.t);
  Timestamp : option (metadata.Metadata metadata.TimestampType.t);
  Targets : gmap string (metadata.Metadata metadata.TargetsType.t)
}.

End trustedmetadata.

(** ** Package updater *)

Module updater.

Import metadata.

Record roleParentTuple : Type := { Role : string; Parent : string }.

(** What a run leaves behind for the theorems to read: the files asked of
    the fetcher, with the byte cap of each request, and the calls of
    [loadTargets]. *)
Inductive event : Type :=
| Download (url : string) (length : Z)
| LoadTargets (roleName parentName : string).

(** What the updater calls outside the sources at hand, over the state
    [World] of the disk, the network, the clock and the runtime: the
    operating system, the fetcher, the update methods of the trusted set,
    and the order in which a [range] visits a map. *)
Record Externals (World : Type) : Type := {
  os_ReadFile : string -> World -> outcome bytes * World;
  os_Getwd : World -> outcome string * World;
  os_CreateTemp : string -> string -> World -> outcome string * World;
  os_WriteFile : string -> bytes -> World -> outcome unit * World;
  os_Remove : string -> World -> outcome unit * World;
  os_Rename : string -> string -> World -> outcome unit * World;
  DownloadFile : string -> Z -> World -> outcome bytes * World;
  UpdateRoot : bytes -> trustedmetadata.TrustedMetadata -> World ->
    outcome (Metadata RootType.t) * trustedmetadata.TrustedMetadata;
  UpdateTimestamp : bytes -> trustedmetadata.TrustedMetadata -> World ->
    outcome (Metadata TimestampType.t) * trustedmetadata.TrustedMetadata;
  UpdateSnapshot : bytes -> bool -> trustedmetadata.TrustedMetadata -> World ->
    outcome (Metadata SnapshotType.t) * trustedmetadata.TrustedMetadata;
  UpdateDelegatedTargets : bytes -> string -> string -> trustedmetadata.TrustedMetadata ->
    World -> outcome (Metadata TargetsType.t) * trustedmetadata.TrustedMetadata;
  mapRange : gmap string bool -> World -> list (string * bool) * World
}.
Arguments os_ReadFile {World}.
Arguments os_Getwd {World}.
Arguments os_CreateTemp {World}.
Arguments os_WriteFile {World}.
Arguments os_Remove {World}.
Arguments os_Rename {World}.
Arguments DownloadFile {World}.
Arguments UpdateRoot {World}.
Arguments UpdateTimestamp {World}.
Arguments UpdateSnapshot {World}.
Arguments UpdateDelegatedTargets {World}.
Arguments mapRange {World}.

(** The updater: its fields [trusted] and [config] (here [cfg]), the
    state of the world in the place of its fetcher, and the trace. *)
Record Updater (World : Type) : Type := {
  metadataDir : string;
  metadataBaseUrl : string;
  targetDir : string;
  targetBaseUrl : string;
  trusted : trustedmetadata.TrustedMetadata;
  cfg : config.UpdaterConfig;
  world : World;
  trace : list event
}.
Arguments metadataDir {World}.
Arguments metadataBaseUrl {World}.
Arguments targetDir {World}.
Arguments targetBaseUrl {World}.
Arguments trusted {World}.
Arguments cfg {World}.
Arguments world {World}.
Arguments trace {World}.

(** Modelled from the spec: the kinds under the umbrella [ErrRepository]
    (section 7), for [errors.Is(err, metadata.ErrRepository{})]. *)
Definition isErrRepository (e : error) : bool :=
  match e with
  | ErrRepository | ErrUnsignedMetadata | ErrBadVersionNumber | ErrEqualVersionNumber
  | ErrExpiredMetadata | ErrLengthOrHashMismatch | ErrType | ErrValue => true
  | _ => false
  end.

Definition StatusNotFound : Z := 404.
Definition StatusForbidden : Z := 403.

(** The [int64] that the integer [z] is, or wraps around to. *)
Definition wrap64 (z : Z) : Z := (z + 2 ^ 63) mod 2 ^ 64 - 2 ^ 63.

(** [filepath.Join] of a directory and a file name, both clean. *)
Definition Join (dir name : string) : string :=
  if decide (dir = "") then name else dir ++ "/" ++ name.

(** The swap loop of [reverseSlice], [n] bounding its iterations. *)
Fixpoint reverseSlice_loop {E} (n i j : nat) (s : list E) : list E :=
  match n with
  | O => s
  | S n' =>
      if decide (i < j)%nat then
        match s !! i, s !! j with
        | Some a, Some b => reverseSlice_loop n' (S i) (pred j) (<[i := b]> (<[j := a]> s))
        | _, _ => s
        end
      else s
  end.

Definition reverseSlice {E} (s : list E) : list E :=
  reverseSlice_loop (List.length s) 0 (List.length s - 1) s.

(** The last element of a slice and the slice without it. *)
Definition pop {E} (s : list E) : option (E * list E) :=
  match rev s with
  | [] => None
  | x :: r => Some (x, rev r)
  end.

Section Updater.

Context {World : Type}.
Variable ext : Externals World.

(** A method of the updater: from a state to an outcome and a state. *)
Definition M (A : Type) : Type := Updater World -> outcome A * Updater World.

Definition ret {A} (a : A) : M A := fun u => (Ok a, u).
Definition fail {A} (e : error) : M A := fun u => (Err e, u).

(** Runs [c] and hands its value or its error to [k]; a panic unwinds. *)
Definition try {A B} (c : M A) (k : A + error -> M B) : M B :=
  fun u =>
    match c u with
    | (Ok a, u') => k (inl a) u'
    | (Err e, u') => k (inr e) u'
    | (Panic, u') => (Panic, u')
    end.

(** Runs [c]; its error is returned at once. *)
Definition bind {A B} (c : M A) (k : A -> M B) : M B :=
  try c (fun r => match r with inl a => k a | inr e => fail e end).

Notation "'do' x <- c ; k" := (bind c (fun x => k))
  (at level 10, x name, c at level 100, k at level 200).

(** A call of the operating system or of the fetcher. *)
Definition call {A} (f : World -> outcome A * World) : M A :=
  fun u =>
    let '(r, w) := f (world u) in
    (r, {| metadataDir := metadataDir u; metadataBaseUrl := metadataBaseUrl u;
           targetDir := targetDir u; targetBaseUrl := targetBaseUrl u;
           trusted := trusted u; cfg := cfg u; world := w; trace := trace u |}).

(** A call of an update method of the trusted set. *)
Definition update {A}
    (f : trustedmetadata.TrustedMetadata -> World ->
         outcome A * trustedmetadata.TrustedMetadata) : M A :=
  fun u =>
    let '(r, t) := f (trusted u) (world u) in
    (r, {| metadataDir := metadataDir u; metadataBaseUrl := metadataBaseUrl u;
           targetDir := targetDir u; targetBaseUrl := targetBaseUrl u;
           trusted := t; cfg := cfg u; world := world u; trace := trace u |}).

Definition log (e : event) : M unit :=
  fun u =>
    (Ok tt, {| metadataDir := metadataDir u; metadataBaseUrl := metadataBaseUrl u;
               targetDir := targetDir u; targetBaseUrl := targetBaseUrl u;
               trusted := trusted u; cfg := cfg u; world := world u;
               trace := trace u ++ [e] |}).

Definition get {A} (f : Updater World -> A) : M A := fun u => (Ok (f u), u).

(** [os.Open] and [io.ReadAll] are one call of the operating system. *)
Definition readFile (name : string) : M bytes := call (os_ReadFile ext name).

Definition loadLocalMetadata (roleName : string) : M bytes :=
  readFile (url.QueryEscape roleName ++ ".json").

(** The URL [downloadMetadata] builds. *)
Definition metadataUrl (urlPath roleName version : string) : string :=
  if decide (version = "") then urlPath ++ url.QueryEscape roleName ++ ".json"
  else urlPath ++ version ++ "." ++ url.QueryEscape roleName ++ ".json".

(** [downloadMetadata], which records the request in the trace before it
    calls the fetcher. *)
Definition downloadMetadata (roleName : string) (length : Z) (version : string) : M bytes :=
  do urlPath <- get metadataBaseUrl;
  let urlPath := metadataUrl urlPath roleName version in
  do _ <- log (Download urlPath length);
  call (DownloadFile ext urlPath length).

Definition persistMetadata (roleName : string) (data : bytes) : M unit :=
  do dir <- get metadataDir;
  let fileName := Join dir (url.QueryEscape roleName ++ ".json") in
  do cwd <- call (os_Getwd ext);
  do file <- call (os_CreateTemp ext cwd "tuf_tmp");
  try (call (os_WriteFile ext file data)) (fun r =>
    match r with
    | inr err =>
        try (call (os_Remove ext file)) (fun _ => fail err)
    | inl _ => call (os_Rename ext file fileName)
    end).

(** The loop of [loadRoot] over the [n] versions from [nextVersion] on. *)
Fixpoint loadRoot_loop (n : nat) (nextVersion : Z) : M unit :=
  match n with
  | O => ret tt
  | S n' =>
      do max <- get (fun u => config.RootMaxLength (cfg u));
      try (downloadMetadata ROOT max (strconv.FormatInt nextVersion)) (fun r =>
        match r with
        | inr err =>
            match err with
            | ErrDownloadHTTP StatusCode =>
                if decide (StatusCode ≠ StatusNotFound /\ StatusCode ≠ StatusForbidden)
                then fail err
                else ret tt
            | _ => fail err
            end
        | inl data =>
            do _ <- update (UpdateRoot ext data);
            do _ <- persistMetadata ROOT data;
            loadRoot_loop n' (nextVersion + 1)
        end)
  end.

(** The two bounds are sums of [int64], which wrap around.
    [for nextVersion := lowerBound; nextVersion <= upperBound; nextVersion++]
    runs over the [upperBound - lowerBound + 1] versions of the range, none
    when [upperBound] is below [lowerBound].  (When [upperBound] is the
    largest [int64] the condition of the loop of the source never fails:
    past these versions the source goes on from the least [int64], which
    is left out here.) *)
Definition loadRoot : M unit :=
  do lowerBound <- get (fun u =>
    wrap64 (RootType.Version (Signed (trustedmetadata.Root (trusted u))) + 1));
  do upperBound <- get (fun u => wrap64 (lowerBound + config.MaxRootRotations (cfg u)));
  loadRoot_loop (Z.to_nat (upperBound - lowerBound + 1)) lowerBound.

Definition loadTimestamp : M unit :=
  do _ <-
    try (loadLocalMetadata TIMESTAMP) (fun r =>
      match r with
      | inr _ => ret tt
      | inl data =>
          try (update (UpdateTimestamp ext data)) (fun r =>
            match r with
            | inr err => if isErrRepository err then ret tt else fail err
            | inl _ => ret tt
            end)
      end);
  do max <- get (fun u => config.TimestampMaxLength (cfg u));
  do data <- downloadMetadata TIMESTAMP max "";
  try (update (UpdateTimestamp ext data)) (fun r =>
    match r with
    | inr err =>
        if decide (err = ErrEqualVersionNumber) then ret tt else fail err
    | inl _ => persistMetadata TIMESTAMP data
    end).

(** The value a map of [MetaFiles] reads at a name: the zero value when
    the name is not bound. *)
Definition metaAt (meta : gmap string MetaFiles.t) (name : string) : MetaFiles.t :=
  default {| MetaFiles.Length := 0; MetaFiles.Hashes := ∅; MetaFiles.Version := 0 |}
          (meta !! name).

Definition loadSnapshot : M unit :=
  try (loadLocalMetadata SNAPSHOT) (fun r =>
    let remote : M unit :=
      do timestamp <- get (fun u => trustedmetadata.Timestamp (trusted u));
      match timestamp with
      | None => fail (errorString "trusted timestamp not set")
      | Some timestamp =>
          let snapshotMeta :=
            metaAt (TimestampType.Meta (Signed timestamp)) (SNAPSHOT ++ ".json") in
          let length := MetaFiles.Length snapshotMeta in
          do length <- get (fun u =>
            if decide (length = 0) then config.SnapshotMaxLength (cfg u) else length);
          do version <- get (fun u =>
            if RootType.ConsistentSnapshot (Signed (trustedmetadata.Root (trusted u)))
            then strconv.FormatInt (MetaFiles.Version snapshotMeta) else "");
          do data <- downloadMetadata SNAPSHOT length version;
          do _ <- update (UpdateSnapshot ext data false);
          persistMetadata SNAPSHOT data
      end in
    match r with
    | inr _ => remote
    | inl data =>
        try (update (UpdateSnapshot ext data true)) (fun r =>
          match r with
          | inr err => if isErrRepository err then remote else fail err
          | inl _ => ret tt
          end)
    end).

(** [loadTargets], which first records its call in the trace.  A role of
    the trusted set is bound to a document, not to nil. *)
Definition loadTargets (roleName parentName : string) : M (Metadata TargetsType.t) :=
  do _ <- log (LoadTargets roleName parentName);
  do role <- get (fun u => trustedmetadata.Targets (trusted u) !! roleName);
  match role with
  | Some role => ret role
  | None =>
      try (loadLocalMetadata roleName) (fun r =>
        let remote : M (Metadata TargetsType.t) :=
          do snapshot <- get (fun u => trustedmetadata.Snapshot (trusted u));
          match snapshot with
          | None => fail (errorString "trusted snapshot not set")
          | Some snapshot =>
              let metaInfo :=
                metaAt (SnapshotType.Meta (Signed snapshot)) (roleName ++ ".json") in
              let length := MetaFiles.Length metaInfo in
              do length <- get (fun u =>
                if decide (length ≠ 0) then config.TargetsMaxLength (cfg u) else length);
              do version <- get (fun u =>
                if RootType.ConsistentSnapshot (Signed (trustedmetadata.Root (trusted u)))
                then strconv.FormatInt (MetaFiles.Version metaInfo) else "");
              do data <- downloadMetadata roleName length version;
              do delegatedTargets <-
                update (UpdateDelegatedTargets ext data roleName parentName);
              do _ <- persistMetadata roleName data;
              ret delegatedTargets
          end in
        match r with
        | inr _ => remote
        | inl data =>
            try (update (UpdateDelegatedTargets ext data roleName parentName)) (fun r =>
              match r with
              | inr err => if isErrRepository err then remote else fail err
              | inl delegatedTargets => ret delegatedTargets
              end)
        end)
  end.

Definition Refresh : M unit :=
  do _ <- loadRoot;
  do _ <- loadTimestamp;
  do _ <- loadSnapshot;
  do _ <- loadTargets TARGETS ROOT;
  ret tt.

(** The children of [delegation] for the target, pushed on the stack:
    the body of [if targets.Signed.Delegations != nil].  The loop over the
    map of matching roles ends, by its [break], with its first iteration,
    which has emptied the stack. *)
Definition pushChildren (targetFilePath : string) (delegation : roleParentTuple)
    (delegations : Delegations.t) (delegationsToVisit : list roleParentTuple)
    (u : Updater World) : list roleParentTuple * Updater World :=
  let roles := GetRolesForTarget delegations targetFilePath in
  match call (fun w => let '(l, w') := mapRange ext roles w in (Ok l, w')) u with
  | (Ok ((child, terminating) :: _), u') =>
      let childRolesToVisit := [ {| Role := child; Parent := Role delegation |} ] in
      let delegationsToVisit : list roleParentTuple := [] in
      ((delegationsToVisit ++ reverseSlice childRolesToVisit)%list, u')
  | (_, u') =>
      let childRolesToVisit : list roleParentTuple := [] in
      ((delegationsToVisit ++ reverseSlice childRolesToVisit)%list, u')
  end.

(** The loop of [preOrderDepthFirstWalk]; [None] when [fuel] iterations
    did not end it. *)
Fixpoint preOrderDepthFirstWalk_loop (fuel : nat) (targetFilePath : string)
    (delegationsToVisit : list roleParentTuple) (visitedRoleNames : gset string)
    (u : Updater World) : option (outcome TargetFiles.t * Updater World) :=
  match fuel with
  | O => None
  | S fuel' =>
      if decide (Z.of_nat (size visitedRoleNames) <= config.MaxDelegations (cfg u)
                 /\ (0 < List.length delegationsToVisit)%nat) then
        match pop delegationsToVisit with
        | None => Some (Panic, u)
        | Some (delegation, delegationsToVisit) =>
            if decide (Role delegation ∈ visitedRoleNames) then
              preOrderDepthFirstWalk_loop fuel' targetFilePath delegationsToVisit
                visitedRoleNames u
            else
              match loadTargets (Role delegation) (Parent delegation) u with
              | (Ok targets, u) =>
                  match TargetsType.Targets (Signed targets) !! targetFilePath with
                  | Some target => Some (Ok target, u)
                  | None =>
                      let visitedRoleNames := {[Role delegation]} ∪ visitedRoleNames in
                      match TargetsType.Delegations (Signed targets) with
                      | Some delegations =>
                          let '(delegationsToVisit, u) :=
                            pushChildren targetFilePath delegation delegations
                              delegationsToVisit u in
                          preOrderDepthFirstWalk_loop fuel' targetFilePath delegationsToVisit
                            visitedRoleNames u
                      | None =>
                          preOrderDepthFirstWalk_loop fuel' targetFilePath delegationsToVisit
                            visitedRoleNames u
                      end
                  end
              | (Err e, u) => Some (Err e, u)
              | (Panic, u) => Some (Panic, u)
              end
        end
      else Some (Err (errorString ("target " ++ targetFilePath ++ " not found")), u)
  end.

Definition preOrderDepthFirstWalk (fuel : nat) (targetFilePath : string)
    (u : Updater World) : option (outcome TargetFiles.t * Updater World) :=
  preOrderDepthFirstWalk_loop fuel targetFilePath
    [ {| Role := TARGETS; Parent := ROOT |} ] ∅ u.

Definition GetTargetInfo (fuel : nat) (targetPath : string) (u : Updater World)
  : option (outcome TargetFiles.t * Updater World) :=
  match (if decide (trustedmetadata.Targets (trusted u) !! TARGETS = None)
         then Refresh u else (Ok tt, u)) with
  | (Ok _, u) => preOrderDepthFirstWalk fuel targetPath u
  | (Err e, u) => Some (Err e, u)
  | (Panic, u) => Some (Panic, u)
  end.

(** The roles [loadTargets] was called for, in a trace. *)
Definition loaded (evs : list event) : list string :=
  omap (fun e => match e with LoadTargets r _ => Some r | _ => None end) evs.

(** The requests made of the fetcher, in a trace. *)
Definition downloads (evs : list event) : list (string * Z) :=
  omap (fun e => match e with Download url n => Some (url, n) | _ => None end) evs.

(** A method that leaves the configuration as it is and calls
    [loadTargets] for no role. *)
Definition quiet {A} (c : M A) : Prop :=
  forall u,
    cfg (c u).2 = cfg u
    /\ exists evs, trace (c u).2 = (trace u ++ evs)%list /\ loaded evs = [].

(** A method that records nothing and leaves the configuration and the
    base URL as they are. *)
Definition steady {A} (c : M A) : Prop :=
  forall u,
    cfg (c u).2 = cfg u
    /\ metadataBaseUrl (c u).2 = metadataBaseUrl u
    /\ trace (c u).2 = trace u.

End Updater.

End updater.

(** ** Fixtures

    Instances of the parameters, to run the model on concrete documents
    and repositories. *)

Module fixture.

Import metadata.

(** Signature primitives: the public key of a key is its value (a key
    without a value does not convert, a nil key is a nil dereference), a
    verifier is the public key, the canonical encoding of a document is its
    type tag, and the signature of a payload under a key is the key
    followed by the payload. *)

Definition Key_ToPublicKey (k : option Key.t) : outcome string :=
  match k with
  | None => Panic
  | Some k => if decide (Key.Value k = "") then Err ErrValue else Ok (Key.Value k)
  end.

Definition LoadVerifier (key : string) (hash : crypto_Hash) : outcome string := Ok key.

Definition EncodeCanonical (s : AnySigned) : outcome bytes :=
  Ok (String.list_byte_of_string
        match s with
        | SignedRoot s => RootType.Type_ s
        | SignedSnapshot s => SnapshotType.Type_ s
        | SignedTimestamp s => TimestampType.Type_ s
        | SignedTargets s => TargetsType.Type_ s
        end).

Definition sign (key : string) (payload : bytes) : bytes :=
  String.list_byte_of_string key ++ payload.

Definition VerifySignature (verifier : string) (sig payload : bytes) : option error :=
  if decide (sig = sign verifier payload) then None
  else Some (errorString "invalid signature").

(** A root whose role [root] lists the key ids [ids] with threshold 1,
    with the keys [keys] and the signatures [sigs]. *)
Definition rootWith (ids : list string) (keys : gmap string Key.t)
    (sigs : list Signature.t) : Metadata RootType.t :=
  {| Signed := {|
       RootType.Type_ := ROOT;
       RootType.SpecVersion := SPECIFICATION_VERSION;
       RootType.ConsistentSnapshot := true;
       RootType.Version := 1;
       RootType.Expires := 0;
       RootType.Keys := keys;
       RootType.Roles :=
         {[ ROOT := Some {| Role.KeyIDs := ids; Role.Threshold := 1 |} ]} |};
     Signatures := sigs |}.

Definition key1 : Key.t :=
  {| Key.Type_ := "ed25519"; Key.Scheme := "ed25519"; Key.Value := "K1" |}.

(** A codec for the documents the constructors build at the instant 0:
    it writes a document as its type tag, and reads a tag as the document
    of that type. *)
Definition json_Marshal (T : Roles) (meta : Metadata (typeOf T)) : outcome bytes :=
  Ok (String.list_byte_of_string (signedType (signedOf (toAny meta)))).

Definition json_parse (data : bytes) : option json :=
  Some (JObject [("signed", JObject [("_type", JString (String.string_of_list_byte data))])]).

Definition json_Unmarshal (T : Roles) (data : bytes) : outcome (Metadata (typeOf T)) :=
  if decide (data = String.list_byte_of_string (signedType (signedOf (toAny (New T 0 [])))))
  then Ok (New T 0 [])
  else Err (errorString "json: cannot unmarshal").

(** An in-memory repository for the updater: no local file; a server
    [server]; a trusted set that takes any root as the next version of the
    one it holds, and takes for a role the targets document that the table
    [repo] holds for it; a [range] that visits a map in the order [order]
    makes of its entries. *)
Definition nextRoot (root : Metadata RootType.t) : Metadata RootType.t :=
  {| Signed := {|
       RootType.Type_ := RootType.Type_ (Signed root);
       RootType.SpecVersion := RootType.SpecVersion (Signed root);
       RootType.ConsistentSnapshot := RootType.ConsistentSnapshot (Signed root);
       RootType.Version := RootType.Version (Signed root) + 1;
       RootType.Expires := RootType.Expires (Signed root);
       RootType.Keys := RootType.Keys (Signed root);
       RootType.Roles := RootType.Roles (Signed root) |};
     Signatures := Signatures root |}.

Definition externals (server : string -> Z -> outcome bytes)
    (repo : gmap string (Metadata TargetsType.t))
    (order : list (string * bool) -> list (string * bool)) : updater.Externals unit :=
  {| updater.os_ReadFile := fun name w => (Err (errorString "no such file"), w);
     updater.os_Getwd := fun w => (Ok ".", w);
     updater.os_CreateTemp := fun dir pattern w => (Ok (dir ++ "/" ++ pattern), w);
     updater.os_WriteFile := fun name data w => (Ok tt, w);
     updater.os_Remove := fun name w => (Ok tt, w);
     updater.os_Rename := fun old new w => (Ok tt, w);
     updater.DownloadFile := fun url length w => (server url length, w);
     updater.UpdateRoot := fun data t w =>
       let root := nextRoot (trustedmetadata.Root t) in
       (Ok root,
        {| trustedmetadata.Root := root;
           trustedmetadata.Snapshot := trustedmetadata.Snapshot t;
           trustedmetadata.Timestamp := trustedmetadata.Timestamp t;
           trustedmetadata.Targets := trustedmetadata.Targets t |});
     updater.UpdateTimestamp := fun data t w => (Err ErrRuntime, t);
     updater.UpdateSnapshot := fun data trusted t w => (Err ErrRuntime, t);
     updater.UpdateDelegatedTargets := fun data roleName parentName t w =>
       match repo !! roleName with
       | Some doc =>
           (Ok doc,
            {| trustedmetadata.Root := trustedmetadata.Root t;
               trustedmetadata.Snapshot := trustedmetadata.Snapshot t;
               trustedmetadata.Timestamp := trustedmetadata.Timestamp t;
               trustedmetadata.Targets := <[roleName := doc]> (trustedmetadata.Targets t) |})
       | None => (Err ErrRepository, t)
       end;
     updater.mapRange := fun roles w => (order (map_to_list roles), w) |}.

(** A server that has every file: it answers with the URL asked. *)
Definition serveAll (url : string) (length : Z) : outcome bytes :=
  Ok (String.list_byte_of_string url).

(** The configuration with the limits of section 4.5 and length caps. *)
Definition cfg (MaxRootRotations MaxDelegations : Z) : config.UpdaterConfig :=
  {| config.MaxRootRotations := MaxRootRotations;
     config.MaxDelegations := MaxDelegations;
     config.RootMaxLength := 512000;
     config.TimestampMaxLength := 16384;
     config.SnapshotMaxLength := 2000000;
     config.TargetsMaxLength := 5000000;
     config.PrefixTargetsWithHash := true |}.

(** A snapshot that records, for the file of each role of [lengths], the
    version 1 and the length given. *)
Definition snapshotOf (lengths : list (string * Z)) : Metadata SnapshotType.t :=
  {| Signed := {|
       SnapshotType.Type_ := SNAPSHOT;
       SnapshotType.SpecVersion := SPECIFICATION_VERSION;
       SnapshotType.Version := 1;
       SnapshotType.Expires := 0;
       SnapshotType.Meta :=
         list_to_map
           (map (fun '(role, length) =>
                   (role ++ ".json",
                    {| MetaFiles.Length := length; MetaFiles.Hashes := ∅;
                       MetaFiles.Version := 1 |})) lengths) |};
     Signatures := [] |}.

(** A timestamp that records the version 1 and the length [length] for
    the snapshot file. *)
Definition timestampOf (length : Z) : Metadata TimestampType.t :=
  {| Signed := {|
       TimestampType.Type_ := TIMESTAMP;
       TimestampType.SpecVersion := SPECIFICATION_VERSION;
       TimestampType.Version := 1;
       TimestampType.Expires := 0;
       TimestampType.Meta :=
         {[ "snapshot.json" :=
              {| MetaFiles.Length := length; MetaFiles.Hashes := ∅;
                 MetaFiles.Version := 1 |} ]} |};
     Signatures := [] |}.

(** An updater on the root of the constructor, with the timestamp
    [timestamp], the snapshot [snapshot] and the targets documents
    [targets] in its trusted set. *)
Definition updaterOf (c : config.UpdaterConfig)
    (timestamp : option (Metadata TimestampType.t))
    (snapshot : option (Metadata SnapshotType.t))
    (targets : gmap string (Metadata TargetsType.t)) : updater.Updater unit :=
  {| updater.metadataDir := "metadata";
     updater.metadataBaseUrl := "https://repo.example/metadata/";
     updater.targetDir := "targets";
     updater.targetBaseUrl := "https://repo.example/targets/";
     updater.trusted :=
       {| trustedmetadata.Root := Root 0 [];
          trustedmetadata.Snapshot := snapshot;
          trustedmetadata.Timestamp := timestamp;
          trustedmetadata.Targets := targets |};
     updater.cfg := c;
     updater.world := tt;
     updater.trace := [] |}.

(** A targets document with the target files [files] and the delegated
    roles [roles]. *)
Definition targetsDoc (files : list (string * TargetFiles.t))
    (roles : option (list DelegatedRole.t)) : Metadata TargetsType.t :=
  {| Signed := {|
       TargetsType.Type_ := TARGETS;
       TargetsType.SpecVersion := SPECIFICATION_VERSION;
       TargetsType.Version := 1;
       TargetsType.Expires := 0;
       TargetsType.Targets := list_to_map files;
       TargetsType.Delegations :=
         (fun roles => {| Delegations.Keys := ∅; Delegations.Roles := roles |}) <$> roles |};
     Signatures := [] |}.

(** The delegation of the paths [paths] to the role [name]. *)
Definition delegate (name : string) (paths : list string) (terminating : bool)
  : DelegatedRole.t :=
  {| DelegatedRole.Name := name;
     DelegatedRole.KeyIDs := [];
     DelegatedRole.Threshold := 1;
     DelegatedRole.Terminating := terminating;
     DelegatedRole.Paths := paths;
     DelegatedRole.PathHashPrefixes := [] |}.

Definition file (path : string) (length : Z) : string * TargetFiles.t :=
  (path, {| TargetFiles.Length := length; TargetFiles.Hashes := ∅; TargetFiles.Path := path |}).

(** The order of a [range] that visits the role [name] first. *)
Definition first (name : string) (entries : list (string * bool)) : list (string * bool) :=
  (filter (fun e => e.1 = name) entries ++ filter (fun e => e.1 ≠ name) entries)%list.

(** A server that has the root versions below [n] and answers the status
    [status] for any other file. *)
Definition serveRootsBelow (n : Z) (status : Z) (url : string) (length : Z) : outcome bytes :=
  if decide (url ∈ map (fun v => "https://repo.example/metadata/" ++ pretty v ++ ".root.json")
                       (seqZ 1 (n - 1)))
  then Ok (String.list_byte_of_string url)
  else Err (ErrDownloadHTTP status).

(** Two delegations of the same path: [targets] delegates [dir1/foo] to
    [role-A], then to [role-B], and lists no target itself. *)
Definition twoRoles (terminating : bool) : Metadata TargetsType.t :=
  targetsDoc [] (Some [delegate "role-A" ["dir1/foo"] terminating;
                       delegate "role-B" ["dir1/foo"] false]).

(** A chain of delegations of [dir1/foo]: [targets] delegates to [d1],
    [d1] to [d2], and so on up to [d(n+1)]; no role lists the target. *)
Definition chainName (i : nat) : string := "d" ++ pretty i.

Definition chainTop : Metadata TargetsType.t :=
  targetsDoc [] (Some [delegate (chainName 1) ["dir1/foo"] false]).

Definition chainRepo (n : nat) : gmap string (Metadata TargetsType.t) :=
  list_to_map
    (map (fun i => (chainName i,
                    targetsDoc [] (Some [delegate (chainName (S i)) ["dir1/foo"] false])))
         (seq 1 n)).

Definition chainSnapshot (n : nat) : Metadata SnapshotType.t :=
  snapshotOf (map (fun i => (chainName i, 0)) (seq 1 n)).

(** A cycle of delegations of [dir1/foo]: [targets] delegates to [d1] and
    [d1] back to [targets]; no role lists the target. *)
Definition cycleRepo : gmap string (Metadata TargetsType.t) :=
  {[ chainName 1 := targetsDoc [] (Some [delegate TARGETS ["dir1/foo"] false]) ]}.

End fixture.

(** ** encoding/hex, the byte codec

    [Encode] writes what [hex.EncodeToString] returns as a string;
    [Decode] reads two digits a byte, in either case, and fails on any
    other byte and on an odd length. *)

Module encoding_hex.

Definition Encode (src : bytes) : bytes :=
  flat_map (fun v =>
              let n := Byte.to_N v in
              [byte_of_ascii (hex.digit (n / 16)); byte_of_ascii (hex.digit (n mod 16))])
           src.

Definition fromHexChar (c : byte) : option N :=
  let n := Byte.to_N c in
  if ((48 <=? n) && (n <=? 57))%N then Some (n - 48)%N
  else if ((97 <=? n) && (n <=? 102))%N then Some (n - 87)%N
  else if ((65 <=? n) && (n <=? 70))%N then Some (n - 55)%N
  else None.

Definition InvalidByteError : error := errorString "encoding/hex: invalid byte".
Definition ErrLength : error := errorString "encoding/hex: odd length hex string".

Fixpoint Decode (src : bytes) : outcome bytes :=
  match src with
  | [] => Ok []
  | [p] =>
      match fromHexChar p with
      | None => Err InvalidByteError
      | Some _ => Err ErrLength
      end
  | p :: q :: rest =>
      match fromHexChar p, fromHexChar q with
      | Some a, Some b =>
          let? r := Decode rest in
          Ok (default Byte.x00 (Byte.of_N (a * 16 + b)) :: r)
      | _, _ => Err InvalidByteError
      end
  end.

End encoding_hex.

(** ** The helpers file: HexBytes *)

Module HexBytes.

Definition quote : byte := Byte.x22.

(** [data[1 : len(data)-1]] is decoded into a slice of the decoded
    length. *)
Definition UnmarshalJSON (data : bytes) : outcome bytes :=
  if (List.length data <? 2)%nat
     || negb (List.length data mod 2 =? 0)%nat
     || negb (bool_decide (head data = Some quote))
     || negb (bool_decide (last data = Some quote))
  then Err (errorString "tuf: invalid JSON hex bytes")
  else encoding_hex.Decode (take (List.length data - 2) (drop 1 data)).

Definition MarshalJSON (b : bytes) : bytes :=
  quote :: encoding_hex.Encode b ++ [quote].

Definition String (b : bytes) : string := hex.EncodeToString b.

End HexBytes.

(** ** Package metadata: target files from bytes *)

Module targetfiles.

Import metadata.

Section Hashes.

Variable sha256 sha512 : bytes -> bytes.

(** The loop of [TargetFiles.FromBytes] over the names of the hash
    algorithms: [None] at the first name that is neither [sha256] nor
    [sha512]. *)
Fixpoint FromBytes_range (data : bytes) (hashes : list string)
    (Hashes : gmap string bytes) : option (gmap string bytes) :=
  match hashes with
  | [] => Some Hashes
  | v :: rest =>
      if decide (v = "sha256") then FromBytes_range data rest (<[v := sha256 data]> Hashes)
      else if decide (v = "sha512") then FromBytes_range data rest (<[v := sha512 data]> Hashes)
      else None
  end.

Definition FromBytes (localPath : string) (data : bytes) (hashes : list string)
  : outcome TargetFiles.t :=
  let hashes := if decide (List.length hashes = 0%nat) then ["sha256"] else hashes in
  let len := Z.of_nat (List.length data) in
  match FromBytes_range data hashes ∅ with
  | None => Err ErrValue
  | Some Hashes =>
      Ok {| TargetFiles.Length := len; TargetFiles.Hashes := Hashes;
            TargetFiles.Path := localPath |}
  end.

End Hashes.

End targetfiles.

(** ** Package metadata: the keys of the roles

    [AddKey] and [RevokeKey] update a document in place; here they return
    the document they leave with their result.  The maps of the document
    are allocated and the roles of a root are distinct objects, as the
    constructors and the decoder make them; a key given to [AddKey] is not
    nil. *)

Module rolekeys.

Import metadata.

Section Keys.

(** [Key.ID], the identifier of a key, and the order in which a [range]
    visits the roles of a root. *)
Variable Key_ID : Key.t -> string.
Variable rangeRoles : gmap string (option Role.t) -> list (string * option Role.t).

Definition withKeyIDs (r : Role.t) (ids : list string) : Role.t :=
  {| Role.KeyIDs := ids; Role.Threshold := Role.Threshold r |}.

Definition withKeysRoles (signed : RootType.t) (keys : gmap string Key.t)
    (roles : gmap string (option Role.t)) : RootType.t :=
  {| RootType.Type_ := RootType.Type_ signed;
     RootType.SpecVersion := RootType.SpecVersion signed;
     RootType.ConsistentSnapshot := RootType.ConsistentSnapshot signed;
     RootType.Version := RootType.Version signed;
     RootType.Expires := RootType.Expires signed;
     RootType.Keys := keys;
     RootType.Roles := roles |}.

Definition RootType_AddKey (signed : RootType.t) (key : Key.t) (role : string)
  : outcome unit * RootType.t :=
  match RootType.Roles signed !! role with
  | None => (Err ErrValue, signed)
  | Some None => (Panic, signed)
  | Some (Some r) =>
      let roles :=
        if decide (Key_ID key ∉ Role.KeyIDs r)
        then <[role := Some (withKeyIDs r (Role.KeyIDs r ++ [Key_ID key]))]>
               (RootType.Roles signed)
        else RootType.Roles signed in
      (Ok tt, withKeysRoles signed (<[Key_ID key := key]> (RootType.Keys signed)) roles)
  end.

(** The loop [for _, r := range signed.Roles] of [RevokeKey]: whether a
    role visited lists the key; a role bound to nil is a nil
    dereference. *)
Fixpoint usedBy (keyID : string) (roles : list (string * option Role.t)) : outcome bool :=
  match roles with
  | [] => Ok false
  | (_, None) :: _ => Panic
  | (_, Some r) :: rest =>
      if decide (keyID ∈ Role.KeyIDs r) then Ok true else usedBy keyID rest
  end.

Definition RootType_RevokeKey (signed : RootType.t) (keyID role : string)
  : outcome unit * RootType.t :=
  match RootType.Roles signed !! role with
  | None => (Err ErrValue, signed)
  | Some None => (Panic, signed)
  | Some (Some r) =>
      if decide (keyID ∉ Role.KeyIDs r) then (Err ErrValue, signed)
      else
        let filteredKeyIDs := filter (fun k => k ≠ keyID) (Role.KeyIDs r) in
        let signed :=
          withKeysRoles signed (RootType.Keys signed)
            (<[role := Some (withKeyIDs r filteredKeyIDs)]> (RootType.Roles signed)) in
        match usedBy keyID (rangeRoles (RootType.Roles signed)) with
        | Ok true => (Ok tt, signed)
        | Ok false =>
            (Ok tt, withKeysRoles signed (delete keyID (RootType.Keys signed))
                      (RootType.Roles signed))
        | Err e => (Err e, signed)
        | Panic => (Panic, signed)
        end
  end.

Definition withDelegatedKeyIDs (d : DelegatedRole.t) (ids : list string) : DelegatedRole.t :=
  {| DelegatedRole.Name := DelegatedRole.Name d;
     DelegatedRole.KeyIDs := ids;
     DelegatedRole.Threshold := DelegatedRole.Threshold d;
     DelegatedRole.Terminating := DelegatedRole.Terminating d;
     DelegatedRole.Paths := DelegatedRole.Paths d;
     DelegatedRole.PathHashPrefixes := DelegatedRole.PathHashPrefixes d |}.

Definition withDelegations (signed : TargetsType.t) (d : Delegations.t) : TargetsType.t :=
  {| TargetsType.Type_ := TargetsType.Type_ signed;
     TargetsType.SpecVersion := TargetsType.SpecVersion signed;
     TargetsType.Version := TargetsType.Version signed;
     TargetsType.Expires := TargetsType.Expires signed;
     TargetsType.Targets := TargetsType.Targets signed;
     TargetsType.Delegations := Some d |}.

(** The loop of [TargetsType.AddKey] over the delegated roles: the roles
    with the key added to the first role of the name that does not list
    it, [None] when the loop ends without one. *)
Fixpoint AddKey_range (id role : string) (roles : list DelegatedRole.t)
  : option (list DelegatedRole.t) :=
  match roles with
  | [] => None
  | d :: rest =>
      if decide (DelegatedRole.Name d = role) then
        if decide (id ∉ DelegatedRole.KeyIDs d)
        then Some (withDelegatedKeyIDs d (DelegatedRole.KeyIDs d ++ [id]) :: rest)
        else (fun r => d :: r) <$> AddKey_range id role rest
      else (fun r => d :: r) <$> AddKey_range id role rest
  end.

Definition TargetsType_AddKey (signed : TargetsType.t) (key : Key.t) (role : string)
  : outcome unit * TargetsType.t :=
  match TargetsType.Delegations signed with
  | None => (Err ErrValue, signed)
  | Some d =>
      match AddKey_range (Key_ID key) role (Delegations.Roles d) with
      | Some roles =>
          (Ok tt, withDelegations signed
                    {| Delegations.Keys := <[Key_ID key := key]> (Delegations.Keys d);
                       Delegations.Roles := roles |})
      | None => (Err ErrValue, signed)
      end
  end.

(** The loop of [TargetsType.RevokeKey] up to its first role of the name:
    the roles with the key taken from that role, or the error of a role
    that does not list the key, or of no role of the name. *)
Fixpoint RevokeKey_range (keyID role : string) (roles : list DelegatedRole.t)
  : outcome (list DelegatedRole.t) :=
  match roles with
  | [] => Err ErrValue
  | d :: rest =>
      if decide (DelegatedRole.Name d = role) then
        if decide (keyID ∉ DelegatedRole.KeyIDs d) then Err ErrValue
        else Ok (withDelegatedKeyIDs d (filter (fun k => k ≠ keyID) (DelegatedRole.KeyIDs d))
                 :: rest)
      else
        let? r := RevokeKey_range keyID role rest in
        Ok (d :: r)
  end.

Definition TargetsType_RevokeKey (signed : TargetsType.t) (keyID role : string)
  : outcome unit * TargetsType.t :=
  match TargetsType.Delegations signed with
  | None => (Err ErrValue, signed)
  | Some d =>
      match RevokeKey_range keyID role (Delegations.Roles d) with
      | Ok roles =>
          if existsb (fun r => bool_decide (keyID ∈ DelegatedRole.KeyIDs r)) roles
          then (Ok tt, withDelegations signed
                         {| Delegations.Keys := Delegations.Keys d;
                            Delegations.Roles := roles |})
          else (Ok tt, withDelegations signed
                         {| Delegations.Keys := delete keyID (Delegations.Keys d);
                            Delegations.Roles := roles |})
      | Err e => (Err e, signed)
      | Panic => (Panic, signed)
      end
  end.

(** Every key id a role of the root lists has its key in the key map. *)
Definition keysListed (signed : RootType.t) : Prop :=
  forall name r id,
    RootType.Roles signed !! name = Some (Some r) ->
    id ∈ Role.KeyIDs r -> is_Some (RootType.Keys signed !! id).

(** The same of the delegations of a targets document. *)
Definition delegatedKeysListed (signed : TargetsType.t) : Prop :=
  forall d r id,
    TargetsType.Delegations signed = Some d ->
    r ∈ Delegations.Roles d ->
    id ∈ DelegatedRole.KeyIDs r -> is_Some (Delegations.Keys d !! id).

End Keys.

End rolekeys.

(** ** Package metadata: signing *)

Module signing.

Import metadata.

Section Sign.

(** The canonical encoder, the two methods of a [signature.Signer], the
    conversion of a public key to a key of the package, and [Key.ID].  A
    signer is an interface: its methods may keep a state and draw on a
    source of randomness, so they run over a state [State], and two calls
    with the same message need not return the same bytes. *)
Context {Signer PublicKey State : Type}.
Variable EncodeCanonical : AnySigned -> outcome bytes.
Variable SignMessage : Signer -> bytes -> State -> outcome bytes * State.
Variable Signer_PublicKey : Signer -> State -> outcome PublicKey * State.
Variable KeyFromPublicKey : PublicKey -> outcome Key.t.
Variable Key_ID : Key.t -> string.

(** [Sign] returns the new signature, and leaves the document with the
    signature appended; a call that fails leaves the document as it
    was. *)
Definition Sign (T : Roles) (meta : Metadata (typeOf T)) (signer : Signer) (st : State)
  : outcome (Signature.t * Metadata (typeOf T)) * State :=
  match EncodeCanonical (signedOf (toAny meta)) with
  | Err e => (Err e, st)
  | Panic => (Panic, st)
  | Ok payload =>
      match SignMessage signer payload st with
      | (Err _, st) => (Err ErrUnsignedMetadata, st)
      | (Panic, st) => (Panic, st)
      | (Ok sb, st) =>
          match Signer_PublicKey signer st with
          | (Err e, st) => (Err e, st)
          | (Panic, st) => (Panic, st)
          | (Ok publ, st) =>
              match KeyFromPublicKey publ with
              | Err e => (Err e, st)
              | Panic => (Panic, st)
              | Ok key =>
                  let sig := {| Signature.KeyID := Key_ID key; Signature.Signature := sb |} in
                  (Ok (sig, {| Signed := Signed meta;
                               Signatures := (Signatures meta ++ [sig])%list |}), st)
              end
          end
      end
  end.

End Sign.

End signing.

(** ** Package strings *)

Module strings.

Definition HasSuffix (s suffix : string) : bool :=
  (String.length suffix <=? String.length s)%nat
  && bool_decide (String.substring (String.length s - String.length suffix)
                    (String.length suffix) s = suffix).

(** [Cut] around the first occurrence of a separator of one byte. *)
Fixpoint Cut (s : string) (sep : ascii) : string * string * bool :=
  match s with
  | EmptyString => (EmptyString, EmptyString, false)
  | String c s' =>
      if decide (c = sep) then (EmptyString, s', true)
      else let '(before, after, found) := Cut s' sep in (String c before, after, found)
  end.

End strings.

(** ** Package updater: target files *)

Module targets.

Import metadata updater.

Definition ensureTrailingSlash (url : string) : string :=
  if strings.HasSuffix url "/" then url else url ++ "/".

Section Targets.

Context {World : Type}.
Variable ext : Externals World.

(** The digests, [url.JoinPath], and the order in which a [range] visits
    the hashes of a target file. *)
Variable sha256 sha512 : bytes -> bytes.
Variable url_JoinPath : string -> string -> outcome string.
Variable rangeHashes : gmap string bytes -> list (string * bytes).

Local Notation "'do' x <- c ; k" := (bind c (fun x => k))
  (at level 10, x name, c at level 100, k at level 200).

Definition generateTargetFilePath (tf : TargetFiles.t) : M string :=
  do dir <- get targetDir;
  if decide (dir = "") then fail ErrValue
  else fun u : Updater World => (url_JoinPath dir (url.QueryEscape (TargetFiles.Path tf)), u).

(** [DownloadTarget], which records the request in the trace before it
    calls the fetcher. *)
Definition DownloadTarget (targetFile : TargetFiles.t) (filePath targetBaseURL : string)
  : M string :=
  do filePath <-
    (if decide (filePath = "") then generateTargetFilePath targetFile else ret filePath);
  do targetBaseURL <-
    (if decide (targetBaseURL = "") then
       do base <- get targetBaseUrl;
       if decide (base = "") then fail ErrValue else ret base
     else ret (ensureTrailingSlash targetBaseURL));
  do consistentSnapshot <- get (fun u =>
    RootType.ConsistentSnapshot (Signed (trustedmetadata.Root (trusted u))));
  do prefix <- get (fun u => config.PrefixTargetsWithHash (cfg u));
  do targetFilePath <-
    (if consistentSnapshot && prefix then
       let hashes :=
         match rangeHashes (TargetFiles.Hashes targetFile) with
         | (_, v) :: _ => hex.EncodeToString v
         | [] => ""
         end in
       match strings.Cut (TargetFiles.Path targetFile) "/" with
       | (dirName, baseName, true) => ret (dirName ++ "/" ++ hashes ++ "." ++ baseName)
       | (_, _, false) => fail ErrValue
       end
     else ret (TargetFiles.Path targetFile));
  let fullURL := targetBaseURL ++ targetFilePath in
  do _ <- log (Download fullURL (TargetFiles.Length targetFile));
  do data <- call (DownloadFile ext fullURL (TargetFiles.Length targetFile));
  match TargetFiles_VerifyLengthHashes sha256 sha512 targetFile data with
  | Some err => fail err
  | None =>
      do _ <- call (os_WriteFile ext filePath data);
      ret filePath
  end.

Definition FindCachedTarget (targetFile : TargetFiles.t) (filePath : string) : M string :=
  do targetFilePath <-
    (if decide (filePath = "") then generateTargetFilePath targetFile else ret filePath);
  do data <- readFile ext targetFilePath;
  match TargetFiles_VerifyLengthHashes sha256 sha512 targetFile data with
  | Some err => fail err
  | None => ret targetFilePath
  end.

End Targets.

End targets.

(** ** Fixtures for signing

    A signer is the value of its key, and the id of a key is its value;
    the state of the signers counts their signatures.  One signer signs as
    [fixture.sign] does; the other adds a salt it takes from the state, so
    that it never signs twice alike. *)

Module signers.

Import metadata.

Definition SignMessage (signer : string) (payload : bytes) (st : nat)
  : outcome bytes * nat :=
  (Ok (fixture.sign signer payload), S st).

Definition SignMessage_salted (signer : string) (payload : bytes) (st : nat)
  : outcome bytes * nat :=
  (Ok (fixture.sign signer payload ++ [default Byte.x00 (Byte.of_nat (st mod 256))])%list,
   S st).

Definition Signer_PublicKey (signer : string) (st : nat) : outcome string * nat :=
  (Ok signer, st).

Definition KeyFromPublicKey (publ : string) : outcome Key.t :=
  Ok {| Key.Type_ := KeyTypeEd25519; Key.Scheme := "ed25519"; Key.Value := publ |}.

Definition Key_ID (key : Key.t) : string := Key.Value key.

End signers.

(** ** States of the updater *)

Module state.

Import updater.

(** The updater with another world, and with another trusted set. *)
Definition setWorld {World} (u : Updater World) (w : World) : Updater World :=
  {| metadataDir := metadataDir u; metadataBaseUrl := metadataBaseUrl u;
     targetDir := targetDir u; targetBaseUrl := targetBaseUrl u;
     trusted := trusted u; cfg := cfg u; world := w; trace := trace u |}.

Definition setTrusted {World} (u : Updater World) (t : trustedmetadata.TrustedMetadata)
  : Updater World :=
  {| metadataDir := metadataDir u; metadataBaseUrl := metadataBaseUrl u;
     targetDir := targetDir u; targetBaseUrl := targetBaseUrl u;
     trusted := t; cfg := cfg u; world := world u; trace := trace u |}.

(** The updater with one more event in its trace. *)
Definition record {World} (u : Updater World) (e : event) : Updater World :=
  {| metadataDir := metadataDir u; metadataBaseUrl := metadataBaseUrl u;
     targetDir := targetDir u; targetBaseUrl := targetBaseUrl u;
     trusted := trusted u; cfg := cfg u; world := world u;
     trace := (trace u ++ [e])%list |}.

End state.

(** * Theorems *)

(** ** Integrity checks *)

Lemma verifyHashes_range_None sha256 sha512 data l :
  metadata.verifyHashes_range sha256 sha512 data l = None <->
  Forall (fun kv => metadata.verifyHash sha256 sha512 data kv.1 kv.2 = None) l.
Proof.
  induction l as [|[k v] l IH]; simpl.
  - split; [constructor | reflexivity].
  - destruct (metadata.verifyHash sha256 sha512 data k v) eqn:E.
    + split; [discriminate | intros H; inversion H; simpl in *; congruence].
    + rewrite IH. split; [intros H; constructor; auto | intros H; inversion H; auto].
Qed.

Lemma verifyHash_kind sha256 sha512 data k v e :
  metadata.verifyHash sha256 sha512 data k v = Some e -> e = ErrLengthOrHashMismatch.
Proof.
  unfold metadata.verifyHash. repeat case_decide; congruence.
Qed.

Lemma verifyHashes_range_kind sha256 sha512 data l e :
  metadata.verifyHashes_range sha256 sha512 data l = Some e -> e = ErrLengthOrHashMismatch.
Proof.
  induction l as [|[k v] l IH]; simpl; [discriminate|].
  destruct (metadata.verifyHash sha256 sha512 data k v) eqn:E; [|exact IH].
  intros [= <-]. eapply verifyHash_kind; eauto.
Qed.

(** The order in which the entries of the map are visited does not change
    the result of [verifyHashes]. *)
Lemma verifyHashes_any_order sha256 sha512 data (hashes : gmap string bytes) l :
  l ≡ₚ map_to_list hashes ->
  metadata.verifyHashes_range sha256 sha512 data l
  = metadata.verifyHashes sha256 sha512 data hashes.
Proof.
  intros Hp. unfold metadata.verifyHashes.
  destruct (metadata.verifyHashes_range sha256 sha512 data l) as [e|] eqn:E1;
    destruct (metadata.verifyHashes_range sha256 sha512 data (map_to_list hashes)) as [e'|] eqn:E2.
  - apply verifyHashes_range_kind in E1, E2. congruence.
  - apply verifyHashes_range_None in E2. rewrite <- Hp in E2.
    apply verifyHashes_range_None in E2. congruence.
  - apply verifyHashes_range_None in E1. rewrite Hp in E1.
    apply verifyHashes_range_None in E1. congruence.
  - reflexivity.
Qed.

(** C8. [verifyLength] of the metadata package fails, with
    [ErrLengthOrHashMismatch], exactly when the number of bytes of the data
    differs from the expected length, and returns no error exactly when
    they are equal; the [verifyLength] of the helpers file never fails. *)
Theorem verifyLength_iff (data : bytes) (length : Z) :
  (metadata.verifyLength data length = Some ErrLengthOrHashMismatch
     <-> Z.of_nat (List.length data) ≠ length)
  /\ (metadata.verifyLength data length = None
     <-> Z.of_nat (List.length data) = length)
  /\ helpers.verifyLength data length = None.
Proof.
  unfold metadata.verifyLength. split; [|split]; [| |reflexivity];
    case_decide; split; intros; try congruence; try lia.
Qed.

(** C3 (as amended).  With an empty [Hashes] map neither
    [VerifyLengthHashes] checks a hash: for a [MetaFiles] the call comes
    down to the length check, made when the recorded length is not zero;
    for a [TargetFiles] it comes down to the length check, always made. *)
Theorem VerifyLengthHashes_empty_hashes (sha256 sha512 : bytes -> bytes) (data : bytes) :
  (forall length version,
      metadata.MetaFiles_VerifyLengthHashes sha256 sha512
        {| metadata.MetaFiles.Length := length;
           metadata.MetaFiles.Hashes := ∅;
           metadata.MetaFiles.Version := version |} data
      = if decide (length ≠ 0) then metadata.verifyLength data length else None)
  /\ (forall length path,
      metadata.TargetFiles_VerifyLengthHashes sha256 sha512
        {| metadata.TargetFiles.Length := length;
           metadata.TargetFiles.Hashes := ∅;
           metadata.TargetFiles.Path := path |} data
      = metadata.verifyLength data length).
Proof.
  split; intros.
  - unfold metadata.MetaFiles_VerifyLengthHashes; simpl.
    rewrite map_size_empty. reflexivity.
  - unfold metadata.TargetFiles_VerifyLengthHashes, metadata.verifyHashes; simpl.
    rewrite map_to_list_empty. reflexivity.
Qed.

(** C3, the claim as stated fails: the [TargetFiles] of the constructor
    [TargetFile] has no hash, and its [VerifyLengthHashes] accepts the empty
    data, whatever the hash functions. *)
Lemma TargetFiles_VerifyLengthHashes_no_hash_accepted :
  metadata.TargetFiles.Hashes metadata.TargetFile = ∅
  /\ (forall sha256 sha512 : bytes -> bytes,
        metadata.TargetFiles_VerifyLengthHashes sha256 sha512 metadata.TargetFile [] = None).
Proof.
  split; [reflexivity|]. intros sha256 sha512.
  unfold metadata.TargetFiles_VerifyLengthHashes, metadata.verifyHashes, metadata.TargetFile.
  simpl. rewrite map_to_list_empty. reflexivity.
Qed.

(** ** Delegated paths *)

Lemma IsDelegatedPath_hash_prefixes role targetFilepath :
  metadata.DelegatedRole.PathHashPrefixes role ≠ [] ->
  metadata.IsDelegatedPath role targetFilepath = (false, None).
Proof.
  intros H. unfold metadata.IsDelegatedPath.
  destruct (metadata.DelegatedRole.PathHashPrefixes role); [congruence|].
  destruct (decide _) as [|Hn]; [reflexivity | simpl in Hn; lia].
Qed.

(** What [IsDelegatedPath] computes for a role with paths: the match of
    the first pattern only, with the target path in the place of the
    pattern. *)
Lemma IsDelegatedPath_paths role targetFilepath pathPattern rest :
  metadata.DelegatedRole.PathHashPrefixes role = [] ->
  metadata.DelegatedRole.Paths role = pathPattern :: rest ->
  metadata.IsDelegatedPath role targetFilepath = filepath.Match targetFilepath pathPattern.
Proof.
  intros H1 H2. unfold metadata.IsDelegatedPath. rewrite H1, H2.
  destruct (decide _) as [Hn|_]; [simpl in Hn; lia|].
  destruct (decide _) as [_|Hn]; [reflexivity | simpl in Hn; lia].
Qed.

(** C5, the code at two inputs where it departs from the claim.  A role
    with the paths [a] and [b] is not found to be delegated the target [b],
    although its second pattern matches: the loop returns on the first
    pattern.  A role with the path [dir1/*] is not found to be delegated
    the target [dir1/foo], although the pattern matches the target: the
    target is passed as the pattern.  A role with path hash prefixes
    matches nothing. *)
Theorem IsDelegatedPath_failing_inputs :
  let role paths prefixes :=
    {| metadata.DelegatedRole.Name := "role-A";
       metadata.DelegatedRole.KeyIDs := [];
       metadata.DelegatedRole.Threshold := 1;
       metadata.DelegatedRole.Terminating := false;
       metadata.DelegatedRole.Paths := paths;
       metadata.DelegatedRole.PathHashPrefixes := prefixes |} in
  (metadata.IsDelegatedPath (role ["a"; "b"] []) "b" = (false, None)
   /\ filepath.Match "b" "b" = (true, None))
  /\ (metadata.IsDelegatedPath (role ["dir1/*"] []) "dir1/foo" = (false, None)
      /\ filepath.Match "dir1/*" "dir1/foo" = (true, None))
  /\ metadata.IsDelegatedPath (role ["dir1/*"] ["00"]) "dir1/foo" = (false, None).
Proof.
  cbv zeta. repeat split; vm_compute; reflexivity.
Qed.

(** ** Threshold verification *)

Lemma signatureFor_filter (P : metadata.Signature.t -> Prop) `{!forall s, Decision (P s)}
    (v : string) (sigs : list metadata.Signature.t) :
  (forall s, metadata.Signature.KeyID s = v -> P s) ->
  metadata.signatureFor v (filter P sigs) = metadata.signatureFor v sigs.
Proof.
  intros HP. unfold metadata.signatureFor.
  generalize ({| metadata.Signature.KeyID := ""; metadata.Signature.Signature := [] |}).
  induction sigs as [|s sigs IH]; intros acc; [reflexivity|].
  rewrite filter_cons. destruct (decide (P s)) as [Hs|Hs]; simpl.
  - apply IH.
  - rewrite IH. destruct (decide (metadata.Signature.KeyID s = v)) as [E|_]; [|reflexivity].
    exfalso. apply Hs, HP, E.
Qed.

Section VerifyDelegate.

Context {PublicKey Verifier : Type}.
Variable Key_ToPublicKey : option metadata.Key.t -> outcome PublicKey.
Variable LoadVerifier : PublicKey -> metadata.crypto_Hash -> outcome Verifier.
Variable EncodeCanonical : metadata.AnySigned -> outcome bytes.
Variable VerifySignature : Verifier -> bytes -> bytes -> option error.

Local Abbreviation VerifyDelegate_range :=
  (metadata.VerifyDelegate_range Key_ToPublicKey LoadVerifier EncodeCanonical VerifySignature).
Local Abbreviation VerifyDelegate :=
  (metadata.VerifyDelegate Key_ToPublicKey LoadVerifier EncodeCanonical VerifySignature).
Local Abbreviation keyVerifies :=
  (metadata.keyVerifies Key_ToPublicKey LoadVerifier EncodeCanonical VerifySignature).
Local Abbreviation verifiedCount :=
  (metadata.verifiedCount Key_ToPublicKey LoadVerifier EncodeCanonical VerifySignature).
Local Abbreviation keyLoads := (metadata.keyLoads Key_ToPublicKey LoadVerifier).

(** The loop reads, of the signatures of the document, only the ones the
    key ids of the role select. *)
Lemma VerifyDelegate_range_signatures keys d d' ids acc :
  metadata.signedOf d' = metadata.signedOf d ->
  (forall v, v ∈ ids ->
     metadata.signatureFor v (metadata.signaturesOf d')
     = metadata.signatureFor v (metadata.signaturesOf d)) ->
  VerifyDelegate_range keys (Some d') ids acc = VerifyDelegate_range keys (Some d) ids acc.
Proof.
  intros Hs. revert acc. induction ids as [|v ids IH]; intros acc Hsig; [reflexivity|].
  simpl. destruct (Key_ToPublicKey (keys !! v)) as [key| |]; simpl; try reflexivity.
  destruct (keys !! v) as [k|]; [|reflexivity].
  destruct (LoadVerifier key _) as [verifier| |]; simpl; try reflexivity.
  rewrite Hs. destruct (EncodeCanonical (metadata.signedOf d)) as [payload| |];
    simpl; try reflexivity.
  rewrite (Hsig v) by (left; reflexivity).
  apply IH. intros w Hw. apply Hsig. right. exact Hw.
Qed.

(** When every key of the role loads and the document encodes, the loop
    ends with the key ids that verify added to the set it started from. *)
Lemma VerifyDelegate_range_loads keys d ids acc payload :
  Forall (keyLoads keys) ids ->
  EncodeCanonical (metadata.signedOf d) = Ok payload ->
  VerifyDelegate_range keys (Some d) ids acc
  = Ok (acc ∪ filter (fun v => keyVerifies keys d v = true) (list_to_set ids)).
Proof.
  intros Hl He. revert acc. induction Hl as [|v ids (k & key & verifier & Hk & Hp & Hv) _ IH];
    intros acc.
  - simpl. f_equal. apply set_eq. intros w.
    rewrite elem_of_union, elem_of_filter, elem_of_empty. tauto.
  - simpl. rewrite Hk, Hp. simpl. rewrite Hv. simpl. rewrite He. simpl.
    rewrite IH. f_equal.
    assert (Hkv : keyVerifies keys d v
                  = match VerifySignature verifier
                            (metadata.Signature.Signature
                               (metadata.signatureFor v (metadata.signaturesOf d))) payload with
                    | None => true
                    | Some _ => false
                    end).
    { unfold metadata.keyVerifies. rewrite Hk, Hp, Hv, He. reflexivity. }
    destruct (VerifySignature verifier _ payload) as [e|].
    + apply set_eq. intros w. rewrite !elem_of_union, !elem_of_filter, elem_of_union,
        elem_of_singleton. split; [tauto|].
      intros [?|[Hw [->|?]]]; [tauto| |tauto]. congruence.
    + apply set_eq. intros w. rewrite !elem_of_union, !elem_of_filter, elem_of_union,
        elem_of_singleton. split; [|tauto].
      intros [[->|?]|[? ?]]; tauto.
Qed.

(** The loop goes through the key ids that load, when the document
    encodes, and comes to the rest of the list. *)
Lemma VerifyDelegate_range_app keys d pre ids acc :
  Forall (keyLoads keys) pre ->
  (pre = [] \/ exists payload, EncodeCanonical (metadata.signedOf d) = Ok payload) ->
  exists acc',
    VerifyDelegate_range keys (Some d) (pre ++ ids) acc
    = VerifyDelegate_range keys (Some d) ids acc'.
Proof.
  intros Hl He. revert acc.
  induction Hl as [|v pre (k & key & verifier & Hk & Hp & Hv) _ IH]; intros acc.
  - exists acc. reflexivity.
  - destruct He as [He|(payload & He)]; [discriminate He|].
    destruct (IH (or_intror (ex_intro _ payload He))
                (match VerifySignature verifier
                         (metadata.Signature.Signature
                            (metadata.signatureFor v (metadata.signaturesOf d))) payload with
                 | Some _ => acc
                 | None => {[v]} ∪ acc
                 end)) as (acc' & IH').
    exists acc'. rewrite <- IH'. simpl. rewrite Hk, Hp. simpl. rewrite Hv. simpl.
    rewrite He. reflexivity.
Qed.

(** C2 (as amended).  For a delegator that resolves the role to a list of
    key ids.  When the list is not empty, every key id of it is in the key
    map and loads as a verifier, and the delegated document has a
    canonical encoding: [VerifyDelegate] fails with [ErrUnsignedMetadata]
    exactly when the number of distinct key ids of the role that verify
    the document is strictly less than the threshold, and succeeds exactly
    when it is not; and the signatures of key ids the role does not list
    contribute nothing, a document with the same listed signatures
    verifies the same.  When the list is empty, [VerifyDelegate] answers
    [ErrValue], whatever is delegated.  And the first error that the
    conversion of a key, the loading of a verifier or the canonical
    encoding raises, going through the key ids in their order, is the
    error [VerifyDelegate] returns. *)
Theorem VerifyDelegate_threshold meta delegated_role keys roleKeyIDs roleThreshold :
  metadata.delegationOf meta delegated_role = Ok (keys, roleKeyIDs, roleThreshold) ->
  (forall d payload,
      roleKeyIDs <> [] ->
      Forall (keyLoads keys) roleKeyIDs ->
      EncodeCanonical (metadata.signedOf d) = Ok payload ->
      (VerifyDelegate meta delegated_role (Some d) = Err ErrUnsignedMetadata
         <-> verifiedCount keys d roleKeyIDs < roleThreshold)
      /\ (VerifyDelegate meta delegated_role (Some d) = Ok tt
         <-> roleThreshold <= verifiedCount keys d roleKeyIDs)
      /\ (forall sigs,
            filter (fun s => metadata.Signature.KeyID s ∈ roleKeyIDs) sigs
            = filter (fun s => metadata.Signature.KeyID s ∈ roleKeyIDs)
                     (metadata.signaturesOf d) ->
            VerifyDelegate meta delegated_role (Some (metadata.withSignatures d sigs))
            = VerifyDelegate meta delegated_role (Some d)))
  /\ (roleKeyIDs = [] ->
      forall delegated_metadata,
        VerifyDelegate meta delegated_role delegated_metadata = Err ErrValue)
  /\ (forall d pre v rest e,
        roleKeyIDs = (pre ++ v :: rest)%list ->
        Forall (keyLoads keys) pre ->
        (pre = [] \/ exists payload, EncodeCanonical (metadata.signedOf d) = Ok payload) ->
        (Key_ToPublicKey (keys !! v) = Err e
         \/ exists k key,
             keys !! v = Some k
             /\ Key_ToPublicKey (Some k) = Ok key
             /\ LoadVerifier key (if decide (metadata.Key.Type_ k ≠ metadata.KeyTypeEd25519)
                                  then metadata.SHA256 else metadata.Hash0) = Err e) ->
        VerifyDelegate meta delegated_role (Some d) = Err e)
  /\ (forall d v rest e,
        roleKeyIDs = v :: rest ->
        keyLoads keys v ->
        EncodeCanonical (metadata.signedOf d) = Err e ->
        VerifyDelegate meta delegated_role (Some d) = Err e).
Proof.
  intros Hd. split; [|split; [|split]].
  - intros d payload Hne Hl He.
    assert (Hrun : VerifyDelegate meta delegated_role (Some d)
                   = if decide (verifiedCount keys d roleKeyIDs < roleThreshold)
                     then Err ErrUnsignedMetadata else Ok tt).
    { unfold metadata.VerifyDelegate. rewrite Hd. simpl.
      destruct (decide (length roleKeyIDs = 0%nat)) as [E|_].
      { destruct roleKeyIDs; [congruence | discriminate E]. }
      rewrite (VerifyDelegate_range_loads _ _ _ _ _ Hl He). simpl.
      rewrite (left_id_L ∅ (∪)). reflexivity. }
    split; [|split].
    + rewrite Hrun. destruct (decide _); split; intros; try congruence; try lia.
    + rewrite Hrun. destruct (decide _); split; intros; try congruence; try lia.
    + clear Hrun. intros sigs Hf. unfold metadata.VerifyDelegate. rewrite Hd. simpl.
      destruct (decide (length roleKeyIDs = 0%nat)) as [_|_]; [reflexivity|]. f_equal.
      rewrite (VerifyDelegate_range_signatures keys d (metadata.withSignatures d sigs)).
      * reflexivity.
      * destruct d; reflexivity.
      * intros v Hv.
        assert (Hsigs : metadata.signaturesOf (metadata.withSignatures d sigs) = sigs)
          by (destruct d; reflexivity).
        rewrite Hsigs.
        rewrite <- (signatureFor_filter
                      (fun s => metadata.Signature.KeyID s ∈ roleKeyIDs) v sigs)
          by (intros s ->; exact Hv).
        rewrite <- (signatureFor_filter
                      (fun s => metadata.Signature.KeyID s ∈ roleKeyIDs) v
                      (metadata.signaturesOf d))
          by (intros s ->; exact Hv).
        rewrite Hf. reflexivity.
  - intros -> delegated_metadata. unfold metadata.VerifyDelegate. rewrite Hd. reflexivity.
  - intros d pre v rest e -> Hl He Herr. unfold metadata.VerifyDelegate. rewrite Hd. simpl.
    destruct (decide (length (pre ++ v :: rest) = 0%nat)) as [E|_].
    { rewrite length_app in E. simpl in E. lia. }
    destruct (VerifyDelegate_range_app keys d pre (v :: rest) ∅ Hl He) as (acc' & ->).
    simpl. destruct Herr as [Hp|(k & key & Hk & Hp & Hv)].
    + rewrite Hp. reflexivity.
    + rewrite Hk, Hp. simpl. rewrite Hv. reflexivity.
  - intros d v rest e -> (k & key & verifier & Hk & Hp & Hv) He.
    unfold metadata.VerifyDelegate. rewrite Hd. simpl.
    destruct (decide (S (length rest) = 0%nat)) as [E|_]; [discriminate E|].
    rewrite Hk, Hp. simpl. rewrite Hv. simpl. rewrite He. reflexivity.
Qed.

End VerifyDelegate.

(** [VerifyDelegate_threshold] at a root whose role [root] lists one key,
    verifying itself with the signature of that key. *)
Lemma VerifyDelegate_threshold_witness :
  let payload := String.list_byte_of_string "root" in
  let sig := {| metadata.Signature.KeyID := "k1";
                metadata.Signature.Signature := fixture.sign "K1" payload |} in
  let keys : gmap string metadata.Key.t := {[ "k1" := fixture.key1 ]} in
  let doc := metadata.OfRoot (fixture.rootWith ["k1"] keys [sig]) in
  let run d :=
    metadata.VerifyDelegate fixture.Key_ToPublicKey fixture.LoadVerifier
      fixture.EncodeCanonical fixture.VerifySignature doc "root" (Some d) in
  let count :=
    metadata.verifiedCount fixture.Key_ToPublicKey fixture.LoadVerifier
      fixture.EncodeCanonical fixture.VerifySignature keys doc ["k1"] in
  (run doc = Err ErrUnsignedMetadata <-> count < 1)
  /\ (run doc = Ok tt <-> 1 <= count)
  /\ (forall sigs,
        filter (fun s => metadata.Signature.KeyID s ∈ ["k1"]) sigs
        = filter (fun s => metadata.Signature.KeyID s ∈ ["k1"]) (metadata.signaturesOf doc) ->
        run (metadata.withSignatures doc sigs) = run doc).
Proof.
  cbv zeta.
  refine (proj1 (VerifyDelegate_threshold fixture.Key_ToPublicKey fixture.LoadVerifier
                   fixture.EncodeCanonical fixture.VerifySignature
                   _ "root" {[ "k1" := fixture.key1 ]} ["k1"] 1 _)
            _ (String.list_byte_of_string "root") _ _ _).
  - vm_compute. reflexivity.
  - discriminate.
  - constructor; [|constructor].
    exists fixture.key1, "K1", "K1". repeat split; vm_compute; reflexivity.
  - reflexivity.
Defined.

(** C2, the claim as stated fails at two inputs.  The role [root] of the
    root the constructor [Root] builds has threshold 1 and no key id: no
    key verifies, and [VerifyDelegate] answers [ErrValue].  A root whose
    role [root] lists a key id that its key map does not hold: no key
    verifies, and [VerifyDelegate] does not return. *)
Lemma VerifyDelegate_other_failures :
  let run doc :=
    metadata.VerifyDelegate fixture.Key_ToPublicKey fixture.LoadVerifier
      fixture.EncodeCanonical fixture.VerifySignature doc "root" (Some doc) in
  let count keys doc ids :=
    metadata.verifiedCount fixture.Key_ToPublicKey fixture.LoadVerifier
      fixture.EncodeCanonical fixture.VerifySignature keys doc ids in
  (let doc := metadata.OfRoot (metadata.Root 0 []) in
   metadata.delegationOf doc "root" = Ok (∅, [], 1)
   /\ count ∅ doc [] = 0
   /\ run doc = Err ErrValue)
  /\ (let doc := metadata.OfRoot (fixture.rootWith ["k1"] ∅ []) in
      metadata.delegationOf doc "root" = Ok (∅, ["k1"], 1)
      /\ count ∅ doc ["k1"] = 0
      /\ run doc = Panic).
Proof.
  cbv zeta. repeat split; vm_compute; reflexivity.
Qed.

Section VerifyDelegate_panics.

Context {PublicKey Verifier : Type}.
Variable Key_ToPublicKey : option metadata.Key.t -> outcome PublicKey.
Variable LoadVerifier : PublicKey -> metadata.crypto_Hash -> outcome Verifier.
Variable EncodeCanonical : metadata.AnySigned -> outcome bytes.
Variable VerifySignature : Verifier -> bytes -> bytes -> option error.

Local Abbreviation VerifyDelegate_range :=
  (metadata.VerifyDelegate_range Key_ToPublicKey LoadVerifier EncodeCanonical VerifySignature).
Local Abbreviation VerifyDelegate :=
  (metadata.VerifyDelegate Key_ToPublicKey LoadVerifier EncodeCanonical VerifySignature).
Local Abbreviation keyLoads := (metadata.keyLoads Key_ToPublicKey LoadVerifier).

(** The loop panics at the first key id that the key map does not hold,
    unless the conversion of a nil key returns an error of its own. *)
Lemma VerifyDelegate_range_absent_key keys d pre v rest acc payload :
  Forall (keyLoads keys) pre ->
  EncodeCanonical (metadata.signedOf d) = Ok payload ->
  keys !! v = None ->
  (forall e, Key_ToPublicKey None <> Err e) ->
  VerifyDelegate_range keys (Some d) (pre ++ v :: rest) acc = Panic.
Proof.
  intros Hl He Hv Hnil. revert acc.
  induction Hl as [|w pre (k & key & verifier & Hk & Hp & Hlv) _ IH]; intros acc; simpl.
  - rewrite Hv. destruct (Key_ToPublicKey None) as [key|e|]; simpl.
    + reflexivity.
    + exfalso. exact (Hnil e eq_refl).
    + reflexivity.
  - rewrite Hk, Hp. simpl. rewrite Hlv. simpl. rewrite He. simpl. apply IH.
Qed.

(** C10.  [VerifyDelegate] does not return, it dereferences a nil
    pointer, when the delegator is a targets document without delegations,
    whatever the role and the delegated document; and when the role it
    resolves lists a key id that the key map of the delegator does not
    hold, once the loop over the key ids reaches it (the key ids before it
    load, the delegated document encodes): the conversion is called on the
    nil key and the type of the nil key is read next, so the call panics
    unless the conversion returns an error for a nil key. *)
Theorem VerifyDelegate_nil_dereference :
  (forall i delegated_role delegated_metadata,
      metadata.TargetsType.Delegations (metadata.Signed i) = None ->
      VerifyDelegate (metadata.OfTargets i) delegated_role delegated_metadata = Panic)
  /\ (forall meta delegated_role d keys (pre : list string) v rest roleThreshold payload,
      metadata.delegationOf meta delegated_role = Ok (keys, (pre ++ v :: rest)%list, roleThreshold) ->
      Forall (keyLoads keys) pre ->
      EncodeCanonical (metadata.signedOf d) = Ok payload ->
      keys !! v = None ->
      (forall e, Key_ToPublicKey None <> Err e) ->
      VerifyDelegate meta delegated_role (Some d) = Panic).
Proof.
  split.
  - intros i delegated_role delegated_metadata Hnil.
    unfold metadata.VerifyDelegate, metadata.delegationOf. rewrite Hnil. reflexivity.
  - intros meta delegated_role d keys pre v rest roleThreshold payload Hd Hl He Hv Hnil.
    unfold metadata.VerifyDelegate. rewrite Hd. simpl.
    destruct (decide (length (pre ++ v :: rest) = 0%nat)) as [E|_].
    { rewrite length_app in E. simpl in E. lia. }
    rewrite (VerifyDelegate_range_absent_key keys d pre v rest ∅ payload Hl He Hv Hnil).
    reflexivity.
Qed.

End VerifyDelegate_panics.

(** [VerifyDelegate_nil_dereference] at the targets document of the
    constructor [Targets], which has no delegations, and at a root whose
    role [root] lists the key ids [k1] and [k2] and holds the key [k1]
    only. *)
Lemma VerifyDelegate_nil_dereference_witness :
  let run :=
    metadata.VerifyDelegate fixture.Key_ToPublicKey fixture.LoadVerifier
      fixture.EncodeCanonical fixture.VerifySignature in
  let doc := metadata.OfRoot (fixture.rootWith ["k1"; "k2"] {[ "k1" := fixture.key1 ]} []) in
  run (metadata.OfTargets (metadata.Targets 0 [])) "role-A" None = Panic
  /\ run doc "root" (Some doc) = Panic.
Proof.
  cbv zeta. split.
  - apply (proj1 (VerifyDelegate_nil_dereference fixture.Key_ToPublicKey
                    fixture.LoadVerifier fixture.EncodeCanonical fixture.VerifySignature)).
    reflexivity.
  - apply (proj2 (VerifyDelegate_nil_dereference fixture.Key_ToPublicKey
                    fixture.LoadVerifier fixture.EncodeCanonical fixture.VerifySignature)
             _ "root" _ {[ "k1" := fixture.key1 ]} ["k1"] "k2" [] 1
             (String.list_byte_of_string "root")).
    + vm_compute. reflexivity.
    + constructor; [|constructor].
      exists fixture.key1, "K1", "K1". repeat split; vm_compute; reflexivity.
    + reflexivity.
    + vm_compute. reflexivity.
    + intros e. discriminate.
Defined.

(** ** Serialisation *)

Section RoundTrip.

Variable json_parse : bytes -> option metadata.json.
Variable json_Unmarshal : forall T, bytes -> outcome (metadata.Metadata (metadata.typeOf T)).
Variable json_Marshal : forall T, metadata.Metadata (metadata.typeOf T) -> outcome bytes.
Variable json_MarshalIndent : forall T, metadata.Metadata (metadata.typeOf T) -> outcome bytes.

Lemma checkType_carried T meta data :
  metadata.carriesType json_parse T meta data ->
  metadata.checkType json_parse T data
  = if decide (match T with
               | metadata.RootRole => metadata.ROOT
               | metadata.SnapshotRole => metadata.SNAPSHOT
               | metadata.TimestampRole => metadata.TIMESTAMP
               | metadata.TargetsRole => metadata.TARGETS
               end ≠ metadata.signedType (metadata.signedOf (metadata.toAny meta)))
    then Err ErrValue else Ok tt.
Proof.
  intros (members & signed & Hp & Hs & Ht). unfold metadata.checkType.
  rewrite Hp. simpl. rewrite Hs, Ht. destruct T; reflexivity.
Qed.

(** What [fromBytes] asks of a text besides being decoded: the type tag
    of the role, and signatures of distinct key ids.  A document of the
    right tag without signatures is accepted when the codec is faithful
    on it. *)
Lemma fromBytes_unsigned T (meta : metadata.Metadata (metadata.typeOf T)) data :
  metadata.signedType (metadata.signedOf (metadata.toAny meta))
  = metadata.signedType (metadata.signedOf (metadata.toAny (metadata.New T 0 []))) ->
  metadata.Signatures meta = [] ->
  json_Unmarshal T data = Ok meta ->
  metadata.carriesType json_parse T meta data ->
  metadata.fromBytes json_parse json_Unmarshal T data = Ok meta.
Proof.
  intros Htag Hsigs Hu Hc. unfold metadata.fromBytes.
  rewrite (checkType_carried T meta data Hc), Hu, Htag. cbn [obind].
  unfold metadata.checkUniqueSignatures. rewrite Hsigs.
  destruct T; reflexivity.
Qed.


End RoundTrip.


(** ** The updater *)

(** *** The walk over the delegations *)

Section Workflow.

Context {World : Type}.
Variable ext : updater.Externals World.

Import updater.

Lemma quiet_ret {A} (a : A) : quiet (@ret World A a).
Proof. intros u. split; [reflexivity|]. exists []. rewrite app_nil_r. auto. Qed.

Lemma quiet_fail {A} (e : error) : quiet (@fail World A e).
Proof. intros u. split; [reflexivity|]. exists []. rewrite app_nil_r. auto. Qed.

Lemma quiet_get {A} (f : Updater World -> A) : quiet (get f).
Proof. intros u. split; [reflexivity|]. exists []. rewrite app_nil_r. auto. Qed.

Lemma quiet_call {A} (f : World -> outcome A * World) : quiet (call f).
Proof.
  intros u. unfold call. destruct (f (world u)) as [r w]. simpl.
  split; [reflexivity|]. exists []. rewrite app_nil_r. auto.
Qed.

Lemma quiet_update {A}
    (f : trustedmetadata.TrustedMetadata -> World ->
         outcome A * trustedmetadata.TrustedMetadata) : quiet (update f).
Proof.
  intros u. unfold update. destruct (f (trusted u) (world u)) as [r t]. simpl.
  split; [reflexivity|]. exists []. rewrite app_nil_r. auto.
Qed.

Lemma quiet_log_Download url length : quiet (@log World (Download url length)).
Proof. intros u. split; [reflexivity|]. exists [Download url length]. auto. Qed.

Lemma quiet_try {A B} (c : @M World A) (k : A + error -> @M World B) :
  quiet c -> (forall r, quiet (k r)) -> quiet (try c k).
Proof.
  intros Hc Hk u. unfold try. destruct (Hc u) as (Hcfg & evs & Htr & Hl).
  destruct (c u) as [[a|e|] u1]; simpl in *.
  - destruct (Hk (inl a) u1) as (Hcfg' & evs' & Htr' & Hl').
    split; [congruence|]. exists (evs ++ evs')%list.
    rewrite Htr', Htr, app_assoc. split; [reflexivity|].
    unfold loaded in *. rewrite omap_app, Hl, Hl'. reflexivity.
  - destruct (Hk (inr e) u1) as (Hcfg' & evs' & Htr' & Hl').
    split; [congruence|]. exists (evs ++ evs')%list.
    rewrite Htr', Htr, app_assoc. split; [reflexivity|].
    unfold loaded in *. rewrite omap_app, Hl, Hl'. reflexivity.
  - split; [exact Hcfg|]. exists evs. auto.
Qed.

Lemma quiet_bind {A B} (c : @M World A) (k : A -> @M World B) :
  quiet c -> (forall a, quiet (k a)) -> quiet (bind c k).
Proof.
  intros Hc Hk. apply quiet_try; [exact Hc|]. intros [a|e]; [apply Hk | apply quiet_fail].
Qed.

Ltac solve_quiet :=
  repeat first
    [ apply quiet_ret | apply quiet_fail | apply quiet_get | apply quiet_call
    | apply quiet_update | apply quiet_log_Download
    | apply quiet_bind; [|intros ?] | apply quiet_try; [|intros [?|?]]
    | progress cbv zeta
    | match goal with
      | |- @quiet _ _ (match ?x with _ => _ end) => destruct x
      end ].

Lemma quiet_downloadMetadata roleName length version :
  quiet (downloadMetadata ext roleName length version).
Proof. unfold downloadMetadata. solve_quiet. Qed.

Lemma quiet_persistMetadata roleName data : quiet (persistMetadata ext roleName data).
Proof. unfold persistMetadata. solve_quiet. Qed.

Lemma quiet_loadLocalMetadata roleName : quiet (loadLocalMetadata ext roleName).
Proof. unfold loadLocalMetadata, readFile. solve_quiet. Qed.

Ltac solve_quiet' :=
  repeat first
    [ apply quiet_downloadMetadata | apply quiet_persistMetadata
    | apply quiet_loadLocalMetadata | solve_quiet ].

Lemma log_then {A} (e : event) (k : unit -> @M World A) u :
  quiet (k tt) ->
  cfg (bind (log e) k u).2 = cfg u
  /\ exists evs, trace (bind (log e) k u).2 = (trace u ++ e :: evs)%list /\ loaded evs = [].
Proof.
  intros Hk. unfold bind, try, log. simpl.
  match goal with |- context [k tt ?v] => destruct (Hk v) as (Hcfg & evs & Htr & Hl) end.
  simpl in *. split; [exact Hcfg|]. exists evs. rewrite Htr, <- app_assoc. auto.
Qed.

(** [loadTargets] records its call, and calls itself for no other role. *)
Lemma loadTargets_trace roleName parentName u :
  cfg (loadTargets ext roleName parentName u).2 = cfg u
  /\ exists evs,
      trace (loadTargets ext roleName parentName u).2
      = (trace u ++ LoadTargets roleName parentName :: evs)%list
      /\ loaded evs = [].
Proof.
  unfold loadTargets. apply log_then. solve_quiet'.
Qed.

(** [reverseSlice] on the slices the walk gives it. *)
Lemma reverseSlice_short {E} (s : list E) :
  (List.length s <= 1)%nat -> reverseSlice s = s.
Proof.
  destruct s as [|x [|y s]]; simpl; intros; try lia; reflexivity.
Qed.

(** [pushChildren] leaves a stack of one entry at most as it found it, or
    with one child in it. *)
Lemma pushChildren_stack targetFilePath delegation delegations delegationsToVisit u :
  (List.length delegationsToVisit <= 1)%nat ->
  let r := pushChildren ext targetFilePath delegation delegations delegationsToVisit u in
  (List.length r.1 <= 1)%nat /\ cfg r.2 = cfg u /\ trace r.2 = trace u.
Proof.
  intros Hlen. unfold pushChildren, call.
  destruct (mapRange ext _ (world u)) as [[|[child terminating] rest] w]; simpl.
  - rewrite app_nil_r. auto.
  - auto.
Qed.

Lemma preOrderDepthFirstWalk_loop_empty fuel targetFilePath visitedRoleNames u :
  preOrderDepthFirstWalk_loop ext (S fuel) targetFilePath [] visitedRoleNames u
  = Some (Err (errorString ("target " ++ targetFilePath ++ " not found")), u).
Proof.
  simpl. destruct (decide _) as [[_ H]|_]; [simpl in H; lia | reflexivity].
Qed.

(** More fuel does not change the result of the loop. *)
Lemma preOrderDepthFirstWalk_loop_fuel fuel :
  forall fuel' targetFilePath delegationsToVisit (visitedRoleNames : gset string) u r,
    (fuel <= fuel')%nat ->
    preOrderDepthFirstWalk_loop ext fuel targetFilePath delegationsToVisit
      visitedRoleNames u = Some r ->
    preOrderDepthFirstWalk_loop ext fuel' targetFilePath delegationsToVisit
      visitedRoleNames u = Some r.
Proof.
  induction fuel as [|fuel IH]; intros fuel' targetFilePath stack visited u r Hle Hrun;
    [discriminate|].
  destruct fuel' as [|fuel']; [lia|]. simpl in *.
  destruct (decide _); [|exact Hrun].
  destruct (pop stack) as [[delegation stack']|]; [|exact Hrun].
  destruct (decide _); [apply IH; [lia|exact Hrun]|].
  destruct (loadTargets ext (Role delegation) (Parent delegation) u) as [[targets|e|] u1];
    [|exact Hrun|exact Hrun].
  destruct (_ !! targetFilePath); [exact Hrun|].
  destruct (metadata.TargetsType.Delegations (metadata.Signed targets)) as [delegations|].
  - destruct (pushChildren ext targetFilePath delegation delegations stack' u1).
    apply IH; [lia|exact Hrun].
  - apply IH; [lia|exact Hrun].
Qed.

(** The loop of the walk, from a stack of one entry at most: with enough
    fuel it ends; the roles it loads are distinct, none of them was
    visited before, and there are no more of them than the budget
    [MaxDelegations + 1 - |visited|] allows. *)
Lemma preOrderDepthFirstWalk_loop_bounded fuel :
  forall targetFilePath delegationsToVisit (visitedRoleNames : gset string) u,
    (List.length delegationsToVisit <= 1)%nat ->
    (Z.to_nat (config.MaxDelegations (cfg u) + 1 - Z.of_nat (size visitedRoleNames)) + 2
     <= fuel)%nat ->
    exists res u' evs,
      preOrderDepthFirstWalk_loop ext fuel targetFilePath delegationsToVisit
        visitedRoleNames u = Some (res, u')
      /\ cfg u' = cfg u
      /\ trace u' = (trace u ++ evs)%list
      /\ NoDup (loaded evs)
      /\ (forall r, r ∈ loaded evs -> r ∉ visitedRoleNames)
      /\ (List.length (loaded evs)
          <= Z.to_nat (config.MaxDelegations (cfg u) + 1 - Z.of_nat (size visitedRoleNames)))%nat.
Proof.
  induction fuel as [|fuel IH]; intros targetFilePath stack visited u Hlen Hfuel; [lia|].
  simpl. destruct (decide _) as [[Hsize Hpos]|_].
  2:{ exists (Err (errorString ("target " ++ targetFilePath ++ " not found"))), u, [].
      rewrite app_nil_r. repeat split; auto; [constructor | intros r Hr; inversion Hr | simpl; lia]. }
  destruct stack as [|delegation [|? ?]]; simpl in Hlen, Hpos; try lia.
  unfold pop. simpl.
  destruct (decide (Role delegation ∈ visited)) as [Hin|Hnotin].
  { destruct fuel as [|fuel]; [lia|]. rewrite preOrderDepthFirstWalk_loop_empty.
    exists (Err (errorString ("target " ++ targetFilePath ++ " not found"))), u, [].
    rewrite app_nil_r. repeat split; auto; [constructor | intros r Hr; inversion Hr | simpl; lia]. }
  destruct (loadTargets_trace (Role delegation) (Parent delegation) u)
    as (Hcfg1 & evs1 & Htr1 & Hl1).
  assert (Hloaded1 : loaded (LoadTargets (Role delegation) (Parent delegation) :: evs1)
                     = [Role delegation]).
  { change (loaded (LoadTargets (Role delegation) (Parent delegation) :: evs1))
      with (Role delegation :: loaded evs1).
    rewrite Hl1. reflexivity. }
  assert (Hone : forall r, r ∈ [Role delegation] -> r ∉ visited).
  { intros r Hr. apply list_elem_of_singleton in Hr. subst r. exact Hnotin. }
  assert (Hbudget : (1 <= Z.to_nat (config.MaxDelegations (cfg u) + 1
                                    - Z.of_nat (size visited)))%nat) by lia.
  destruct (loadTargets ext (Role delegation) (Parent delegation) u) as [res1 u1].
  simpl in Hcfg1, Htr1.
  assert (Hstop : forall res,
             exists (res' : outcome metadata.TargetFiles.t) u' evs,
               Some (res, u1) = Some (res', u')
               /\ cfg u' = cfg u
               /\ trace u' = (trace u ++ evs)%list
               /\ NoDup (loaded evs)
               /\ (forall r, r ∈ loaded evs -> r ∉ visited)
               /\ (List.length (loaded evs)
                   <= Z.to_nat (config.MaxDelegations (cfg u) + 1
                                - Z.of_nat (size visited)))%nat).
  { intros res. exists res, u1, (LoadTargets (Role delegation) (Parent delegation) :: evs1).
    rewrite Hloaded1. repeat split; auto.
    apply NoDup_singleton. }
  assert (Hnext : forall stack' u2,
             (List.length stack' <= 1)%nat -> cfg u2 = cfg u1 -> trace u2 = trace u1 ->
             exists res u' evs,
               preOrderDepthFirstWalk_loop ext fuel targetFilePath stack'
                 ({[Role delegation]} ∪ visited) u2 = Some (res, u')
               /\ cfg u' = cfg u
               /\ trace u' = (trace u ++ evs)%list
               /\ NoDup (loaded evs)
               /\ (forall r, r ∈ loaded evs -> r ∉ visited)
               /\ (List.length (loaded evs)
                   <= Z.to_nat (config.MaxDelegations (cfg u) + 1
                                - Z.of_nat (size visited)))%nat).
  { intros stack' u2 Hlen' Hcfg2 Htr2.
    assert (Hsz : size ({[Role delegation]} ∪ visited) = S (size visited)).
    { rewrite size_union by set_solver. rewrite size_singleton. reflexivity. }
    destruct (IH targetFilePath stack' ({[Role delegation]} ∪ visited) u2 Hlen')
      as (res & u' & evs & Hrun & Hcfg' & Htr' & Hnd & Hfresh & Hcount).
    { rewrite Hsz, Hcfg2, Hcfg1. lia. }
    exists res, u', (LoadTargets (Role delegation) (Parent delegation) :: evs1 ++ evs)%list.
    rewrite Hsz, Hcfg2, Hcfg1 in Hcount.
    assert (Hl : loaded (LoadTargets (Role delegation) (Parent delegation) :: evs1 ++ evs)
                 = Role delegation :: loaded evs).
    { change (loaded (LoadTargets (Role delegation) (Parent delegation) :: evs1 ++ evs))
        with (Role delegation :: loaded (evs1 ++ evs)).
      unfold loaded in *. rewrite omap_app, Hl1. reflexivity. }
    rewrite Hl. split; [exact Hrun|]. split; [congruence|]. split.
    { rewrite Htr', Htr2, Htr1, <- app_assoc. reflexivity. }
    split.
    { constructor; [|exact Hnd]. intros Hr. apply (Hfresh _ Hr). set_solver. }
    split.
    { intros r Hr. apply elem_of_cons in Hr as [->|Hr]; [exact Hnotin|].
      intros Hv. apply (Hfresh _ Hr). set_solver. }
    simpl. lia. }
  destruct res1 as [targets| |]; [|apply Hstop|apply Hstop].
  destruct (metadata.TargetsType.Targets (metadata.Signed targets) !! targetFilePath)
    as [target|]; [apply Hstop|].
  destruct (metadata.TargetsType.Delegations (metadata.Signed targets)) as [delegations|].
  - pose proof (pushChildren_stack targetFilePath delegation delegations [] u1) as Hp.
    destruct (pushChildren ext targetFilePath delegation delegations [] u1) as [stack' u2].
    simpl in Hp. destruct Hp as (Hlen' & Hcfg2 & Htr2); [lia|].
    apply Hnext; auto.
  - apply Hnext; auto.
Qed.

Lemma quiet_loadRoot_loop n nextVersion : quiet (loadRoot_loop ext n nextVersion).
Proof.
  revert nextVersion. induction n as [|n IH]; intros nextVersion; simpl.
  - apply quiet_ret.
  - solve_quiet'. apply IH.
Qed.

Lemma quiet_loadRoot : quiet (loadRoot ext).
Proof. unfold loadRoot. solve_quiet'. apply quiet_loadRoot_loop. Qed.

Lemma quiet_loadTimestamp : quiet (loadTimestamp ext).
Proof. unfold loadTimestamp. solve_quiet'. Qed.

Lemma quiet_loadSnapshot : quiet (loadSnapshot ext).
Proof. unfold loadSnapshot. solve_quiet'. Qed.

(** [Refresh] leaves the configuration as it is. *)
Lemma Refresh_cfg u : cfg (Refresh ext u).2 = cfg u.
Proof.
  unfold Refresh, bind, try.
  destruct (quiet_loadRoot u) as [H1 _]. destruct (loadRoot ext u) as [[[]|e|] u1]; simpl in *;
    [|exact H1|exact H1].
  destruct (quiet_loadTimestamp u1) as [H2 _].
  destruct (loadTimestamp ext u1) as [[[]|e|] u2]; simpl in *; [|congruence|congruence].
  destruct (quiet_loadSnapshot u2) as [H3 _].
  destruct (loadSnapshot ext u2) as [[[]|e|] u3]; simpl in *; [|congruence|congruence].
  destruct (loadTargets_trace metadata.TARGETS metadata.ROOT u3) as [H4 _].
  destruct (loadTargets ext metadata.TARGETS metadata.ROOT u3) as [[t|e|] u4]; simpl in *;
    congruence.
Qed.

(** C6 (as amended).  For every repository, state of the updater and
    target path, the walk ends, within [MaxDelegations + 3] turns of its
    loop, and so does [GetTargetInfo], which refreshes the top-level
    metadata when it has to and then walks.  The walk calls [loadTargets]
    for distinct roles, so for no role twice, and for [MaxDelegations + 1]
    roles at most: the top-level [targets] and [MaxDelegations] delegated
    roles. *)
Theorem preOrderDepthFirstWalk_terminates (targetFilePath : string) (u : Updater World)
    (fuel : nat) :
  (Z.to_nat (config.MaxDelegations (cfg u) + 1) + 2 <= fuel)%nat ->
  (exists res u', GetTargetInfo ext fuel targetFilePath u = Some (res, u'))
  /\ (exists res u' evs,
        preOrderDepthFirstWalk ext fuel targetFilePath u = Some (res, u')
        /\ trace u' = (trace u ++ evs)%list
        /\ NoDup (loaded evs)
        /\ (List.length (loaded evs) <= Z.to_nat (config.MaxDelegations (cfg u) + 1))%nat).
Proof.
  intros Hfuel.
  assert (Hwalk : forall u1, cfg u1 = cfg u ->
            exists res u' evs,
              preOrderDepthFirstWalk ext fuel targetFilePath u1 = Some (res, u')
              /\ trace u' = (trace u1 ++ evs)%list
              /\ NoDup (loaded evs)
              /\ (List.length (loaded evs)
                  <= Z.to_nat (config.MaxDelegations (cfg u) + 1))%nat).
  { intros u1 Hcfg. unfold preOrderDepthFirstWalk.
    destruct (preOrderDepthFirstWalk_loop_bounded fuel targetFilePath
                [ {| Role := metadata.TARGETS; Parent := metadata.ROOT |} ] ∅ u1)
      as (res & u' & evs & Hrun & _ & Htr & Hnd & _ & Hcount).
    { simpl. lia. }
    { rewrite Hcfg, size_empty. simpl. lia. }
    exists res, u', evs. rewrite Hcfg, size_empty in Hcount.
    replace (config.MaxDelegations (cfg u) + 1 - Z.of_nat 0)
      with (config.MaxDelegations (cfg u) + 1) in Hcount by lia.
    auto. }
  split; [|apply Hwalk; reflexivity].
  unfold GetTargetInfo.
  destruct (decide (trustedmetadata.Targets (trusted u) !! metadata.TARGETS = None))
    as [_|_].
  - pose proof (Refresh_cfg u) as Hcfg.
    destruct (Refresh ext u) as [[[]|e|] u1]; simpl in Hcfg; eauto.
    destruct (Hwalk u1 Hcfg) as (res & u' & _ & Hrun & _). eauto.
  - destruct (Hwalk u eq_refl) as (res & u' & _ & Hrun & _). eauto.
Qed.

(** *** The requests made of the fetcher *)

Lemma steady_ret {A} (a : A) : steady (@ret World A a).
Proof. intros u. auto. Qed.

Lemma steady_fail {A} (e : error) : steady (@fail World A e).
Proof. intros u. auto. Qed.

Lemma steady_get {A} (f : Updater World -> A) : steady (get f).
Proof. intros u. auto. Qed.

Lemma steady_call {A} (f : World -> outcome A * World) : steady (call f).
Proof. intros u. unfold call. destruct (f (world u)) as [r w]. auto. Qed.

Lemma steady_update {A}
    (f : trustedmetadata.TrustedMetadata -> World ->
         outcome A * trustedmetadata.TrustedMetadata) : steady (update f).
Proof. intros u. unfold update. destruct (f (trusted u) (world u)) as [r t]. auto. Qed.

Lemma steady_try {A B} (c : @M World A) (k : A + error -> @M World B) :
  steady c -> (forall r, steady (k r)) -> steady (try c k).
Proof.
  intros Hc Hk u. unfold try. destruct (Hc u) as (H1 & H2 & H3).
  destruct (c u) as [[a|e|] u1]; simpl in *; [| |auto].
  - destruct (Hk (inl a) u1) as (H1' & H2' & H3'). repeat split; congruence.
  - destruct (Hk (inr e) u1) as (H1' & H2' & H3'). repeat split; congruence.
Qed.

Lemma steady_bind {A B} (c : @M World A) (k : A -> @M World B) :
  steady c -> (forall a, steady (k a)) -> steady (bind c k).
Proof.
  intros Hc Hk. apply steady_try; [exact Hc|]. intros [a|e]; [apply Hk | apply steady_fail].
Qed.

Ltac solve_steady :=
  repeat first
    [ apply steady_ret | apply steady_fail | apply steady_get | apply steady_call
    | apply steady_update
    | apply steady_bind; [|intros ?] | apply steady_try; [|intros [?|?]]
    | progress cbv zeta
    | match goal with
      | |- @steady _ _ (match ?x with _ => _ end) => destruct x
      end ].

Lemma steady_persistMetadata roleName data : steady (persistMetadata ext roleName data).
Proof. unfold persistMetadata. solve_steady. Qed.

(** A download followed by steady methods records the one request. *)
Lemma downloadMetadata_then {A} roleName length version (k : bytes + error -> @M World A) u :
  (forall r, steady (k r)) ->
  let r := try (downloadMetadata ext roleName length version) k u in
  cfg r.2 = cfg u
  /\ metadataBaseUrl r.2 = metadataBaseUrl u
  /\ trace r.2
     = (trace u ++ [Download (metadataUrl (metadataBaseUrl u) roleName version) length])%list.
Proof.
  intros Hk. unfold downloadMetadata, try, bind, try, get, log, call. simpl.
  destruct (DownloadFile ext _ length (world u)) as [[data|e|] w]; simpl; [| |auto].
  - match goal with |- context [k (inl data) ?v] => destruct (Hk (inl data) v) as (H1 & H2 & H3) end.
    simpl in *. auto.
  - match goal with |- context [k (inr e) ?v] => destruct (Hk (inr e) v) as (H1 & H2 & H3) end.
    simpl in *. auto.
Qed.

Lemma bind_get {A B} (f : Updater World -> A) (k : A -> @M World B) u :
  bind (get f) k u = k (f u) u.
Proof. reflexivity. Qed.

Lemma bind_log {B} (e : event) (k : unit -> @M World B) u :
  bind (log e) k u
  = k tt {| metadataDir := metadataDir u; metadataBaseUrl := metadataBaseUrl u;
            targetDir := targetDir u; targetBaseUrl := targetBaseUrl u;
            trusted := trusted u; cfg := cfg u; world := world u;
            trace := (trace u ++ [e])%list |}.
Proof. reflexivity. Qed.

Lemma downloads_app evs evs' : downloads (evs ++ evs') = (downloads evs ++ downloads evs')%list.
Proof. apply omap_app. Qed.

(** The cap of [loadTargets]: for a role that is not loaded yet and has no
    local file, the fetcher is asked once, with the cap [TargetsMaxLength]
    when the snapshot records a length that is not zero, and with the cap
    0 when it records the length 0. *)
Lemma loadTargets_download_cap roleName parentName u snapshot e w :
  trustedmetadata.Targets (trusted u) !! roleName = None ->
  os_ReadFile ext (url.QueryEscape roleName ++ ".json") (world u) = (Err e, w) ->
  trustedmetadata.Snapshot (trusted u) = Some snapshot ->
  let metaInfo :=
    metaAt (metadata.SnapshotType.Meta (metadata.Signed snapshot)) (roleName ++ ".json") in
  exists urlPath,
    downloads (trace (loadTargets ext roleName parentName u).2)
    = (downloads (trace u)
       ++ [(urlPath,
            if decide (metadata.MetaFiles.Length metaInfo ≠ 0)
            then config.TargetsMaxLength (cfg u)
            else metadata.MetaFiles.Length metaInfo)])%list.
Proof.
  intros Hnone Hread Hsnap metaInfo.
  unfold loadTargets. rewrite bind_log, bind_get. simpl. rewrite Hnone.
  unfold try at 1. unfold loadLocalMetadata, readFile, call at 1. simpl. rewrite Hread.
  rewrite bind_get. simpl. rewrite Hsnap. rewrite !bind_get. simpl.
  unfold bind at 1.
  match goal with
  | |- context [try (downloadMetadata ext roleName ?len ?ver) ?k ?v] =>
      destruct (downloadMetadata_then roleName len ver k v) as (_ & _ & Htr)
  end.
  { intros [data|err]; [|apply steady_fail]. solve_steady. }
  rewrite Htr. simpl. rewrite !downloads_app. simpl. rewrite app_nil_r.
  eexists. reflexivity.
Qed.

(** One turn of the loop of [loadRoot]. *)
Lemma loadRoot_loop_S n nextVersion u :
  loadRoot_loop ext (S n) nextVersion u
  = match downloadMetadata ext metadata.ROOT (config.RootMaxLength (cfg u))
            (strconv.FormatInt nextVersion) u with
    | (Ok data, u1) =>
        match update (UpdateRoot ext data) u1 with
        | (Ok _, u2) =>
            match persistMetadata ext metadata.ROOT data u2 with
            | (Ok _, u3) => loadRoot_loop ext n (nextVersion + 1) u3
            | (Err e, u3) => (Err e, u3)
            | (Panic, u3) => (Panic, u3)
            end
        | (Err e, u2) => (Err e, u2)
        | (Panic, u2) => (Panic, u2)
        end
    | (Err (ErrDownloadHTTP StatusCode), u1) =>
        if decide (StatusCode ≠ StatusNotFound /\ StatusCode ≠ StatusForbidden)
        then (Err (ErrDownloadHTTP StatusCode), u1)
        else (Ok tt, u1)
    | (Err e, u1) => (Err e, u1)
    | (Panic, u1) => (Panic, u1)
    end.
Proof.
  simpl. rewrite bind_get. unfold try at 1.
  destruct (downloadMetadata ext metadata.ROOT _ _ u) as [[data|e|] u1]; [| |reflexivity].
  - unfold bind at 1. unfold try at 1.
    destruct (update (UpdateRoot ext data) u1) as [[root|e|] u2]; [|reflexivity|reflexivity].
    unfold bind at 1. unfold try at 1.
    destruct (persistMetadata ext metadata.ROOT data u2) as [[[]|e|] u3]; reflexivity.
  - destruct e; try reflexivity. destruct (decide _); reflexivity.
Qed.

Lemma downloadMetadata_trace roleName length version u :
  let r := downloadMetadata ext roleName length version u in
  cfg r.2 = cfg u
  /\ metadataBaseUrl r.2 = metadataBaseUrl u
  /\ trace r.2
     = (trace u ++ [Download (metadataUrl (metadataBaseUrl u) roleName version) length])%list.
Proof.
  unfold downloadMetadata. rewrite bind_get. cbv zeta. rewrite bind_log. unfold call. simpl.
  destruct (DownloadFile ext _ length (world u)) as [r w]. simpl. auto.
Qed.

(** The versions [loadRoot] asks for: consecutive versions from the one
    after the trusted root, [MaxRootRotations + 1] of them at most. *)
Lemma loadRoot_loop_requests n :
  forall nextVersion u,
    cfg (loadRoot_loop ext n nextVersion u).2 = cfg u
    /\ metadataBaseUrl (loadRoot_loop ext n nextVersion u).2 = metadataBaseUrl u
    /\ exists k, (k <= n)%nat
        /\ trace (loadRoot_loop ext n nextVersion u).2
           = (trace u
              ++ map (fun i =>
                        Download
                          (metadataUrl (metadataBaseUrl u) metadata.ROOT
                             (strconv.FormatInt (nextVersion + Z.of_nat i)))
                          (config.RootMaxLength (cfg u)))
                     (seq 0 k))%list.
Proof.
  induction n as [|n IH]; intros nextVersion u.
  - simpl. repeat split. exists 0%nat. simpl. rewrite app_nil_r. auto.
  - rewrite loadRoot_loop_S.
    destruct (downloadMetadata_trace metadata.ROOT (config.RootMaxLength (cfg u))
                (strconv.FormatInt nextVersion) u) as (Hcfg1 & Hurl1 & Htr1).
    assert (Hone : forall u' : Updater World,
               cfg u' = cfg u -> metadataBaseUrl u' = metadataBaseUrl u ->
               trace u'
               = (trace u ++ [Download (metadataUrl (metadataBaseUrl u) metadata.ROOT
                                          (strconv.FormatInt nextVersion))
                                (config.RootMaxLength (cfg u))])%list ->
               cfg u' = cfg u
               /\ metadataBaseUrl u' = metadataBaseUrl u
               /\ exists k, (k <= S n)%nat
                   /\ trace u'
                      = (trace u
                         ++ map (fun i =>
                                   Download
                                     (metadataUrl (metadataBaseUrl u) metadata.ROOT
                                        (strconv.FormatInt (nextVersion + Z.of_nat i)))
                                     (config.RootMaxLength (cfg u)))
                                (seq 0 k))%list).
    { intros u' H1 H2 H3. repeat split; auto. exists 1%nat. split; [lia|].
      simpl. rewrite Z.add_0_r. exact H3. }
    destruct (downloadMetadata ext metadata.ROOT _ _ u) as [[data|e|] u1]; simpl in *.
    + destruct (steady_update (UpdateRoot ext data) u1) as (Hcfg2 & Hurl2 & Htr2).
      destruct (update (UpdateRoot ext data) u1) as [[root|e|] u2]; simpl in *;
        [|apply Hone; congruence|apply Hone; congruence].
      destruct (steady_persistMetadata metadata.ROOT data u2) as (Hcfg3 & Hurl3 & Htr3).
      destruct (persistMetadata ext metadata.ROOT data u2) as [[[]|e|] u3]; simpl in *;
        [|apply Hone; congruence|apply Hone; congruence].
      destruct (IH (nextVersion + 1) u3) as (Hcfg4 & Hurl4 & k & Hk & Htr4).
      repeat split; try congruence.
      exists (S k). split; [lia|]. rewrite Htr4.
      rewrite Hcfg3, Hcfg2, Hcfg1, Hurl3, Hurl2, Hurl1, Htr3, Htr2, Htr1.
      rewrite <- app_assoc. f_equal. simpl. rewrite Z.add_0_r. f_equal.
      rewrite <- seq_shift, map_map. apply map_ext. intros i.
      do 3 f_equal. lia.
    + destruct e; try (apply Hone; assumption).
      destruct (decide _); apply Hone; assumption.
    + apply Hone; assumption.
Qed.

Lemma wrap64_in_range (z : Z) : - 2 ^ 63 <= z < 2 ^ 63 -> wrap64 z = z.
Proof.
  intros H. unfold wrap64. rewrite Z.mod_small by lia. lia.
Qed.

Lemma loadRoot_requests u :
  let v := metadata.RootType.Version (metadata.Signed (trustedmetadata.Root (trusted u))) in
  - 2 ^ 63 <= v + 1 < 2 ^ 63 ->
  - 2 ^ 63 <= v + 1 + config.MaxRootRotations (cfg u) < 2 ^ 63 ->
  exists k, (k <= Z.to_nat (config.MaxRootRotations (cfg u) + 1))%nat
    /\ trace (loadRoot ext u).2
       = (trace u
          ++ map (fun i =>
                    Download
                      (metadataUrl (metadataBaseUrl u) metadata.ROOT
                         (strconv.FormatInt (v + 1 + Z.of_nat i)))
                      (config.RootMaxLength (cfg u)))
                 (seq 0 k))%list.
Proof.
  intros v Hl Hu. unfold loadRoot. rewrite !bind_get. fold v.
  rewrite (wrap64_in_range (v + 1) Hl), (wrap64_in_range _ Hu).
  destruct (loadRoot_loop_requests
              (Z.to_nat (v + 1 + config.MaxRootRotations (cfg u) - (v + 1) + 1)) (v + 1) u)
    as (_ & _ & k & Hk & Htr).
  exists k. split; [lia|]. exact Htr.
Qed.

End Workflow.

(** *** The workflow on the fixtures *)

(** C4, the code where it departs from the claim, and where it agrees.
    From the trusted root version 1, with a server that has every version:
    for [MaxRootRotations = 2] the versions 2, 3 and 4 are requested, three
    requests, and for [MaxRootRotations = 32] there are 33 requests, the
    last one for version 34: the loop runs from [lowerBound] to
    [lowerBound + MaxRootRotations] included.  With a server that has the
    versions 1 to 3 and answers 404, or 403, for version 4, the versions
    2, 3 and 4 are requested and the loop stops without error at version
    3; with a server that answers 500 the error is returned. *)
Theorem loadRoot_requests_one_version_more :
  let run MaxRootRotations server :=
    updater.loadRoot (fixture.externals server ∅ id)
      (fixture.updaterOf (fixture.cfg MaxRootRotations 32) None None ∅) in
  let requested r := (updater.downloads (updater.trace r.2)).*1 in
  let version r :=
    metadata.RootType.Version
      (metadata.Signed (trustedmetadata.Root (updater.trusted r.2))) in
  (requested (run 2 fixture.serveAll)
   = ["https://repo.example/metadata/2.root.json";
      "https://repo.example/metadata/3.root.json";
      "https://repo.example/metadata/4.root.json"]
   /\ (run 2 fixture.serveAll).1 = Ok tt)
  /\ (List.length (requested (run 32 fixture.serveAll)) = 33%nat
      /\ last (requested (run 32 fixture.serveAll))
         = Some "https://repo.example/metadata/34.root.json")
  /\ (forall status, status = 404 \/ status = 403 ->
        requested (run 32 (fixture.serveRootsBelow 4 status))
        = ["https://repo.example/metadata/2.root.json";
           "https://repo.example/metadata/3.root.json";
           "https://repo.example/metadata/4.root.json"]
        /\ (run 32 (fixture.serveRootsBelow 4 status)).1 = Ok tt
        /\ version (run 32 (fixture.serveRootsBelow 4 status)) = 3)
  /\ (run 32 (fixture.serveRootsBelow 4 500)).1 = Err (ErrDownloadHTTP 500).
Proof.
  cbv zeta. split; [|split; [|split]].
  - split; vm_compute; reflexivity.
  - split; vm_compute; reflexivity.
  - intros status [-> | ->]; repeat split; vm_compute; reflexivity.
  - vm_compute. reflexivity.
Qed.

(** C7, the code where it departs from the claim.  With no local file
    and a snapshot that records the length 100 for [role-A.json] and the
    length 0 for [role-B.json], [loadTargets] asks the fetcher for
    [role-A] with the cap [TargetsMaxLength] and for [role-B] with the cap
    0: the test on the recorded length is the opposite of the one
    [loadSnapshot] makes, which asks for the snapshot with the recorded
    length 100, and with [SnapshotMaxLength] when the timestamp records
    the length 0. *)
Theorem loadTargets_download_cap_inverted :
  let ext := fixture.externals fixture.serveAll ∅ id in
  let snapshot := fixture.snapshotOf [("role-A", 100); ("role-B", 0)] in
  let c := fixture.cfg 32 32 in
  let targets roleName :=
    updater.loadTargets ext roleName "targets"
      (fixture.updaterOf c None (Some snapshot) ∅) in
  let snapshots length :=
    updater.loadSnapshot ext
      (fixture.updaterOf c (Some (fixture.timestampOf length)) None ∅) in
  config.TargetsMaxLength c = 5000000
  /\ config.SnapshotMaxLength c = 2000000
  /\ updater.downloads (updater.trace (targets "role-A").2)
     = [("https://repo.example/metadata/1.role-A.json", 5000000)]
  /\ updater.downloads (updater.trace (targets "role-B").2)
     = [("https://repo.example/metadata/1.role-B.json", 0)]
  /\ updater.downloads (updater.trace (snapshots 100).2)
     = [("https://repo.example/metadata/1.snapshot.json", 100)]
  /\ updater.downloads (updater.trace (snapshots 0).2)
     = [("https://repo.example/metadata/1.snapshot.json", 2000000)].
Proof.
  cbv zeta. repeat split; vm_compute; reflexivity.
Qed.

(** C1, the code where it departs from the claim.  [targets] delegates
    [dir1/foo] to [role-A], then to [role-B], neither terminating.
    - Both roles list the target and the [range] over the map of matching
      roles visits [role-B] first: the walk returns the target file of
      [role-B], not the one of the first-declared [role-A].
    - Only [role-B] lists the target and the [range] visits [role-A]
      first: [role-A] is loaded, [role-B] never is, and the target is not
      found.
    In both runs two roles are loaded: one child is pushed, not every
    matching one. *)
Theorem preOrderDepthFirstWalk_one_child_in_map_order :
  let u :=
    fixture.updaterOf (fixture.cfg 32 32) None
      (Some (fixture.snapshotOf [("role-A", 0); ("role-B", 0)]))
      {[ "targets" := fixture.twoRoles false ]} in
  let fileA := fixture.file "dir1/foo" 1 in
  let fileB := fixture.file "dir1/foo" 2 in
  let both : gmap string _ :=
    {[ "role-A" := fixture.targetsDoc [fileA] None;
       "role-B" := fixture.targetsDoc [fileB] None ]} in
  let onlyB : gmap string _ :=
    {[ "role-A" := fixture.targetsDoc [] None;
       "role-B" := fixture.targetsDoc [fileB] None ]} in
  let run repo name :=
    updater.GetTargetInfo (fixture.externals fixture.serveAll repo (fixture.first name))
      10 "dir1/foo" u in
  metadata.GetRolesForTarget
    {| metadata.Delegations.Keys := ∅;
       metadata.Delegations.Roles :=
         [fixture.delegate "role-A" ["dir1/foo"] false;
          fixture.delegate "role-B" ["dir1/foo"] false] |} "dir1/foo"
  = {[ "role-A" := false; "role-B" := false ]}
  /\ (fst <$> run both "role-B") = Some (Ok fileB.2)
  /\ (updater.loaded <$> (updater.trace <$> (snd <$> run both "role-B")))
     = Some ["targets"; "role-B"]
  /\ (fst <$> run onlyB "role-A") = Some (Err (errorString "target dir1/foo not found"))
  /\ (updater.loaded <$> (updater.trace <$> (snd <$> run onlyB "role-A")))
     = Some ["targets"; "role-A"].
Proof.
  cbv zeta. repeat split; vm_compute; reflexivity.
Qed.

(** [preOrderDepthFirstWalk_terminates] on a cycle of delegations
    ([targets] delegates the path to [d1], and [d1] back to [targets]),
    with [MaxDelegations = 32]. *)
Lemma preOrderDepthFirstWalk_terminates_witness :
  let ext := fixture.externals fixture.serveAll fixture.cycleRepo id in
  let u :=
    fixture.updaterOf (fixture.cfg 32 32) None (Some (fixture.chainSnapshot 1))
      {[ "targets" := fixture.chainTop ]} in
  (exists res u', updater.GetTargetInfo ext 35 "dir1/foo" u = Some (res, u'))
  /\ (exists res u' evs,
        updater.preOrderDepthFirstWalk ext 35 "dir1/foo" u = Some (res, u')
        /\ updater.trace u' = (updater.trace u ++ evs)%list
        /\ NoDup (updater.loaded evs)
        /\ (List.length (updater.loaded evs)
            <= Z.to_nat (config.MaxDelegations (updater.cfg u) + 1))%nat).
Proof.
  cbv zeta.
  apply (preOrderDepthFirstWalk_terminates
           (fixture.externals fixture.serveAll fixture.cycleRepo id) "dir1/foo"
           (fixture.updaterOf (fixture.cfg 32 32) None (Some (fixture.chainSnapshot 1))
              {[ "targets" := fixture.chainTop ]}) 35).
  vm_compute. lia.
Defined.

(** C6, the claim as stated fails.  On a chain of delegations
    ([targets] delegates the path to [d1], [d1] to [d2], and so on) where
    no role lists the target: with [MaxDelegations = 1] the walk loads the
    two roles [targets] and [d1], and with [MaxDelegations = 32] it loads
    33 roles. *)
Lemma preOrderDepthFirstWalk_loads_one_role_more :
  let run MaxDelegations :=
    updater.GetTargetInfo (fixture.externals fixture.serveAll (fixture.chainRepo 40) id)
      40 "dir1/foo"
      (fixture.updaterOf (fixture.cfg 32 MaxDelegations) None
         (Some (fixture.chainSnapshot 40)) {[ "targets" := fixture.chainTop ]}) in
  let loads r := updater.loaded <$> (updater.trace <$> (snd <$> r)) in
  (fst <$> run 1) = Some (Err (errorString "target dir1/foo not found"))
  /\ loads (run 1) = Some ["targets"; "d1"]
  /\ (List.length <$> loads (run 32)) = Some 33%nat.
Proof.
  cbv zeta. repeat split; vm_compute; reflexivity.
Qed.

(** * Further properties of the code *)

(** ** Hexadecimal bytes *)

(** The byte two hexadecimal digits stand for. *)
Lemma fromHexChar_digits (v : byte) :
  encoding_hex.fromHexChar (byte_of_ascii (hex.digit (Byte.to_N v / 16))) = Some (Byte.to_N v / 16)%N
  /\ encoding_hex.fromHexChar (byte_of_ascii (hex.digit (Byte.to_N v mod 16)))
     = Some (Byte.to_N v mod 16)%N
  /\ Byte.of_N (Byte.to_N v / 16 * 16 + Byte.to_N v mod 16) = Some v.
Proof. destruct v; vm_compute; auto. Qed.

Lemma Decode_Encode (b : bytes) :
  encoding_hex.Decode (encoding_hex.Encode b) = Ok b.
Proof.
  induction b as [|v b IH]; [reflexivity|].
  destruct (fromHexChar_digits v) as (H1 & H2 & H3).
  change (encoding_hex.Encode (v :: b))
    with (byte_of_ascii (hex.digit (Byte.to_N v / 16))
          :: byte_of_ascii (hex.digit (Byte.to_N v mod 16)) :: encoding_hex.Encode b).
  cbn [encoding_hex.Decode]. rewrite H1, H2, IH. cbn [obind]. rewrite H3. reflexivity.
Qed.

Lemma Encode_length (b : bytes) :
  List.length (encoding_hex.Encode b) = (2 * List.length b)%nat.
Proof. induction b as [|v b IH]; simpl in *; lia. Qed.

(** X1.  A [HexBytes] value written by [MarshalJSON] is read back by
    [UnmarshalJSON] as the same bytes; a text that is shorter than two
    bytes, of odd length, or not between double quotes is refused. *)
Theorem HexBytes_UnmarshalJSON_MarshalJSON (b : bytes) :
  HexBytes.UnmarshalJSON (HexBytes.MarshalJSON b) = Ok b
  /\ (forall data,
        (List.length data < 2)%nat \/ Nat.Odd (List.length data)
        \/ head data <> Some HexBytes.quote \/ last data <> Some HexBytes.quote ->
        HexBytes.UnmarshalJSON data = Err (errorString "tuf: invalid JSON hex bytes")).
Proof.
  split.
  - unfold HexBytes.UnmarshalJSON, HexBytes.MarshalJSON.
    assert (Hlen : List.length (HexBytes.quote :: encoding_hex.Encode b ++ [HexBytes.quote])
                   = (2 * List.length b + 2)%nat).
    { simpl. rewrite length_app, Encode_length. simpl. lia. }
    rewrite Hlen.
    replace ((2 * List.length b + 2 <? 2)%nat) with false
      by (symmetry; apply Nat.ltb_ge; lia).
    replace (((2 * List.length b + 2) mod 2 =? 0)%nat) with true.
    2:{ symmetry. apply Nat.eqb_eq.
        replace (2 * List.length b + 2)%nat with ((List.length b + 1) * 2)%nat by lia.
        apply Nat.Div0.mod_mul. }
    rewrite bool_decide_eq_true_2 by reflexivity.
    rewrite bool_decide_eq_true_2
      by (change (HexBytes.quote :: encoding_hex.Encode b ++ [HexBytes.quote])%list
            with ((HexBytes.quote :: encoding_hex.Encode b) ++ [HexBytes.quote])%list;
          apply last_snoc).
    cbn [negb orb drop].
    replace (2 * List.length b + 2 - 2)%nat with (List.length (encoding_hex.Encode b))
      by (rewrite Encode_length; lia).
    rewrite drop_0, take_app_length. apply Decode_Encode.
  - intros data H. unfold HexBytes.UnmarshalJSON.
    destruct (List.length data <? 2)%nat eqn:E1; [reflexivity|].
    destruct (List.length data mod 2 =? 0)%nat eqn:E2; [|reflexivity].
    destruct (bool_decide (head data = Some HexBytes.quote)) eqn:E3; [|reflexivity].
    destruct (bool_decide (last data = Some HexBytes.quote)) eqn:E4; [|reflexivity].
    exfalso. apply Nat.ltb_ge in E1. apply Nat.eqb_eq in E2.
    apply bool_decide_eq_true_1 in E3, E4.
    destruct H as [H|[H|[H|H]]]; [lia| |congruence|congruence].
    destruct H as [k Hk]. rewrite Hk in E2.
    replace (2 * k + 1)%nat with (1 + k * 2)%nat in E2 by lia.
    rewrite Nat.Div0.mod_add in E2. discriminate E2.
Qed.

(** ** Hashes *)

(** The hexadecimal text tells the bytes apart. *)
Lemma EncodeToString_inj (b b' : bytes) :
  hex.EncodeToString b = hex.EncodeToString b' -> b = b'.
Proof.
  revert b'. induction b as [|v b IH]; intros [|v' b']; simpl; try discriminate; auto.
  intros [= H1 H2 H3]. f_equal; [|auto].
  destruct (fromHexChar_digits v) as (A1 & A2 & A3).
  destruct (fromHexChar_digits v') as (B1 & B2 & B3).
  rewrite H1, B1 in A1. rewrite H2, B2 in A2.
  injection A1 as A1. injection A2 as A2.
  rewrite <- A1, <- A2, B3 in A3. congruence.
Qed.

Lemma verifyHash_None sha256 sha512 data k v :
  metadata.verifyHash sha256 sha512 data k v = None <->
  (k = "sha256" /\ v = sha256 data) \/ (k = "sha512" /\ v = sha512 data).
Proof.
  unfold metadata.verifyHash.
  destruct (decide (k = "sha256")) as [->|N1].
  - destruct (decide (_ ≠ _)) as [N|E].
    + split; [discriminate|]. intros [[_ ->]|[? _]]; [congruence|discriminate].
    + split; [|reflexivity]. intros _. left. split; [reflexivity|].
      apply EncodeToString_inj. destruct (decide (hex.EncodeToString v
        = hex.EncodeToString (sha256 data))); [assumption|contradiction].
  - destruct (decide (k = "sha512")) as [->|N2].
    + destruct (decide (_ ≠ _)) as [N|E].
      * split; [discriminate|]. intros [[? _]|[_ ->]]; [discriminate|congruence].
      * split; [|reflexivity]. intros _. right. split; [reflexivity|].
        apply EncodeToString_inj. destruct (decide (hex.EncodeToString v
          = hex.EncodeToString (sha512 data))); [assumption|contradiction].
    + split; [discriminate|]. intros [[? _]|[? _]]; contradiction.
Qed.

(** X2.  [verifyHashes] returns no error exactly when every entry of the
    map is named [sha256] or [sha512] and holds the digest of the data
    under that algorithm; any other map is refused with
    [ErrLengthOrHashMismatch], whatever the order of the iteration. *)
Theorem verifyHashes_accepts_digests (sha256 sha512 : bytes -> bytes) (data : bytes)
    (hashes : gmap string bytes) :
  (metadata.verifyHashes sha256 sha512 data hashes = None <->
   forall k v, hashes !! k = Some v ->
               (k = "sha256" /\ v = sha256 data) \/ (k = "sha512" /\ v = sha512 data))
  /\ (metadata.verifyHashes sha256 sha512 data hashes <> None ->
      forall l, l ≡ₚ map_to_list hashes ->
                metadata.verifyHashes_range sha256 sha512 data l = Some ErrLengthOrHashMismatch).
Proof.
  split.
  - unfold metadata.verifyHashes. rewrite verifyHashes_range_None, Forall_forall. split.
    + intros H k v Hkv. apply verifyHash_None.
      apply (H (k, v)). apply elem_of_map_to_list. exact Hkv.
    + intros H [k v] Hin. apply verifyHash_None. apply H.
      apply elem_of_map_to_list. exact Hin.
  - intros Hne l Hl. rewrite (verifyHashes_any_order _ _ _ _ _ Hl).
    destruct (metadata.verifyHashes sha256 sha512 data hashes) as [e|] eqn:E; [|contradiction].
    f_equal. eapply verifyHashes_range_kind. exact E.
Qed.

(** X3.  A [TargetFiles] entry accepts the data exactly when every hash
    is the digest of the data and the length is the number of bytes; a
    [MetaFiles] entry checks the same hashes but takes a length of zero as
    no length at all. *)
Theorem VerifyLengthHashes_accepts (sha256 sha512 : bytes -> bytes) (data : bytes) :
  let digests (hashes : gmap string bytes) :=
    forall k v, hashes !! k = Some v ->
                (k = "sha256" /\ v = sha256 data) \/ (k = "sha512" /\ v = sha512 data) in
  (forall f : metadata.TargetFiles.t,
      metadata.TargetFiles_VerifyLengthHashes sha256 sha512 f data = None <->
      digests (metadata.TargetFiles.Hashes f)
      /\ metadata.TargetFiles.Length f = Z.of_nat (List.length data))
  /\ (forall f : metadata.MetaFiles.t,
        metadata.MetaFiles_VerifyLengthHashes sha256 sha512 f data = None <->
        digests (metadata.MetaFiles.Hashes f)
        /\ (metadata.MetaFiles.Length f = 0
            \/ metadata.MetaFiles.Length f = Z.of_nat (List.length data))).
Proof.
  intros digests.
  assert (Hlen : forall length, metadata.verifyLength data length = None
                                <-> length = Z.of_nat (List.length data)).
  { intros length. unfold metadata.verifyLength.
    destruct (decide (length ≠ _)) as [N|E]; split; try congruence; try discriminate.
    intros _. destruct (decide (length = Z.of_nat (List.length data))); [assumption|contradiction]. }
  assert (Hd : forall hashes, metadata.verifyHashes sha256 sha512 data hashes = None
                              <-> digests hashes).
  { intros hashes. unfold metadata.verifyHashes.
    rewrite verifyHashes_range_None, Forall_forall. split.
    - intros H k v Hkv. apply verifyHash_None.
      apply (H (k, v)). apply elem_of_map_to_list. exact Hkv.
    - intros H [k v] Hin. apply verifyHash_None. apply H.
      apply elem_of_map_to_list. exact Hin. }
  split; intros f.
  - unfold metadata.TargetFiles_VerifyLengthHashes.
    destruct (metadata.verifyHashes sha256 sha512 data (metadata.TargetFiles.Hashes f)) eqn:E.
    + split; [discriminate|]. intros [H _]. apply Hd in H. congruence.
    + rewrite Hlen. apply Hd in E. tauto.
  - unfold metadata.MetaFiles_VerifyLengthHashes.
    destruct (decide (0 < Z.of_nat (size (metadata.MetaFiles.Hashes f)))) as [Hs|Hs].
    + destruct (metadata.verifyHashes sha256 sha512 data (metadata.MetaFiles.Hashes f)) eqn:E.
      * split; [discriminate|]. intros [H _]. apply Hd in H. congruence.
      * apply Hd in E. destruct (decide (metadata.MetaFiles.Length f ≠ 0)) as [N|Z0].
        -- rewrite Hlen. tauto.
        -- split; [|reflexivity]. intros _. split; [exact E|]. left.
           destruct (decide (metadata.MetaFiles.Length f = 0)); [assumption|contradiction].
    + assert (He : metadata.MetaFiles.Hashes f = ∅).
      { apply map_size_empty_iff. lia. }
      assert (E : digests (metadata.MetaFiles.Hashes f)).
      { intros k v. rewrite He, lookup_empty. discriminate. }
      destruct (decide (metadata.MetaFiles.Length f ≠ 0)) as [N|Z0].
      * rewrite Hlen. tauto.
      * split; [|reflexivity]. intros _. split; [exact E|]. left.
        destruct (decide (metadata.MetaFiles.Length f = 0)); [assumption|contradiction].
Qed.

(** ** Target files from bytes *)

Lemma FromBytes_range_Some sha256 sha512 data hashes Hashes res :
  targetfiles.FromBytes_range sha256 sha512 data hashes Hashes = Some res ->
  Forall (fun v => v = "sha256" \/ v = "sha512") hashes
  /\ forall k v, res !! k = Some v ->
       Hashes !! k = Some v
       \/ (k ∈ hashes /\ ((k = "sha256" /\ v = sha256 data) \/ (k = "sha512" /\ v = sha512 data))).
Proof.
  revert Hashes. induction hashes as [|h hashes IH]; intros Hashes; simpl.
  - intros [= <-]. split; [constructor|auto].
  - destruct (decide (h = "sha256")) as [->|N1]; [|destruct (decide (h = "sha512")) as [->|N2]];
      [| |discriminate]; intros H; apply IH in H as [HF Hres];
      (split; [constructor; auto|]); intros k v Hk;
      (destruct (Hres k v Hk) as [Hin|[Hin Hd]];
       [|right; split; [right; exact Hin|exact Hd]]).
    + destruct (decide (k = "sha256")) as [->|Nk].
      * rewrite lookup_insert_eq in Hin. injection Hin as <-. right. split; [left|]; auto.
      * rewrite lookup_insert_ne in Hin by congruence. auto.
    + destruct (decide (k = "sha512")) as [->|Nk].
      * rewrite lookup_insert_eq in Hin. injection Hin as <-. right. split; [left|]; auto.
      * rewrite lookup_insert_ne in Hin by congruence. auto.
Qed.

Lemma FromBytes_range_None sha256 sha512 data hashes Hashes :
  targetfiles.FromBytes_range sha256 sha512 data hashes Hashes = None ->
  exists v, v ∈ hashes /\ v <> "sha256" /\ v <> "sha512".
Proof.
  revert Hashes. induction hashes as [|h hashes IH]; intros Hashes; simpl; [discriminate|].
  destruct (decide (h = "sha256")) as [->|N1]; [|destruct (decide (h = "sha512")) as [->|N2]].
  - intros H. apply IH in H as (v & Hv & ?). exists v. split; [right|]; auto.
  - intros H. apply IH in H as (v & Hv & ?). exists v. split; [right|]; auto.
  - intros _. exists h. split; [left|]; auto.
Qed.

(** X4.  The entry [TargetFiles.FromBytes] generates for a piece of data
    passes [VerifyLengthHashes] on that data and keeps the path; the call
    fails only for a name of an algorithm other than [sha256] and
    [sha512], with [ErrValue], and never panics. *)
Theorem TargetFiles_FromBytes_verifies (sha256 sha512 : bytes -> bytes) (localPath : string)
    (data : bytes) (hashes : list string) :
  match targetfiles.FromBytes sha256 sha512 localPath data hashes with
  | Ok f =>
      metadata.TargetFiles_VerifyLengthHashes sha256 sha512 f data = None
      /\ metadata.TargetFiles.Path f = localPath
      /\ Forall (fun v => v = "sha256" \/ v = "sha512") hashes
  | Err e => e = ErrValue /\ exists v, v ∈ hashes /\ v <> "sha256" /\ v <> "sha512"
  | Panic => False
  end.
Proof.
  unfold targetfiles.FromBytes.
  destruct (decide (List.length hashes = 0%nat)) as [H0|H0].
  - destruct hashes; [|discriminate H0]. simpl.
    split; [|split; [reflexivity|constructor]].
    unfold metadata.TargetFiles_VerifyLengthHashes, metadata.verifyHashes. simpl.
    rewrite insert_empty, map_to_list_singleton. simpl.
    unfold metadata.verifyHash. simpl.
    destruct (decide (_ ≠ _)) as [N|_]; [contradiction|].
    unfold metadata.verifyLength. destruct (decide (_ ≠ _)) as [N|_]; [contradiction|reflexivity].
  - destruct (targetfiles.FromBytes_range sha256 sha512 data hashes ∅) as [res|] eqn:E.
    + apply FromBytes_range_Some in E as [HF Hres].
      split; [|split; [reflexivity|exact HF]].
      unfold metadata.TargetFiles_VerifyLengthHashes. simpl.
      assert (Hv : metadata.verifyHashes sha256 sha512 data res = None).
      { unfold metadata.verifyHashes. apply verifyHashes_range_None, Forall_forall.
        intros [k v] Hin. apply verifyHash_None. apply elem_of_map_to_list in Hin.
        destruct (Hres k v Hin) as [Hempty|[_ Hd]]; [|exact Hd].
        rewrite lookup_empty in Hempty. discriminate. }
      rewrite Hv. unfold metadata.verifyLength.
      destruct (decide (_ ≠ _)) as [N|_]; [contradiction|reflexivity].
    + split; [reflexivity|]. eapply FromBytes_range_None. exact E.
Qed.

(** ** Slices *)

Lemma insert_middle {E} (l1 : list E) (x y : E) (l2 : list E) :
  <[List.length l1 := y]> (l1 ++ x :: l2)%list = (l1 ++ y :: l2)%list.
Proof. induction l1 as [|a l1 IH]; simpl; [reflexivity|]. f_equal. exact IH. Qed.

Lemma snoc_case {E} (l : list E) : l = [] \/ exists b l', l = (l' ++ [b])%list.
Proof. induction l as [|b l _] using rev_ind; [left; reflexivity|right; eauto]. Qed.

(** The swap loop on the middle part of a slice, with enough iterations
    left for it. *)
Lemma reverseSlice_loop_rev {E} (n : nat) :
  forall pre mid post : list E,
    (List.length mid <= 2 * n)%nat ->
    updater.reverseSlice_loop n (List.length pre) (List.length pre + List.length mid - 1)
      (pre ++ mid ++ post)
    = (pre ++ rev mid ++ post)%list.
Proof.
  induction n as [|n IH]; intros pre mid post Hlen.
  - destruct mid; [reflexivity|simpl in Hlen; lia].
  - destruct mid as [|a mid]; [|destruct (snoc_case mid) as [->|(b & mid' & ->)]].
    + simpl. destruct (decide (_ < _)%nat); [lia|reflexivity].
    + simpl. destruct (decide (_ < _)%nat); [lia|reflexivity].
    + cbn [updater.reverseSlice_loop].
      assert (Hj : (List.length pre + List.length (a :: mid' ++ [b]) - 1)%nat
                   = List.length (pre ++ a :: mid')).
      { simpl; rewrite ?length_app; simpl; rewrite ?length_app; simpl; lia. }
      rewrite Hj.
      destruct (decide (_ < _)%nat) as [_|N];
        [|exfalso; apply N; rewrite length_app; simpl; lia].
      assert (Hs : (pre ++ (a :: mid' ++ [b]) ++ post)%list
                   = ((pre ++ a :: mid') ++ b :: post)%list).
      { simpl; repeat (rewrite <- app_assoc; simpl); reflexivity. }
      rewrite Hs.
      rewrite (list_lookup_middle (pre ++ a :: mid') post b _ eq_refl).
      rewrite <- (app_assoc pre (a :: mid') (b :: post)). simpl.
      rewrite (list_lookup_middle pre (mid' ++ b :: post) a _ eq_refl).
      change (pre ++ a :: mid' ++ b :: post)%list
        with (pre ++ (a :: mid') ++ b :: post)%list.
      rewrite (app_assoc pre (a :: mid') (b :: post)).
      rewrite insert_middle.
      rewrite <- (app_assoc pre (a :: mid') (a :: post)). simpl.
      rewrite insert_middle.
      replace (S (List.length pre)) with (List.length (pre ++ [b]))
        by (rewrite length_app; simpl; lia).
      replace (Init.Nat.pred (List.length (pre ++ a :: mid')))
        with (List.length (pre ++ [b]) + List.length mid' - 1)%nat
        by (rewrite !length_app; simpl; lia).
      replace (pre ++ b :: mid' ++ a :: post)%list
        with ((pre ++ [b]) ++ mid' ++ a :: post)%list
        by (rewrite <- app_assoc; reflexivity).
      rewrite IH.
      * rewrite rev_app_distr. simpl; repeat (rewrite <- app_assoc; simpl); reflexivity.
      * simpl in Hlen. rewrite length_app in Hlen. simpl in Hlen. lia.
Qed.

(** X5.  [reverseSlice] leaves the slice in the reverse order, whatever
    its length. *)
Theorem reverseSlice_rev {E} (s : list E) : updater.reverseSlice s = rev s.
Proof.
  unfold updater.reverseSlice.
  pose proof (reverseSlice_loop_rev (List.length s) [] s []) as H.
  simpl in H. rewrite !app_nil_r in H. apply H. lia.
Qed.

(** ** Signatures of a document *)

Lemma checkUniqueSignatures_range (sigs : list metadata.Signature.t) :
  forall signatures : list string,
    let range :=
      fix range (sigs : list metadata.Signature.t) (signatures : list string)
        : option error :=
        match sigs with
        | [] => None
        | sig :: rest =>
            if decide (metadata.Signature.KeyID sig ∈ signatures) then Some ErrValue
            else range rest (signatures ++ [metadata.Signature.KeyID sig])%list
        end in
    (range sigs signatures = None <->
     NoDup (map metadata.Signature.KeyID sigs)
     /\ forall x, x ∈ map metadata.Signature.KeyID sigs -> x ∉ signatures)
    /\ (range sigs signatures = None \/ range sigs signatures = Some ErrValue).
Proof.
  induction sigs as [|sig rest IH]; intros signatures range.
  - split; [|left; reflexivity]. split; [|reflexivity]. intros _. split; [constructor|].
    intros x Hx. inversion Hx.
  - cbn [range map]. fold range.
    destruct (decide (metadata.Signature.KeyID sig ∈ signatures)) as [Hin|Hout].
    + split; [|right; reflexivity]. split; [discriminate|].
      intros [_ H]. exfalso. apply (H (metadata.Signature.KeyID sig)); [left|exact Hin].
    + destruct (IH (signatures ++ [metadata.Signature.KeyID sig])%list) as [IH1 IH2].
      split; [|exact IH2]. fold range in IH1. rewrite IH1. rewrite NoDup_cons. split.
      * intros [Hnd H]. split; [split; [|exact Hnd]|].
        -- intros Hx. apply (H _ Hx). apply elem_of_app. right. left.
        -- intros x Hx Hs. apply elem_of_cons in Hx as [->|Hx]; [contradiction|].
           apply (H x Hx). apply elem_of_app. left. exact Hs.
      * intros [[Hfresh Hnd] H]. split; [exact Hnd|].
        intros x Hx Hs. apply elem_of_app in Hs as [Hs|Hs].
        -- apply (H x); [right; exact Hx|exact Hs].
        -- apply elem_of_cons in Hs as [->|Hs]; [contradiction|inversion Hs].
Qed.

(** The two answers of [checkUniqueSignatures]. *)
Lemma checkUniqueSignatures_cases {T} (meta : metadata.Metadata T) :
  metadata.checkUniqueSignatures meta = None
  /\ NoDup (map metadata.Signature.KeyID (metadata.Signatures meta))
  \/ metadata.checkUniqueSignatures meta = Some ErrValue
     /\ ~ NoDup (map metadata.Signature.KeyID (metadata.Signatures meta)).
Proof.
  unfold metadata.checkUniqueSignatures.
  destruct (checkUniqueSignatures_range (metadata.Signatures meta) []) as [H1 [H2|H2]].
  - left. split; [exact H2|]. apply H1. exact H2.
  - right. split; [exact H2|]. intros Hnd.
    assert (Hnone : (fix range (sigs : list metadata.Signature.t) (signatures : list string)
                       : option error :=
                       match sigs with
                       | [] => None
                       | sig :: rest =>
                           if decide (metadata.Signature.KeyID sig ∈ signatures)
                           then Some ErrValue
                           else range rest (signatures ++ [metadata.Signature.KeyID sig])%list
                       end) (metadata.Signatures meta) [] = None).
    { apply H1. split; [exact Hnd|]. intros x _ Hx. inversion Hx. }
    rewrite Hnone in H2. discriminate.
Qed.

(** X6.  [checkUniqueSignatures] returns no error exactly when no two
    signatures of the document carry the same key id, and [ErrValue]
    otherwise. *)
Theorem checkUniqueSignatures_NoDup {T} (meta : metadata.Metadata T) :
  (metadata.checkUniqueSignatures meta = None <->
   NoDup (map metadata.Signature.KeyID (metadata.Signatures meta)))
  /\ (metadata.checkUniqueSignatures meta = None
      \/ metadata.checkUniqueSignatures meta = Some ErrValue).
Proof.
  unfold metadata.checkUniqueSignatures.
  destruct (checkUniqueSignatures_range (metadata.Signatures meta) []) as [H1 H2].
  split; [|exact H2]. rewrite H1. split; [tauto|].
  intros H. split; [exact H|]. intros x _ Hx. inversion Hx.
Qed.

(** X7.  A document that [fromBytes] returns is the one the decoder read,
    its text carries the type tag of the role asked for in its [signed]
    object, and no two of its signatures share a key id; a decoded
    document with a repeated key id is refused with [ErrValue]. *)
Theorem fromBytes_accepted (json_parse : bytes -> option metadata.json)
    (json_Unmarshal : forall T, bytes -> outcome (metadata.Metadata (metadata.typeOf T)))
    (T : metadata.Roles) (data : bytes) :
  let tag := match T with
             | metadata.RootRole => metadata.ROOT
             | metadata.SnapshotRole => metadata.SNAPSHOT
             | metadata.TimestampRole => metadata.TIMESTAMP
             | metadata.TargetsRole => metadata.TARGETS
             end in
  match metadata.fromBytes json_parse json_Unmarshal T data with
  | Ok meta =>
      json_Unmarshal T data = Ok meta
      /\ NoDup (map metadata.Signature.KeyID (metadata.Signatures meta))
      /\ exists members signed,
          json_parse data = Some (metadata.JObject members)
          /\ metadata.member "signed" members = Some (metadata.JObject signed)
          /\ metadata.member "_type" signed = Some (metadata.JString tag)
  | Err e =>
      metadata.checkType json_parse T data = Err e
      \/ json_Unmarshal T data = Err e
      \/ e = ErrValue
         /\ exists meta, json_Unmarshal T data = Ok meta
                         /\ ~ NoDup (map metadata.Signature.KeyID (metadata.Signatures meta))
  | Panic =>
      metadata.checkType json_parse T data = Panic \/ json_Unmarshal T data = Panic
  end.
Proof.
  intros tag. unfold metadata.fromBytes.
  destruct (metadata.checkType json_parse T data) as [[]|e|] eqn:Hc; cbn [obind]; auto.
  destruct (json_Unmarshal T data) as [meta|e|] eqn:Hu; cbn [obind]; auto.
  destruct (checkUniqueSignatures_cases meta) as [[Hs Hnd]|[Hs Hdup]]; rewrite Hs;
    cbn [of_error obind].
  2:{ right. right. split; [reflexivity|]. exists meta. split; [reflexivity|exact Hdup]. }
  - split; [reflexivity|]. split; [exact Hnd|].
    unfold metadata.checkType in Hc.
    destruct (json_parse data) as [[| | | | |members]|] eqn:Hp; cbn [obind] in Hc;
      try discriminate.
    destruct (metadata.member "signed" members) as [[| | | | |signed]|] eqn:Hm;
        try discriminate.
    destruct (metadata.member "_type" signed) as [[| | |signedType| |]|] eqn:Ht;
      try discriminate.
    exists members, signed. split; [reflexivity|]. split; [exact Hm|].
    rewrite Ht. subst tag. do 2 f_equal.
    destruct T; destruct (decide (_ ≠ signedType)) as [N|E]; try discriminate;
      match goal with
      | |- ?a = ?b => destruct (decide (a = b)); [assumption|exfalso; apply E; congruence]
      end.
Qed.

(** ** Roles for a target *)

(** X8.  [GetRolesForTarget] maps a name to a flag exactly when a role of
    that name is delegated the path, and the flag is the [Terminating] of
    the last such role of the list. *)
Theorem GetRolesForTarget_lookup (role : metadata.Delegations.t) (targetFilepath : string)
    (name : string) :
  metadata.GetRolesForTarget role targetFilepath !! name
  = metadata.DelegatedRole.Terminating
      <$> last (filter (fun r => metadata.DelegatedRole.Name r = name
                                 /\ metadata.IsDelegatedPath r targetFilepath = (true, None))
                       (metadata.Delegations.Roles role)).
Proof.
  unfold metadata.GetRolesForTarget.
  induction (metadata.Delegations.Roles role) as [|r roles IH] using rev_ind.
  - reflexivity.
  - rewrite foldl_snoc, filter_app, filter_cons, filter_nil.
    destruct (decide (_ /\ _)) as [[Hn Hd]|N].
    + rewrite Hd, last_snoc. subst name. rewrite lookup_insert_eq. reflexivity.
    + rewrite app_nil_r, <- IH.
      destruct (metadata.IsDelegatedPath r targetFilepath) as [[|] [e|]] eqn:Hd;
        try reflexivity.
      rewrite lookup_insert_ne; [reflexivity|]. intros Hn. apply N. split; auto.
Qed.

(** ** The keys of the roles *)

Lemma usedBy_true keyID (l : list (string * option metadata.Role.t)) :
  rolekeys.usedBy keyID l = Ok true ->
  exists name r, (name, Some r) ∈ l /\ keyID ∈ metadata.Role.KeyIDs r.
Proof.
  induction l as [|[name [r|]] l IH]; simpl; try discriminate.
  destruct (decide (keyID ∈ metadata.Role.KeyIDs r)) as [Hin|_].
  - intros _. exists name, r. split; [left|exact Hin].
  - intros H. destruct (IH H) as (n & r' & Hn & Hr). exists n, r'. split; [right|]; auto.
Qed.

Lemma usedBy_false keyID (l : list (string * option metadata.Role.t)) :
  rolekeys.usedBy keyID l = Ok false <->
  forall name o, (name, o) ∈ l -> exists r, o = Some r /\ keyID ∉ metadata.Role.KeyIDs r.
Proof.
  induction l as [|[name [r|]] l IH]; simpl.
  - split; [|reflexivity]. intros _ name o H. inversion H.
  - destruct (decide (keyID ∈ metadata.Role.KeyIDs r)) as [Hin|Hout].
    + split; [discriminate|]. intros H.
      destruct (H name (Some r)) as (r' & [= <-] & Hr); [left|contradiction].
    + rewrite IH. split.
      * intros H n o Hn. apply elem_of_cons in Hn as [[= -> ->]|Hn]; [|exact (H _ _ Hn)].
        exists r. split; [reflexivity|exact Hout].
      * intros H n o Hn. apply (H n o). right. exact Hn.
  - split; [discriminate|]. intros H.
    destruct (H name None) as (r' & Hr & _); [left|discriminate].
Qed.

Lemma usedBy_no_error keyID (l : list (string * option metadata.Role.t)) e :
  rolekeys.usedBy keyID l <> Err e.
Proof.
  induction l as [|[name [r|]] l IH]; simpl; try discriminate.
  destruct (decide (keyID ∈ metadata.Role.KeyIDs r)); [discriminate|exact IH].
Qed.

Lemma filter_ne_elem_of (keyID id : string) (ids : list string) :
  id ∈ filter (fun k => k ≠ keyID) ids <-> id ≠ keyID /\ id ∈ ids.
Proof. rewrite list_elem_of_filter. tauto. Qed.

Lemma filter_ne_fresh (keyID : string) (ids : list string) :
  keyID ∉ ids -> filter (fun k => k ≠ keyID) (ids ++ [keyID])%list = ids.
Proof.
  intros H. rewrite filter_app, filter_cons, filter_nil.
  destruct (decide (keyID ≠ keyID)) as [N|_]; [contradiction|]. rewrite app_nil_r.
  induction ids as [|a ids IH]; [reflexivity|].
  rewrite filter_cons. destruct (decide (a ≠ keyID)) as [_|E].
  - f_equal. apply IH. intros Hin. apply H. right. exact Hin.
  - exfalso. destruct (decide (a = keyID)) as [->|]; [apply H; left|contradiction].
Qed.

Section RoleKeys.

Variable Key_ID : metadata.Key.t -> string.
Variable rangeRoles :
  gmap string (option metadata.Role.t) -> list (string * option metadata.Role.t).

Local Abbreviation RootType_AddKey := (rolekeys.RootType_AddKey Key_ID).
Local Abbreviation RootType_RevokeKey := (rolekeys.RootType_RevokeKey rangeRoles).
Local Abbreviation TargetsType_AddKey := (rolekeys.TargetsType_AddKey Key_ID).


Hypothesis rangeRoles_visits : forall m, rangeRoles m ≡ₚ map_to_list m.

Lemma elem_of_rangeRoles m name o :
  (name, o) ∈ rangeRoles m <-> m !! name = Some o.
Proof. rewrite rangeRoles_visits. apply elem_of_map_to_list. Qed.

(** X10.  When [RootType.RevokeKey] returns no error, the role listed the
    key id and lists it no more, its other ids and the other roles stay,
    and the key leaves the key map exactly when no role lists its id any
    more: a root whose listed key ids all have their keys stays so. *)
Theorem RootType_RevokeKey_keeps_listed_keys (signed signed' : metadata.RootType.t)
    (keyID role : string) :
  RootType_RevokeKey signed keyID role = (Ok tt, signed') ->
  (exists r r',
      metadata.RootType.Roles signed !! role = Some (Some r)
      /\ keyID ∈ metadata.Role.KeyIDs r
      /\ metadata.RootType.Roles signed' !! role = Some (Some r')
      /\ metadata.Role.KeyIDs r' = filter (fun k => k ≠ keyID) (metadata.Role.KeyIDs r)
      /\ metadata.Role.Threshold r' = metadata.Role.Threshold r)
  /\ (forall other, other <> role ->
        metadata.RootType.Roles signed' !! other = metadata.RootType.Roles signed !! other)
  /\ ((exists name r, metadata.RootType.Roles signed' !! name = Some (Some r)
                      /\ keyID ∈ metadata.Role.KeyIDs r)
      /\ metadata.RootType.Keys signed' = metadata.RootType.Keys signed
      \/ (forall name r, metadata.RootType.Roles signed' !! name = Some (Some r) ->
                         keyID ∉ metadata.Role.KeyIDs r)
         /\ metadata.RootType.Keys signed' = delete keyID (metadata.RootType.Keys signed))
  /\ (rolekeys.keysListed signed -> rolekeys.keysListed signed').
Proof.
  unfold rolekeys.RootType_RevokeKey.
  destruct (metadata.RootType.Roles signed !! role) as [[r|]|] eqn:Hr; try discriminate.
  destruct (decide (keyID ∉ metadata.Role.KeyIDs r)) as [Hout|Hin]; [discriminate|].
  assert (Hin' : keyID ∈ metadata.Role.KeyIDs r).
  { destruct (decide (keyID ∈ metadata.Role.KeyIDs r)); [assumption|contradiction]. }
  cbn [metadata.RootType.Roles metadata.RootType.Keys rolekeys.withKeysRoles].
  set (roles' := <[role := Some (rolekeys.withKeyIDs r
                     (filter (fun k => k ≠ keyID) (metadata.Role.KeyIDs r)))]>
                   (metadata.RootType.Roles signed)).
  assert (Hlisted : forall keys',
             (forall id, id ≠ keyID -> keys' !! id = metadata.RootType.Keys signed !! id) ->
             (is_Some (keys' !! keyID)
              \/ forall name r0, roles' !! name = Some (Some r0) ->
                                 keyID ∉ metadata.Role.KeyIDs r0) ->
             rolekeys.keysListed signed ->
             rolekeys.keysListed (rolekeys.withKeysRoles signed keys' roles')).
  { intros keys' Hkeys Hkey Hk name r0 id. simpl. intros Hl Hid.
    destruct (decide (id = keyID)) as [->|Hne].
    { destruct Hkey as [Hs|Hnone]; [exact Hs|]. exfalso. exact (Hnone _ _ Hl Hid). }
    rewrite Hkeys by exact Hne.
    destruct (decide (name = role)) as [->|Hn].
    - subst roles'. rewrite lookup_insert_eq in Hl. injection Hl as <-. simpl in Hid.
      apply filter_ne_elem_of in Hid as [_ Hid]. eapply Hk; eauto.
    - subst roles'. rewrite lookup_insert_ne in Hl by congruence. eapply Hk; eauto. }
  assert (Hrole : exists r r',
             metadata.RootType.Roles signed !! role = Some (Some r)
             /\ keyID ∈ metadata.Role.KeyIDs r
             /\ roles' !! role = Some (Some r')
             /\ metadata.Role.KeyIDs r' = filter (fun k => k ≠ keyID) (metadata.Role.KeyIDs r)
             /\ metadata.Role.Threshold r' = metadata.Role.Threshold r).
  { exists r, (rolekeys.withKeyIDs r (filter (fun k => k ≠ keyID) (metadata.Role.KeyIDs r))).
    split; [exact Hr|]. split; [exact Hin'|]. subst roles'.
    rewrite lookup_insert_eq. auto. }
  assert (Hother : forall other, other <> role ->
             roles' !! other = metadata.RootType.Roles signed !! other).
  { intros other Ho. subst roles'. apply lookup_insert_ne. congruence. }
  destruct (rolekeys.usedBy keyID (rangeRoles roles')) as [[|]|e|] eqn:Hu; try discriminate.
  - intros [= <-]. cbn [metadata.RootType.Roles metadata.RootType.Keys rolekeys.withKeysRoles].
    apply usedBy_true in Hu as (name & r0 & Hn & Hr0). apply elem_of_rangeRoles in Hn.
    split; [rewrite <- Hr; exact Hrole|]. split; [exact Hother|]. split.
    + left. split; [eauto|reflexivity].
    + intros Hk. apply Hlisted; auto. left.
      destruct (decide (name = role)) as [->|Hne].
      * subst roles'. rewrite lookup_insert_eq in Hn. injection Hn as <-. simpl in Hr0.
        apply filter_ne_elem_of in Hr0 as [N _]. contradiction.
      * rewrite Hother in Hn by exact Hne. eapply Hk; eauto.
  - intros [= <-]. cbn [metadata.RootType.Roles metadata.RootType.Keys rolekeys.withKeysRoles].
    assert (Hnone : forall name r0, roles' !! name = Some (Some r0) ->
                                    keyID ∉ metadata.Role.KeyIDs r0).
    { intros name r0 Hl. destruct (proj1 (usedBy_false _ _) Hu name (Some r0))
        as (r1 & [= <-] & Hr1); [apply elem_of_rangeRoles; exact Hl|exact Hr1]. }
    split; [rewrite <- Hr; exact Hrole|]. split; [exact Hother|]. split.
    + right. split; [exact Hnone|reflexivity].
    + intros Hk. apply Hlisted; auto. intros id Hne. apply lookup_delete_ne. congruence.
Qed.


End RoleKeys.

Lemma AddKey_range_None (id role : string) (roles : list metadata.DelegatedRole.t) :
  rolekeys.AddKey_range id role roles = None <->
  Forall (fun r => metadata.DelegatedRole.Name r = role ->
                   id ∈ metadata.DelegatedRole.KeyIDs r) roles.
Proof.
  induction roles as [|d rest IH]; simpl.
  - split; [constructor|reflexivity].
  - rewrite Forall_cons.
    destruct (decide (metadata.DelegatedRole.Name d = role)) as [Hn|Hn].
    + destruct (decide (id ∉ metadata.DelegatedRole.KeyIDs d)) as [Hout|Hin].
      * split; [discriminate|]. intros [H _]. exfalso. exact (Hout (H Hn)).
      * rewrite fmap_None, IH. split; [|tauto]. intros H. split; [|exact H].
        intros _. destruct (decide (id ∈ metadata.DelegatedRole.KeyIDs d));
          [assumption|contradiction].
    + rewrite fmap_None, IH. split; [|tauto]. intros H. split; [|exact H].
      intros E. contradiction.
Qed.

Lemma AddKey_range_Some (id role : string) (roles roles' : list metadata.DelegatedRole.t) :
  rolekeys.AddKey_range id role roles = Some roles' ->
  exists pre r post,
    roles = (pre ++ r :: post)%list
    /\ metadata.DelegatedRole.Name r = role
    /\ (id ∉ metadata.DelegatedRole.KeyIDs r)
    /\ Forall (fun x => metadata.DelegatedRole.Name x = role ->
                        id ∈ metadata.DelegatedRole.KeyIDs x) pre
    /\ roles' = (pre ++ rolekeys.withDelegatedKeyIDs r
                          (metadata.DelegatedRole.KeyIDs r ++ [id]) :: post)%list.
Proof.
  revert roles'. induction roles as [|d rest IH]; intros roles'; simpl; [discriminate|].
  assert (Hskip : (metadata.DelegatedRole.Name d = role ->
                   id ∈ metadata.DelegatedRole.KeyIDs d) ->
                  ((fun r => d :: r) <$> rolekeys.AddKey_range id role rest) = Some roles' ->
                  exists pre r post,
                    d :: rest = (pre ++ r :: post)%list
                    /\ metadata.DelegatedRole.Name r = role
                    /\ (id ∉ metadata.DelegatedRole.KeyIDs r)
                    /\ Forall (fun x => metadata.DelegatedRole.Name x = role ->
                                        id ∈ metadata.DelegatedRole.KeyIDs x) pre
                    /\ roles' = (pre ++ rolekeys.withDelegatedKeyIDs r
                                   (metadata.DelegatedRole.KeyIDs r ++ [id]) :: post)%list).
  { intros Hd H. apply fmap_Some in H as (rs & Hrs & ->).
    destruct (IH _ Hrs) as (pre & r & post & -> & Hn & Hout & Hpre & ->).
    exists (d :: pre), r, post. repeat split; auto. }
  destruct (decide (metadata.DelegatedRole.Name d = role)) as [Hn|Hn].
  - destruct (decide (id ∉ metadata.DelegatedRole.KeyIDs d)) as [Hout|Hin].
    + intros [= <-]. exists [], d, rest. repeat split; auto.
    + apply Hskip. intros _.
      destruct (decide (id ∈ metadata.DelegatedRole.KeyIDs d)); [assumption|contradiction].
  - apply Hskip. intros E. contradiction.
Qed.


Lemma RevokeKey_range_Ok (keyID role : string) (roles roles' : list metadata.DelegatedRole.t) :
  rolekeys.RevokeKey_range keyID role roles = Ok roles' ->
  exists pre r post,
    roles = (pre ++ r :: post)%list
    /\ Forall (fun x => metadata.DelegatedRole.Name x ≠ role) pre
    /\ metadata.DelegatedRole.Name r = role
    /\ keyID ∈ metadata.DelegatedRole.KeyIDs r
    /\ roles' = (pre ++ rolekeys.withDelegatedKeyIDs r
                          (filter (fun k => k ≠ keyID) (metadata.DelegatedRole.KeyIDs r))
                     :: post)%list.
Proof.
  revert roles'. induction roles as [|d rest IH]; intros roles'; simpl; [discriminate|].
  destruct (decide (metadata.DelegatedRole.Name d = role)) as [Hn|Hn].
  - destruct (decide (keyID ∉ metadata.DelegatedRole.KeyIDs d)) as [Hout|Hin]; [discriminate|].
    intros [= <-]. exists [], d, rest. repeat split; auto.
    destruct (decide (keyID ∈ metadata.DelegatedRole.KeyIDs d)); [assumption|contradiction].
  - destruct (rolekeys.RevokeKey_range keyID role rest) as [rs|e|] eqn:E; try discriminate.
    simpl. intros [= <-].
    destruct (IH _ eq_refl) as (pre & r & post & -> & Hpre & Hr & Hin & ->).
    exists (d :: pre), r, post. repeat split; auto.
Qed.

Lemma RevokeKey_range_Err (keyID role : string) (roles : list metadata.DelegatedRole.t) :
  match rolekeys.RevokeKey_range keyID role roles with
  | Ok _ => True
  | Err e =>
      e = ErrValue
      /\ (Forall (fun x => metadata.DelegatedRole.Name x ≠ role) roles
          \/ exists pre r post,
               roles = (pre ++ r :: post)%list
               /\ Forall (fun x => metadata.DelegatedRole.Name x ≠ role) pre
               /\ metadata.DelegatedRole.Name r = role
               /\ keyID ∉ metadata.DelegatedRole.KeyIDs r)
  | Panic => False
  end.
Proof.
  induction roles as [|d rest IH]; simpl.
  - split; [reflexivity|]. left. constructor.
  - destruct (decide (metadata.DelegatedRole.Name d = role)) as [Hn|Hn].
    + destruct (decide (keyID ∉ metadata.DelegatedRole.KeyIDs d)) as [Hout|Hin]; [|exact I].
      split; [reflexivity|]. right. exists [], d, rest. repeat split; auto.
    + destruct (rolekeys.RevokeKey_range keyID role rest) as [rs|e|]; simpl; auto.
      destruct IH as [-> [H|(pre & r & post & -> & Hpre & Hr & Hout)]].
      * split; [reflexivity|]. left. constructor; auto.
      * split; [reflexivity|]. right. exists (d :: pre), r, post. repeat split; auto.
Qed.

(** X13.  [TargetsType.RevokeKey] looks at the first delegated role of the
    name only: it takes the key id from that role, and the key from the
    key map when no delegated role lists the id any more, so that the
    listed key ids keep their keys; it fails, with [ErrValue] and without
    a change, when there are no delegations, no role of the name, or when
    that first role does not list the id. *)
Theorem TargetsType_RevokeKey_first_role (signed : metadata.TargetsType.t)
    (keyID role : string) :
  match rolekeys.TargetsType_RevokeKey signed keyID role with
  | (Ok _, signed') =>
      exists d pre r post,
        metadata.TargetsType.Delegations signed = Some d
        /\ metadata.Delegations.Roles d = (pre ++ r :: post)%list
        /\ Forall (fun x => metadata.DelegatedRole.Name x ≠ role) pre
        /\ metadata.DelegatedRole.Name r = role
        /\ keyID ∈ metadata.DelegatedRole.KeyIDs r
        /\ (let roles' :=
              (pre ++ rolekeys.withDelegatedKeyIDs r
                        (filter (fun k => k ≠ keyID) (metadata.DelegatedRole.KeyIDs r))
                   :: post)%list in
            signed' =
            rolekeys.withDelegations signed
              {| metadata.Delegations.Keys :=
                   if decide (Exists (fun x => keyID ∈ metadata.DelegatedRole.KeyIDs x) roles')
                   then metadata.Delegations.Keys d
                   else delete keyID (metadata.Delegations.Keys d);
                 metadata.Delegations.Roles := roles' |})
        /\ (rolekeys.delegatedKeysListed signed -> rolekeys.delegatedKeysListed signed')
  | (Err e, signed') =>
      e = ErrValue /\ signed' = signed
      /\ (metadata.TargetsType.Delegations signed = None
          \/ exists d,
               metadata.TargetsType.Delegations signed = Some d
               /\ (Forall (fun x => metadata.DelegatedRole.Name x ≠ role)
                          (metadata.Delegations.Roles d)
                   \/ exists pre r post,
                        metadata.Delegations.Roles d = (pre ++ r :: post)%list
                        /\ Forall (fun x => metadata.DelegatedRole.Name x ≠ role) pre
                        /\ metadata.DelegatedRole.Name r = role
                        /\ keyID ∉ metadata.DelegatedRole.KeyIDs r))
  | (Panic, _) => False
  end.
Proof.
  unfold rolekeys.TargetsType_RevokeKey.
  destruct (metadata.TargetsType.Delegations signed) as [d|] eqn:Hd; [|auto].
  pose proof (RevokeKey_range_Err keyID role (metadata.Delegations.Roles d)) as Herr.
  destruct (rolekeys.RevokeKey_range keyID role (metadata.Delegations.Roles d))
    as [roles'|e|] eqn:E;
    [|destruct Herr as [-> H]; split; [reflexivity|]; split; [reflexivity|];
      right; exists d; split; [reflexivity|exact H]
     |exact Herr].
  clear Herr. apply RevokeKey_range_Ok in E as (pre & r & post & Hroles & Hpre & Hn & Hin & ->).
  set (roles' := (pre ++ rolekeys.withDelegatedKeyIDs r
                     (filter (fun k => k ≠ keyID) (metadata.DelegatedRole.KeyIDs r))
                   :: post)%list).
  assert (Hsub : forall x id, x ∈ roles' -> id ∈ metadata.DelegatedRole.KeyIDs x ->
                   exists y, y ∈ metadata.Delegations.Roles d
                             /\ id ∈ metadata.DelegatedRole.KeyIDs y).
  { intros x id Hx Hid. rewrite Hroles. subst roles'.
    apply elem_of_app in Hx as [Hx|Hx].
    - exists x. split; [apply elem_of_app; left|]; auto.
    - apply elem_of_cons in Hx as [->|Hx].
      + simpl in Hid. apply filter_ne_elem_of in Hid as [_ Hid].
        exists r. split; [apply elem_of_app; right; left|exact Hid].
      + exists x. split; [apply elem_of_app; right; right|]; auto. }
  assert (Hused : existsb (fun r0 => bool_decide (keyID ∈ metadata.DelegatedRole.KeyIDs r0)) roles'
                  = bool_decide (Exists (fun x => keyID ∈ metadata.DelegatedRole.KeyIDs x) roles')).
  { clearbody roles'. clear. induction roles' as [|x l IH]; simpl.
    - reflexivity.
    - rewrite IH. destruct (decide (keyID ∈ metadata.DelegatedRole.KeyIDs x)) as [Hx|Hx].
      + rewrite (bool_decide_eq_true_2 _ Hx). symmetry. apply bool_decide_eq_true.
        left. exact Hx.
      + rewrite (bool_decide_eq_false_2 _ Hx). simpl.
        apply bool_decide_ext. rewrite Exists_cons. tauto. }
  rewrite Hused.
  destruct (decide (Exists (fun x => keyID ∈ metadata.DelegatedRole.KeyIDs x) roles'))
    as [Hex|Hex].
  - rewrite (bool_decide_eq_true_2 _ Hex).
    exists d, pre, r, post. do 5 (split; [auto|]). split.
    { cbv zeta. fold roles'. destruct (decide _) as [_|N]; [reflexivity|contradiction]. }
    intros Hk d' x id. simpl. intros [= <-] Hx Hid. simpl in *.
    destruct (Hsub x id Hx Hid) as (y & Hy & Hidy). eapply Hk; eauto.
  - rewrite (bool_decide_eq_false_2 _ Hex).
    exists d, pre, r, post. do 5 (split; [auto|]). split.
    { cbv zeta. fold roles'. destruct (decide _) as [N|_]; [contradiction|reflexivity]. }
    intros Hk d' x id. simpl. intros [= <-] Hx Hid. simpl in *.
    destruct (decide (id = keyID)) as [->|Hne].
    + exfalso. apply Hex. apply Exists_exists. eauto.
    + rewrite lookup_delete_ne by congruence.
      destruct (Hsub x id Hx Hid) as (y & Hy & Hidy). eapply Hk; eauto.
Qed.


(** [RootType_RevokeKey_keeps_listed_keys] at a root whose role [root]
    lists the one key of the key map. *)
Lemma RootType_RevokeKey_keeps_listed_keys_witness :
  let signed :=
    metadata.Signed (fixture.rootWith ["K1"] {[ "K1" := fixture.key1 ]} []) in
  let signed' := (rolekeys.RootType_RevokeKey map_to_list signed "K1" "root").2 in
  metadata.RootType.Keys signed' = ∅
  /\ (rolekeys.keysListed signed -> rolekeys.keysListed signed').
Proof.
  cbv zeta.
  pose proof (RootType_RevokeKey_keeps_listed_keys map_to_list
                (fun m => reflexivity (map_to_list m))
                (metadata.Signed (fixture.rootWith ["K1"] {[ "K1" := fixture.key1 ]} []))
                (rolekeys.RootType_RevokeKey map_to_list
                   (metadata.Signed (fixture.rootWith ["K1"] {[ "K1" := fixture.key1 ]} []))
                   "K1" "root").2
                "K1" "root") as H.
  destruct H as (_ & _ & _ & H4); [vm_compute; reflexivity|].
  split; [vm_compute; reflexivity|exact H4].
Defined.


(** ** Signing *)

Section Signing.

Context {Signer PublicKey State : Type}.
Variable EncodeCanonical : metadata.AnySigned -> outcome bytes.
Variable SignMessage : Signer -> bytes -> State -> outcome bytes * State.
Variable Signer_PublicKey : Signer -> State -> outcome PublicKey * State.
Variable KeyFromPublicKey : PublicKey -> outcome metadata.Key.t.
Variable Key_ID : metadata.Key.t -> string.

Local Abbreviation Sign :=
  (signing.Sign EncodeCanonical SignMessage Signer_PublicKey KeyFromPublicKey Key_ID).

Lemma signedOf_toAny_Signed (T : metadata.Roles)
    (meta meta' : metadata.Metadata (metadata.typeOf T)) :
  metadata.Signed meta' = metadata.Signed meta ->
  metadata.signedOf (metadata.toAny meta') = metadata.signedOf (metadata.toAny meta).
Proof. destruct T; simpl; intros ->; reflexivity. Qed.

Lemma Sign_Ok (T : metadata.Roles) (meta meta' : metadata.Metadata (metadata.typeOf T))
    (signer : Signer) (sig : metadata.Signature.t) (st st' : State) :
  Sign T meta signer st = (Ok (sig, meta'), st') <->
  exists payload publ key st1,
    EncodeCanonical (metadata.signedOf (metadata.toAny meta)) = Ok payload
    /\ SignMessage signer payload st = (Ok (metadata.Signature.Signature sig), st1)
    /\ Signer_PublicKey signer st1 = (Ok publ, st')
    /\ KeyFromPublicKey publ = Ok key
    /\ metadata.Signature.KeyID sig = Key_ID key
    /\ meta' = {| metadata.Signed := metadata.Signed meta;
                  metadata.Signatures := (metadata.Signatures meta ++ [sig])%list |}.
Proof.
  unfold signing.Sign. split.
  - destruct (EncodeCanonical _) as [payload|e|] eqn:He; try discriminate.
    destruct (SignMessage signer payload st) as [[sb|e|] st1] eqn:Hs; try discriminate.
    destruct (Signer_PublicKey signer st1) as [[publ|e|] st2] eqn:Hp; try discriminate.
    destruct (KeyFromPublicKey publ) as [key|e|] eqn:Hk; try discriminate.
    intros [= <- <- <-]. exists payload, publ, key, st1. repeat split; auto.
  - intros (payload & publ & key & st1 & -> & Hs & Hp & Hk & Hid & ->).
    rewrite Hs, Hp, Hk. destruct sig as [id sb]. simpl in *. subst id. reflexivity.
Qed.


End Signing.


(** ** What threshold verification accepts *)

Section VerifyDelegate_sound.

Context {PublicKey Verifier : Type}.
Variable Key_ToPublicKey : option metadata.Key.t -> outcome PublicKey.
Variable LoadVerifier : PublicKey -> metadata.crypto_Hash -> outcome Verifier.
Variable EncodeCanonical : metadata.AnySigned -> outcome bytes.
Variable VerifySignature : Verifier -> bytes -> bytes -> option error.

Local Abbreviation VerifyDelegate_range :=
  (metadata.VerifyDelegate_range Key_ToPublicKey LoadVerifier EncodeCanonical VerifySignature).
Local Abbreviation VerifyDelegate :=
  (metadata.VerifyDelegate Key_ToPublicKey LoadVerifier EncodeCanonical VerifySignature).
Local Abbreviation keyVerifies :=
  (metadata.keyVerifies Key_ToPublicKey LoadVerifier EncodeCanonical VerifySignature).
Local Abbreviation verifiedCount :=
  (metadata.verifiedCount Key_ToPublicKey LoadVerifier EncodeCanonical VerifySignature).
Local Abbreviation keyLoads := (metadata.keyLoads Key_ToPublicKey LoadVerifier).

(** A loop that ends without an error has loaded every key of the role,
    and encoded the document when the role has a key. *)
Lemma VerifyDelegate_range_Ok keys delegated_metadata ids acc signing_keys :
  VerifyDelegate_range keys delegated_metadata ids acc = Ok signing_keys ->
  Forall (keyLoads keys) ids
  /\ (ids <> [] ->
      exists d payload,
        delegated_metadata = Some d /\ EncodeCanonical (metadata.signedOf d) = Ok payload).
Proof.
  revert acc. induction ids as [|v ids IH]; intros acc; simpl.
  - intros _. split; [constructor|congruence].
  - destruct (keys !! v) as [k|] eqn:Hk.
    2:{ destruct (Key_ToPublicKey None); discriminate. }
    destruct (Key_ToPublicKey (Some k)) as [key|e|] eqn:Hp; cbn [obind]; try discriminate.
    destruct (LoadVerifier key _) as [verifier|e|] eqn:Hv; cbn [obind]; try discriminate.
    destruct delegated_metadata as [d|]; [|discriminate].
    destruct (EncodeCanonical (metadata.signedOf d)) as [payload|e|] eqn:He; cbn [obind];
      try discriminate.
    intros H. apply IH in H as [Hl _]. split.
    + constructor; [|exact Hl]. exists k, key, verifier. auto.
    + intros _. exists d, payload. auto.
Qed.

(** X15.  [VerifyDelegate] never accepts a document on fewer verified
    keys than the threshold: when it returns no error, the delegator
    resolves the role to a list of key ids that is not empty, all of whose
    keys load, and the number of distinct key ids of the role whose
    signature verifies reaches the threshold.  A delegated value that is
    no metadata of the four roles is never accepted. *)
Theorem VerifyDelegate_accepts_at_threshold_only (meta : metadata.AnyMetadata)
    (delegated_role : string) :
  VerifyDelegate meta delegated_role None <> Ok tt
  /\ forall d,
      VerifyDelegate meta delegated_role (Some d) = Ok tt ->
      exists keys roleKeyIDs roleThreshold,
        metadata.delegationOf meta delegated_role = Ok (keys, roleKeyIDs, roleThreshold)
        /\ roleKeyIDs <> []
        /\ Forall (keyLoads keys) roleKeyIDs
        /\ roleThreshold <= verifiedCount keys d roleKeyIDs.
Proof.
  unfold metadata.VerifyDelegate.
  destruct (metadata.delegationOf meta delegated_role) as [[[keys ids] th]|e|];
    cbn [obind]; [|split; [discriminate|intros d; discriminate]..].
  destruct (decide (List.length ids = 0%nat)) as [E|Hne];
    [split; [discriminate|intros d; discriminate]|].
  assert (Hids : ids <> []) by (intros ->; apply Hne; reflexivity).
  split.
  - destruct (VerifyDelegate_range keys None ids ∅) as [s|e|] eqn:Hr; cbn [obind];
      try discriminate.
    apply VerifyDelegate_range_Ok in Hr as [_ Hd].
    destruct (Hd Hids) as (d & payload & Habs & _). discriminate.
  - intros d. destruct (VerifyDelegate_range keys (Some d) ids ∅) as [s|e|] eqn:Hr;
      cbn [obind]; try discriminate.
    pose proof Hr as Hr'. apply VerifyDelegate_range_Ok in Hr' as [Hl Hd].
    destruct (Hd Hids) as (d' & payload & [= <-] & He).
    rewrite (VerifyDelegate_range_loads _ _ _ _ keys d ids ∅ payload Hl He) in Hr.
    injection Hr as <-. rewrite (left_id_L ∅ (∪)).
    destruct (decide (_ < th)) as [Hlt|Hge]; [discriminate|]. intros _.
    exists keys, ids, th. repeat split; auto. unfold metadata.verifiedCount. lia.
Qed.

End VerifyDelegate_sound.

(** ** From a key to a verified signature *)

Section SignThenVerify.

Context {Signer PublicKey State VerifierKey Verifier : Type}.
Variable EncodeCanonical : metadata.AnySigned -> outcome bytes.
Variable SignMessage : Signer -> bytes -> State -> outcome bytes * State.
Variable Signer_PublicKey : Signer -> State -> outcome PublicKey * State.
Variable KeyFromPublicKey : PublicKey -> outcome metadata.Key.t.
Variable Key_ID : metadata.Key.t -> string.
Variable Key_ToPublicKey : option metadata.Key.t -> outcome VerifierKey.
Variable LoadVerifier : VerifierKey -> metadata.crypto_Hash -> outcome Verifier.
Variable VerifySignature : Verifier -> bytes -> bytes -> option error.

Lemma signatureFor_snoc (sigs : list metadata.Signature.t) (sig : metadata.Signature.t) :
  metadata.signatureFor (metadata.Signature.KeyID sig) (sigs ++ [sig]) = sig.
Proof.
  unfold metadata.signatureFor. rewrite foldl_snoc.
  destruct (decide _) as [_|N]; [reflexivity|contradiction].
Qed.

Lemma Root_Roles (now : metadata.Time) (expires : list metadata.Time) (role : string) :
  role ∈ [metadata.ROOT; metadata.SNAPSHOT; metadata.TARGETS; metadata.TIMESTAMP] ->
  metadata.RootType.Roles (metadata.Signed (metadata.Root now expires)) !! role
  = Some (Some {| metadata.Role.KeyIDs := []; metadata.Role.Threshold := 1 |}).
Proof.
  intros H. repeat (apply elem_of_cons in H as [->|H]; [vm_compute; reflexivity|]).
  inversion H.
Qed.

(** X16.  The root a constructor builds, with a key added to one of its
    four roles by [AddKey], accepts for that role any document that
    [Sign] has signed with the signer of that key, whatever other
    signatures the document carries, provided the key loads as a verifier
    that accepts what the signer signs. *)
Theorem VerifyDelegate_after_AddKey_and_Sign (now : metadata.Time)
    (expires : list metadata.Time) (key : metadata.Key.t) (role : string)
    (T : metadata.Roles) (doc doc' : metadata.Metadata (metadata.typeOf T))
    (signer : Signer) (st st' : State) (sig : metadata.Signature.t) (publ : VerifierKey)
    (verifier : Verifier) :
  let root : metadata.Metadata metadata.RootType.t :=
    {| metadata.Signed :=
         (rolekeys.RootType_AddKey Key_ID (metadata.Signed (metadata.Root now expires))
            key role).2;
       metadata.Signatures := [] |} in
  role ∈ [metadata.ROOT; metadata.SNAPSHOT; metadata.TARGETS; metadata.TIMESTAMP] ->
  signing.Sign EncodeCanonical SignMessage Signer_PublicKey KeyFromPublicKey Key_ID
    T doc signer st = (Ok (sig, doc'), st') ->
  metadata.Signature.KeyID sig = Key_ID key ->
  Key_ToPublicKey (Some key) = Ok publ ->
  LoadVerifier publ (if decide (metadata.Key.Type_ key ≠ metadata.KeyTypeEd25519)
                     then metadata.SHA256 else metadata.Hash0) = Ok verifier ->
  (forall payload st0 st1,
      SignMessage signer payload st0 = (Ok (metadata.Signature.Signature sig), st1) ->
      VerifySignature verifier (metadata.Signature.Signature sig) payload = None) ->
  metadata.VerifyDelegate Key_ToPublicKey LoadVerifier EncodeCanonical VerifySignature
    (metadata.OfRoot root) role (Some (metadata.toAny doc')) = Ok tt.
Proof.
  intros root Hrole Hsign Hid Hp Hv Hok. subst root.
  apply Sign_Ok in Hsign as (payload & publ' & key' & st1 & He & Hs & _ & _ & _ & ->).
  unfold metadata.VerifyDelegate, metadata.delegationOf, rolekeys.RootType_AddKey.
  rewrite (Root_Roles now expires role Hrole).
  cbn [metadata.Signed snd metadata.RootType.Roles metadata.RootType.Keys
       rolekeys.withKeysRoles metadata.Role.KeyIDs].
  destruct (decide (Key_ID key ∉ [])) as [_|N]; [|exfalso; apply N; intros H; inversion H].
  rewrite lookup_insert_eq. cbn [obind rolekeys.withKeyIDs metadata.Role.KeyIDs
                                  metadata.Role.Threshold app].
  destruct (decide (List.length [Key_ID key] = 0%nat)) as [E|_]; [discriminate E|].
  cbn [metadata.VerifyDelegate_range]. rewrite lookup_insert_eq, Hp. cbn [obind].
  rewrite Hv. cbn [obind].
  assert (Hsigned : metadata.signedOf (metadata.toAny
                      {| metadata.Signed := metadata.Signed doc;
                         metadata.Signatures := (metadata.Signatures doc ++ [sig])%list |})
                    = metadata.signedOf (metadata.toAny doc))
    by (apply signedOf_toAny_Signed; reflexivity).
  assert (Hsigs : metadata.signaturesOf (metadata.toAny
                    {| metadata.Signed := metadata.Signed doc;
                       metadata.Signatures := (metadata.Signatures doc ++ [sig])%list |})
                  = (metadata.Signatures doc ++ [sig])%list)
    by (destruct T; reflexivity).
  rewrite Hsigned, Hsigs, He. cbn [obind].
  rewrite <- Hid, signatureFor_snoc, (Hok payload st st1 Hs).
  rewrite size_union by set_solver. rewrite size_singleton, size_empty.
  destruct (decide (_ < 1)) as [Hlt|_]; [simpl in Hlt; lia|reflexivity].
Qed.

End SignThenVerify.

(** [VerifyDelegate_after_AddKey_and_Sign] for a timestamp signed with the
    key [K1] of the fixtures, on top of a signature of another key. *)
Lemma VerifyDelegate_after_AddKey_and_Sign_witness :
  let root : metadata.Metadata metadata.RootType.t :=
    {| metadata.Signed :=
         (rolekeys.RootType_AddKey signers.Key_ID (metadata.Signed (metadata.Root 0 []))
            fixture.key1 "timestamp").2;
       metadata.Signatures := [] |} in
  let other := {| metadata.Signature.KeyID := "K2"; metadata.Signature.Signature := [] |} in
  let sig := {| metadata.Signature.KeyID := "K1";
                metadata.Signature.Signature :=
                  fixture.sign "K1" (String.list_byte_of_string "timestamp") |} in
  let doc' : metadata.Metadata metadata.TimestampType.t :=
    {| metadata.Signed := metadata.Signed (metadata.Timestamp 0 []);
       metadata.Signatures := [other; sig] |} in
  metadata.VerifyDelegate fixture.Key_ToPublicKey fixture.LoadVerifier
    fixture.EncodeCanonical fixture.VerifySignature
    (metadata.OfRoot root) "timestamp" (Some (metadata.OfTimestamp doc')) = Ok tt.
Proof.
  cbv zeta.
  apply (VerifyDelegate_after_AddKey_and_Sign fixture.EncodeCanonical signers.SignMessage
           signers.Signer_PublicKey signers.KeyFromPublicKey signers.Key_ID
           fixture.Key_ToPublicKey fixture.LoadVerifier fixture.VerifySignature
           0 [] fixture.key1 "timestamp" metadata.TimestampRole
           {| metadata.Signed := metadata.Signed (metadata.Timestamp 0 []);
              metadata.Signatures :=
                [ {| metadata.Signature.KeyID := "K2"; metadata.Signature.Signature := [] |} ] |}
           _ "K1" 0%nat 1%nat
           {| metadata.Signature.KeyID := "K1";
              metadata.Signature.Signature :=
                fixture.sign "K1" (String.list_byte_of_string "timestamp") |}
           "K1" "K1").
  - vm_compute. repeat constructor.
  - reflexivity.
  - reflexivity.
  - reflexivity.
  - reflexivity.
  - intros payload st0 st1 [= H _]. unfold fixture.VerifySignature, fixture.sign in *. simpl.
    subst payload.
    destruct (decide _) as [_|N]; [reflexivity|contradiction].
Defined.

(** ** URLs *)

Lemma substring_end (s : string) :
  String.substring (String.length s) 1 (s ++ "/") = "/".
Proof. induction s as [|c s IH]; [reflexivity|exact IH]. Qed.

Lemma length_append_slash (s : string) :
  String.length (s ++ "/") = S (String.length s).
Proof. induction s as [|c s IH]; simpl; [reflexivity|]. f_equal. exact IH. Qed.

(** X17.  [ensureTrailingSlash] returns a URL that ends with a slash,
    leaves alone exactly the URLs that end with one already, and changes
    nothing when it is applied again. *)
Theorem ensureTrailingSlash_ends_with_slash (url : string) :
  strings.HasSuffix (targets.ensureTrailingSlash url) "/" = true
  /\ (targets.ensureTrailingSlash url = url <-> strings.HasSuffix url "/" = true)
  /\ targets.ensureTrailingSlash (targets.ensureTrailingSlash url)
     = targets.ensureTrailingSlash url.
Proof.
  assert (Hends : strings.HasSuffix (url ++ "/") "/" = true).
  { unfold strings.HasSuffix. rewrite length_append_slash. simpl.
    rewrite Nat.sub_0_r, substring_end. reflexivity. }
  assert (H1 : strings.HasSuffix (targets.ensureTrailingSlash url) "/" = true).
  { unfold targets.ensureTrailingSlash.
    destruct (strings.HasSuffix url "/") eqn:E; [exact E|exact Hends]. }
  split; [exact H1|]. split.
  - unfold targets.ensureTrailingSlash.
    destruct (strings.HasSuffix url "/") eqn:E; [tauto|].
    split; [|discriminate]. intros H. apply (f_equal String.length) in H.
    rewrite length_append_slash in H. lia.
  - unfold targets.ensureTrailingSlash at 1. rewrite H1. reflexivity.
Qed.

(** ** The requests of the top-level roles *)

Lemma TargetFiles_VerifyLengthHashes_None sha256 sha512 (f : metadata.TargetFiles.t)
    (data : bytes) :
  metadata.TargetFiles_VerifyLengthHashes sha256 sha512 f data = None ->
  metadata.TargetFiles.Length f = Z.of_nat (List.length data)
  /\ forall k v, metadata.TargetFiles.Hashes f !! k = Some v ->
                 (k = "sha256" /\ v = sha256 data) \/ (k = "sha512" /\ v = sha512 data).
Proof.
  unfold metadata.TargetFiles_VerifyLengthHashes.
  destruct (metadata.verifyHashes sha256 sha512 data (metadata.TargetFiles.Hashes f)) eqn:E;
    [discriminate|].
  unfold metadata.verifyLength. destruct (decide (_ ≠ _)) as [N|Hlen]; [discriminate|].
  intros _. split.
  - destruct (decide (metadata.TargetFiles.Length f = Z.of_nat (List.length data)));
      [assumption|contradiction].
  - intros k v Hkv. apply verifyHash_None. unfold metadata.verifyHashes in E.
    rewrite verifyHashes_range_None, Forall_forall in E.
    apply (E (k, v)). apply elem_of_map_to_list. exact Hkv.
Qed.

Lemma TargetFiles_VerifyLengthHashes_kind sha256 sha512 (f : metadata.TargetFiles.t)
    (data : bytes) e :
  metadata.TargetFiles_VerifyLengthHashes sha256 sha512 f data = Some e ->
  e = ErrLengthOrHashMismatch.
Proof.
  unfold metadata.TargetFiles_VerifyLengthHashes.
  destruct (metadata.verifyHashes sha256 sha512 data (metadata.TargetFiles.Hashes f)) eqn:E.
  - intros [= <-]. eapply verifyHashes_range_kind. exact E.
  - unfold metadata.verifyLength. destruct (decide (_ ≠ _)); congruence.
Qed.

Lemma pretty_N_go_nonempty (x : N) (s : string) : s <> "" -> pretty_N_go x s <> "".
Proof.
  revert s. induction (N.lt_wf_0 x) as [x _ IH]; intros s Hs.
  assert (x = 0 \/ 0 < x)%N as [->|Hx] by lia.
  - rewrite pretty_N_go_0. exact Hs.
  - rewrite pretty_N_go_step by exact Hx. apply IH; [|discriminate].
    apply N.div_lt; [exact Hx|reflexivity].
Qed.

(** A version number is never written as the empty string. *)
Lemma FormatInt_nonempty (i : Z) : strconv.FormatInt i <> "".
Proof.
  assert (Hpos : forall p : positive, pretty p <> "").
  { intros p. unfold pretty, pretty_positive, pretty, pretty_N.
    destruct (decide (N.pos p = 0%N)) as [E|_]; [discriminate E|].
    rewrite pretty_N_go_step by lia. apply pretty_N_go_nonempty. discriminate. }
  unfold strconv.FormatInt, pretty, pretty_Z. destruct i as [|p|p].
  - discriminate.
  - apply Hpos.
  - discriminate.
Qed.

Section Requests.

Context {World : Type}.
Variable ext : updater.Externals World.

Import updater.

Ltac solve_steady :=
  repeat first
    [ apply steady_ret | apply steady_fail | apply steady_get | apply steady_call
    | apply steady_update | apply steady_persistMetadata
    | apply steady_bind; [|intros ?] | apply steady_try; [|intros [?|?]]
    | progress cbv zeta
    | match goal with
      | |- @steady _ _ (match ?x with _ => _ end) => destruct x
      | |- @steady _ _ (if ?x then _ else _) => destruct x
      end ].

Lemma bind_run {A B} (c : @M World A) (k : A -> @M World B) u :
  bind c k u
  = match c u with
    | (Ok a, u1) => k a u1
    | (Err e, u1) => (Err e, u1)
    | (Panic, u1) => (Panic, u1)
    end.
Proof. unfold bind, try, fail. destruct (c u) as [[a|e|] u1]; reflexivity. Qed.

Lemma try_run {A B} (c : @M World A) (k : A + error -> @M World B) u :
  try c k u
  = match c u with
    | (Ok a, u1) => k (inl a) u1
    | (Err e, u1) => k (inr e) u1
    | (Panic, u1) => (Panic, u1)
    end.
Proof. reflexivity. Qed.

Lemma call_run {A} (f : World -> outcome A * World) u :
  call f u = ((f (world u)).1, state.setWorld u (f (world u)).2).
Proof. unfold call, state.setWorld. destruct (f (world u)); reflexivity. Qed.

Lemma update_run {A}
    (f : trustedmetadata.TrustedMetadata -> World ->
         outcome A * trustedmetadata.TrustedMetadata) u :
  update f u = ((f (trusted u) (world u)).1, state.setTrusted u (f (trusted u) (world u)).2).
Proof. unfold update, state.setTrusted. destruct (f (trusted u) (world u)); reflexivity. Qed.

Lemma bind_downloadMetadata {A} roleName length version (k : bytes -> @M World A) u :
  (forall data, steady (k data)) ->
  trace (bind (downloadMetadata ext roleName length version) k u).2
  = (trace u ++ [Download (metadataUrl (metadataBaseUrl u) roleName version) length])%list.
Proof.
  intros Hk. unfold bind.
  apply (downloadMetadata_then ext roleName length version
           (fun r => match r with inl a => k a | inr e => fail e end) u).
  intros [data|e]; [apply Hk|apply steady_fail].
Qed.

(** X18.  [loadTimestamp] asks the repository for one file at most: the
    timestamp without a version in its name, under the base URL of the
    metadata, capped by [TimestampMaxLength]; whatever the local copy
    holds, a run that returns no error has made this request. *)
Theorem loadTimestamp_requests_unversioned_timestamp (u : Updater World) :
  let r := loadTimestamp ext u in
  let request :=
    Download (metadataBaseUrl u ++ "timestamp.json") (config.TimestampMaxLength (cfg u)) in
  (trace r.2 = trace u \/ trace r.2 = (trace u ++ [request])%list)
  /\ (r.1 = Ok tt -> trace r.2 = (trace u ++ [request])%list)
  /\ cfg r.2 = cfg u.
Proof.
  intros r request. subst r request.
  assert (H : (loadTimestamp ext u).1 = Ok tt
              /\ trace (loadTimestamp ext u).2
                 = (trace u ++ [Download (metadataBaseUrl u ++ "timestamp.json")
                                  (config.TimestampMaxLength (cfg u))])%list
              \/ (loadTimestamp ext u).1 <> Ok tt
                 /\ (trace (loadTimestamp ext u).2 = trace u
                     \/ trace (loadTimestamp ext u).2
                        = (trace u ++ [Download (metadataBaseUrl u ++ "timestamp.json")
                                         (config.TimestampMaxLength (cfg u))])%list)).
  { unfold loadTimestamp. rewrite bind_run.
    match goal with
    | |- context [match ?c ?x with _ => _ end] =>
        assert (Hc : steady c)
          by (unfold loadLocalMetadata, readFile; solve_steady;
              destruct (isErrRepository _); solve_steady);
        destruct (Hc x) as (Hcfg & Hbase & Htr); destruct (c x) as [[[]|e|] u1]
    end; cbn [fst snd] in *.
    - rewrite bind_get.
      rewrite bind_downloadMetadata
        by (intros data; solve_steady; destruct (decide _); solve_steady).
      rewrite Htr, Hbase, Hcfg.
      change (metadataUrl (metadataBaseUrl u) metadata.TIMESTAMP "")
        with (metadataBaseUrl u ++ "timestamp.json").
      match goal with
      | |- ?o = Ok tt /\ _ \/ _ => destruct o as [[]|e|] eqn:Ho
      end; [left|right; split; [discriminate|]|right; split; [discriminate|]]; auto.
    - right. split; [discriminate|]. left. exact Htr.
    - right. split; [discriminate|]. left. exact Htr. }
  split; [|split]; [| |apply (quiet_loadTimestamp ext)].
  - destruct H as [[_ H]|[_ H]]; [right; exact H|exact H].
  - intros Hok. destruct H as [[_ H]|[N _]]; [exact H|contradiction].
Qed.

(** X19.  [loadSnapshot] makes no request when the trusted set takes the
    local snapshot.  Without a local snapshot it fails, before any
    request, when there is no trusted timestamp; with one it makes one
    request, for the snapshot of the version the timestamp records when
    the root asks for consistent snapshots, capped by the length the
    timestamp records, or by [SnapshotMaxLength] when that length is
    zero. *)
Theorem loadSnapshot_requests (u : Updater World) :
  let r := loadSnapshot ext u in
  let local := os_ReadFile ext "snapshot.json" (world u) in
  (forall data w s t,
      local = (Ok data, w) ->
      UpdateSnapshot ext data true (trusted u) w = (Ok s, t) ->
      r.1 = Ok tt /\ trace r.2 = trace u /\ world r.2 = w /\ trusted r.2 = t)
  /\ (forall e w,
        local = (Err e, w) ->
        match trustedmetadata.Timestamp (trusted u) with
        | None =>
            r.1 = Err (errorString "trusted timestamp not set")
            /\ trace r.2 = trace u /\ world r.2 = w
        | Some timestamp =>
            let snapshotMeta :=
              metaAt (metadata.TimestampType.Meta (metadata.Signed timestamp))
                "snapshot.json" in
            let length :=
              if decide (metadata.MetaFiles.Length snapshotMeta = 0)
              then config.SnapshotMaxLength (cfg u)
              else metadata.MetaFiles.Length snapshotMeta in
            let name :=
              if metadata.RootType.ConsistentSnapshot
                   (metadata.Signed (trustedmetadata.Root (trusted u)))
              then strconv.FormatInt (metadata.MetaFiles.Version snapshotMeta)
                   ++ ".snapshot.json"
              else "snapshot.json" in
            trace r.2 = (trace u ++ [Download (metadataBaseUrl u ++ name) length])%list
        end).
Proof.
  intros r local. subst r local.
  split.
  - intros data w s t Hread Hupd.
    assert (Hrun : loadSnapshot ext u
                   = (Ok tt, state.setWorld (state.setTrusted (state.setWorld u w) t) w)).
    { unfold loadSnapshot. rewrite try_run. unfold loadLocalMetadata, readFile.
      change (url.QueryEscape metadata.SNAPSHOT ++ ".json") with "snapshot.json".
      rewrite call_run, Hread. cbn [fst snd]. rewrite try_run, update_run.
      cbn [trusted world state.setWorld]. rewrite Hupd. reflexivity. }
    rewrite Hrun. cbn. auto.
  - intros e w Hread.
    destruct (trustedmetadata.Timestamp (trusted u)) as [timestamp|] eqn:Hts.
    + cbv zeta.
      assert (Hrun : exists k : bytes -> @M World unit,
                 (forall data, steady (k data))
                 /\ loadSnapshot ext u
                    = bind (downloadMetadata ext metadata.SNAPSHOT
                              (if decide (metadata.MetaFiles.Length
                                            (metaAt (metadata.TimestampType.Meta
                                                       (metadata.Signed timestamp))
                                               "snapshot.json") = 0)
                               then config.SnapshotMaxLength (cfg u)
                               else metadata.MetaFiles.Length
                                      (metaAt (metadata.TimestampType.Meta
                                                 (metadata.Signed timestamp))
                                         "snapshot.json"))
                              (if metadata.RootType.ConsistentSnapshot
                                    (metadata.Signed (trustedmetadata.Root (trusted u)))
                               then strconv.FormatInt
                                      (metadata.MetaFiles.Version
                                         (metaAt (metadata.TimestampType.Meta
                                                    (metadata.Signed timestamp))
                                            "snapshot.json"))
                               else ""))
                        k (state.setWorld u w)).
      { eexists. split; [|unfold loadSnapshot; rewrite try_run;
                          unfold loadLocalMetadata, readFile;
                          change (url.QueryEscape metadata.SNAPSHOT ++ ".json")
                            with "snapshot.json";
                          rewrite call_run, Hread; cbn [fst snd]; rewrite bind_get;
                          cbn [trusted state.setWorld]; rewrite Hts, !bind_get; reflexivity].
        intros data. solve_steady. }
      destruct Hrun as (k & Hk & ->). rewrite (bind_downloadMetadata _ _ _ _ _ Hk).
      cbn [trace metadataBaseUrl state.setWorld]. do 2 f_equal. unfold metadataUrl.
      destruct (metadata.RootType.ConsistentSnapshot _).
      * destruct (decide (strconv.FormatInt _ = "")) as [E|_]; [|reflexivity].
        exfalso. exact (FormatInt_nonempty _ E).
      * reflexivity.
    + assert (Hrun : loadSnapshot ext u
                     = (Err (errorString "trusted timestamp not set"), state.setWorld u w)).
      { unfold loadSnapshot. rewrite try_run. unfold loadLocalMetadata, readFile.
        change (url.QueryEscape metadata.SNAPSHOT ++ ".json") with "snapshot.json".
        rewrite call_run, Hread. cbn [fst snd]. rewrite bind_get.
        cbn [trusted state.setWorld]. rewrite Hts. reflexivity. }
      rewrite Hrun. cbn. auto.
Qed.

(** X20.  With the top-level targets in the trusted set, [GetTargetInfo]
    answers for a path this document lists from the trusted set alone: it
    calls [loadTargets] once, for [targets], and leaves the disk, the
    network and the trusted set as they are.  With a negative
    [MaxDelegations] the same lookup fails, as not found, before any
    role is loaded. *)
Theorem GetTargetInfo_trusted_targets (fuel : nat) (targetPath : string)
    (u : Updater World) (targets : metadata.Metadata metadata.TargetsType.t)
    (target : metadata.TargetFiles.t) :
  trustedmetadata.Targets (trusted u) !! metadata.TARGETS = Some targets ->
  metadata.TargetsType.Targets (metadata.Signed targets) !! targetPath = Some target ->
  (0 <= config.MaxDelegations (cfg u) ->
   exists u',
     GetTargetInfo ext (S fuel) targetPath u = Some (Ok target, u')
     /\ world u' = world u /\ trusted u' = trusted u
     /\ trace u' = (trace u ++ [LoadTargets metadata.TARGETS metadata.ROOT])%list)
  /\ (config.MaxDelegations (cfg u) < 0 ->
      GetTargetInfo ext (S fuel) targetPath u
      = Some (Err (errorString ("target " ++ targetPath ++ " not found")), u)).
Proof.
  intros Ht Hf. unfold GetTargetInfo. rewrite Ht.
  destruct (decide (Some targets = None)) as [E|_]; [discriminate E|].
  unfold preOrderDepthFirstWalk. cbn [preOrderDepthFirstWalk_loop].
  rewrite size_empty. split.
  - intros Hmax. destruct (decide _) as [_|N]; [|exfalso; apply N; simpl; lia].
    cbn [pop rev app]. destruct (decide (_ ∈ ∅)) as [Hin|_]; [set_solver|].
    cbn [Role Parent]. unfold loadTargets. rewrite bind_log, bind_get. cbn [trusted].
    rewrite Ht. cbn [ret]. rewrite Hf. eexists. split; [reflexivity|]. auto.
  - intros Hmax. destruct (decide _) as [[H _]|_]; [simpl in H; lia|reflexivity].
Qed.

Lemma loaded_app (evs evs' : list event) :
  loaded (evs ++ evs') = (loaded evs ++ loaded evs')%list.
Proof. apply omap_app. Qed.

Lemma loaded_LoadTargets roleName parentName (evs : list event) :
  loaded (LoadTargets roleName parentName :: evs) = roleName :: loaded evs.
Proof. reflexivity. Qed.

(** X21.  [Refresh] calls [loadTargets] for the top-level [targets] and
    for no other role, once at most, and once when it returns no error:
    the delegated roles are left to [GetTargetInfo]. *)
Theorem Refresh_loads_top_level_targets_only (u : Updater World) :
  exists evs,
    trace (Refresh ext u).2 = (trace u ++ evs)%list
    /\ (loaded evs = [] \/ loaded evs = [metadata.TARGETS])
    /\ ((Refresh ext u).1 = Ok tt -> loaded evs = [metadata.TARGETS]).
Proof.
  unfold Refresh. rewrite bind_run.
  destruct (quiet_loadRoot ext u) as (_ & evs1 & H1 & L1).
  destruct (loadRoot ext u) as [[[]|e|] u1]; cbn [fst snd] in *;
    [|exists evs1; split; [exact H1|split; [left; exact L1|discriminate]]..].
  rewrite bind_run.
  destruct (quiet_loadTimestamp ext u1) as (_ & evs2 & H2 & L2).
  assert (L12 : loaded (evs1 ++ evs2) = []).
  { rewrite loaded_app, L1, L2. reflexivity. }
  destruct (loadTimestamp ext u1) as [[[]|e|] u2]; cbn [fst snd] in *;
    [|exists (evs1 ++ evs2)%list; rewrite H2, H1, app_assoc;
      split; [reflexivity|split; [left; exact L12|discriminate]]..].
  rewrite bind_run.
  destruct (quiet_loadSnapshot ext u2) as (_ & evs3 & H3 & L3).
  assert (L123 : loaded ((evs1 ++ evs2) ++ evs3) = []).
  { rewrite loaded_app, L12, L3. reflexivity. }
  destruct (loadSnapshot ext u2) as [[[]|e|] u3]; cbn [fst snd] in *;
    [|exists ((evs1 ++ evs2) ++ evs3)%list; rewrite H3, H2, H1, !app_assoc;
      split; [reflexivity|split; [left; exact L123|discriminate]]..].
  rewrite bind_run.
  destruct (loadTargets_trace ext metadata.TARGETS metadata.ROOT u3) as (_ & evs4 & H4 & L4).
  exists (((evs1 ++ evs2) ++ evs3) ++ LoadTargets metadata.TARGETS metadata.ROOT :: evs4)%list.
  assert (L : loaded (((evs1 ++ evs2) ++ evs3)
                      ++ LoadTargets metadata.TARGETS metadata.ROOT :: evs4)
              = [metadata.TARGETS]).
  { rewrite loaded_app, L123, loaded_LoadTargets, L4. reflexivity. }
  split; [|split; [right; exact L|intros _; exact L]].
  destruct (loadTargets ext metadata.TARGETS metadata.ROOT u3) as [[t|e|] u4];
    cbn [fst snd ret] in *; rewrite H4, H3, H2, H1, !app_assoc; reflexivity.
Qed.

End Requests.

(** [GetTargetInfo_trusted_targets] for an updater that trusts a
    top-level targets document with one file. *)
Lemma GetTargetInfo_trusted_targets_witness :
  let ext := fixture.externals fixture.serveAll ∅ (fun l => l) in
  let u :=
    fixture.updaterOf (fixture.cfg 32 32) None None
      {[ "targets" := fixture.targetsDoc [fixture.file "a/b" 3] None ]} in
  exists u',
    updater.GetTargetInfo ext 1 "a/b" u = Some (Ok (fixture.file "a/b" 3).2, u')
    /\ updater.world u' = updater.world u
    /\ updater.trusted u' = updater.trusted u
    /\ updater.trace u' = [updater.LoadTargets "targets" "root"].
Proof.
  cbv zeta.
  refine (proj1 (GetTargetInfo_trusted_targets
                   (fixture.externals fixture.serveAll ∅ (fun l => l)) 0 "a/b"
                   (fixture.updaterOf (fixture.cfg 32 32) None None
                      {[ "targets" := fixture.targetsDoc [fixture.file "a/b" 3] None ]})
                   (fixture.targetsDoc [fixture.file "a/b" 3] None)
                   (fixture.file "a/b" 3).2 _ _) _).
  - vm_compute. reflexivity.
  - vm_compute. reflexivity.
  - vm_compute. discriminate.
Defined.

(** ** Target files *)

Section TargetFiles.

Context {World : Type}.
Variable ext : updater.Externals World.
Variable sha256 sha512 : bytes -> bytes.
Variable url_JoinPath : string -> string -> outcome string.
Variable rangeHashes : gmap string bytes -> list (string * bytes).

Import updater.

Local Abbreviation DownloadTarget :=
  (targets.DownloadTarget ext sha256 sha512 url_JoinPath rangeHashes).
Local Abbreviation FindCachedTarget :=
  (targets.FindCachedTarget ext sha256 sha512 url_JoinPath).
Local Abbreviation VerifyLengthHashes :=
  (metadata.TargetFiles_VerifyLengthHashes sha256 sha512).

(** What [DownloadTarget] does once it has a path and a URL. *)
Lemma DownloadTarget_run (targetFile : metadata.TargetFiles.t)
    (filePath targetBaseURL : string) (u : Updater World) :
  (exists o, DownloadTarget targetFile filePath targetBaseURL u = (o, u)
             /\ forall path, o <> Ok path)
  \/ exists path url,
      (filePath <> "" -> path = filePath)
      /\ DownloadTarget targetFile filePath targetBaseURL u
         = let length := metadata.TargetFiles.Length targetFile in
           let u1 := state.record u (Download url length) in
           match DownloadFile ext url length (world u) with
           | (Ok data, w1) =>
               match VerifyLengthHashes targetFile data with
               | Some err => (Err err, state.setWorld u1 w1)
               | None =>
                   match os_WriteFile ext path data w1 with
                   | (Ok _, w2) => (Ok path, state.setWorld (state.setWorld u1 w1) w2)
                   | (Err e, w2) => (Err e, state.setWorld (state.setWorld u1 w1) w2)
                   | (Panic, w2) => (Panic, state.setWorld (state.setWorld u1 w1) w2)
                   end
               end
           | (Err e, w1) => (Err e, state.setWorld u1 w1)
           | (Panic, w1) => (Panic, state.setWorld u1 w1)
           end.
Proof.
  assert (Hcore : forall path url,
             (filePath <> "" -> path = filePath) ->
             forall rest,
               rest = (let length := metadata.TargetFiles.Length targetFile in
                       bind (log (Download url length)) (fun _ =>
                       bind (call (DownloadFile ext url length)) (fun data =>
                       match VerifyLengthHashes targetFile data with
                       | Some err => fail err
                       | None => bind (call (os_WriteFile ext path data)) (fun _ => ret path)
                       end)) u) ->
               (exists o, rest = (o, u) /\ forall path, o <> Ok path)
               \/ exists path url,
                   (filePath <> "" -> path = filePath)
                   /\ rest
                      = let length := metadata.TargetFiles.Length targetFile in
                        let u1 := state.record u (Download url length) in
                        match DownloadFile ext url length (world u) with
                        | (Ok data, w1) =>
                            match VerifyLengthHashes targetFile data with
                            | Some err => (Err err, state.setWorld u1 w1)
                            | None =>
                                match os_WriteFile ext path data w1 with
                                | (Ok _, w2) =>
                                    (Ok path, state.setWorld (state.setWorld u1 w1) w2)
                                | (Err e, w2) =>
                                    (Err e, state.setWorld (state.setWorld u1 w1) w2)
                                | (Panic, w2) =>
                                    (Panic, state.setWorld (state.setWorld u1 w1) w2)
                                end
                            end
                        | (Err e, w1) => (Err e, state.setWorld u1 w1)
                        | (Panic, w1) => (Panic, state.setWorld u1 w1)
                        end).
  { intros path url Hpath rest ->. right. exists path, url. split; [exact Hpath|].
    cbv zeta. unfold bind, try, log, call, fail, ret, state.record, state.setWorld.
    cbn [world trace metadataDir metadataBaseUrl targetDir targetBaseUrl trusted cfg].
    destruct (DownloadFile ext url _ (world u)) as [[data|e|] w1]; try reflexivity.
    destruct (VerifyLengthHashes targetFile data) as [err|]; [reflexivity|].
    cbn [world trace metadataDir metadataBaseUrl targetDir targetBaseUrl trusted cfg].
    destruct (os_WriteFile ext path data w1) as [[[]|e|] w2]; reflexivity. }
  assert (Hfail : forall o : outcome string,
             (forall path, o <> Ok path) ->
             (exists o', (o, u) = (o', u) /\ forall path, o' <> Ok path)
             \/ exists path url,
                 (filePath <> "" -> path = filePath)
                 /\ (o, u)
                    = let length := metadata.TargetFiles.Length targetFile in
                      let u1 := state.record u (Download url length) in
                      match DownloadFile ext url length (world u) with
                      | (Ok data, w1) =>
                          match VerifyLengthHashes targetFile data with
                          | Some err => (Err err, state.setWorld u1 w1)
                          | None =>
                              match os_WriteFile ext path data w1 with
                              | (Ok _, w2) =>
                                  (Ok path, state.setWorld (state.setWorld u1 w1) w2)
                              | (Err e, w2) =>
                                  (Err e, state.setWorld (state.setWorld u1 w1) w2)
                              | (Panic, w2) =>
                                  (Panic, state.setWorld (state.setWorld u1 w1) w2)
                              end
                          end
                      | (Err e, w1) => (Err e, state.setWorld u1 w1)
                      | (Panic, w1) => (Panic, state.setWorld u1 w1)
                      end).
  { intros o Ho. left. exists o. split; [reflexivity|exact Ho]. }
  unfold targets.DownloadTarget.
  rewrite bind_run.
  assert (Hgen : forall tf,
             targets.generateTargetFilePath url_JoinPath tf u
             = if decide (targetDir u = "") then (Err ErrValue, u)
               else (url_JoinPath (targetDir u)
                       (url.QueryEscape (metadata.TargetFiles.Path tf)), u)).
  { intros tf. unfold targets.generateTargetFilePath. rewrite bind_get.
    destruct (decide (targetDir u = "")); reflexivity. }
  assert (Hpre : exists o : outcome string,
             (if decide (filePath = "")
              then targets.generateTargetFilePath url_JoinPath targetFile
              else ret filePath) u = (o, u)
             /\ forall path, o = Ok path -> filePath <> "" -> path = filePath).
  { destruct (decide (filePath = "")) as [E|N].
    - rewrite Hgen. destruct (decide (targetDir u = "")); eexists; split;
        try reflexivity; intros; contradiction.
    - exists (Ok filePath). split; [reflexivity|]. intros path [= <-] _. reflexivity. }
  destruct Hpre as (o & -> & Ho).
  destruct o as [path|e|]; [|apply Hfail; discriminate..].
  specialize (Ho path eq_refl).
  rewrite bind_run.
  destruct (decide (targetBaseURL = "")) as [Eb|Nb].
  - rewrite bind_get. destruct (decide (targetBaseUrl u = "")) as [Eu|Nu].
    + apply Hfail. discriminate.
    + cbn [ret]. rewrite !bind_get, bind_run.
      destruct (_ && _).
      * destruct (strings.Cut _ _) as [[dirName baseName] [|]];
          [|apply Hfail; discriminate].
        cbn [ret]. eapply Hcore; [exact Ho|reflexivity].
      * cbn [ret]. eapply Hcore; [exact Ho|reflexivity].
  - cbn [ret]. rewrite !bind_get, bind_run.
    destruct (_ && _).
    + destruct (strings.Cut _ _) as [[dirName baseName] [|]];
        [|apply Hfail; discriminate].
      cbn [ret]. eapply Hcore; [exact Ho|reflexivity].
    + cbn [ret]. eapply Hcore; [exact Ho|reflexivity].
Qed.

(** X22.  A path that [DownloadTarget] returns names a file it has
    written with the data of its one request, a request capped by the
    length the target file records; this data has that length, and every
    hash of the target file is its digest.  Data that fails the check is
    not written: the call returns [ErrLengthOrHashMismatch] and leaves the
    disk as the fetcher left it. *)
Theorem DownloadTarget_writes_verified_data (targetFile : metadata.TargetFiles.t)
    (filePath targetBaseURL : string) (u : Updater World) :
  let r := DownloadTarget targetFile filePath targetBaseURL u in
  let length := metadata.TargetFiles.Length targetFile in
  (forall path,
      r.1 = Ok path ->
      (filePath <> "" -> path = filePath)
      /\ exists url data w1,
          trace r.2 = (trace u ++ [Download url length])%list
          /\ DownloadFile ext url length (world u) = (Ok data, w1)
          /\ os_WriteFile ext path data w1 = (Ok tt, world r.2)
          /\ length = Z.of_nat (List.length data)
          /\ forall k v, metadata.TargetFiles.Hashes targetFile !! k = Some v ->
                         (k = "sha256" /\ v = sha256 data)
                         \/ (k = "sha512" /\ v = sha512 data))
  /\ (forall url data w1,
        trace r.2 = (trace u ++ [Download url length])%list ->
        DownloadFile ext url length (world u) = (Ok data, w1) ->
        VerifyLengthHashes targetFile data <> None ->
        r.1 = Err ErrLengthOrHashMismatch /\ world r.2 = w1)
  /\ (trace r.2 = trace u
      \/ exists url, trace r.2 = (trace u ++ [Download url length])%list).
Proof.
  intros r length. subst r length.
  destruct (DownloadTarget_run targetFile filePath targetBaseURL u)
    as [(o & -> & Ho)|(path & url & Hpath & ->)]; cbn [fst snd].
  { split; [intros path E; destruct (Ho path E)|]. split; [|left; reflexivity].
    intros url data w1 Htr. exfalso. apply (f_equal List.length) in Htr.
    rewrite length_app in Htr. simpl in Htr. lia. }
  cbv zeta.
  assert (Htrace : forall url' (u' : Updater World),
             trace u' = (trace u ++ [Download url (metadata.TargetFiles.Length targetFile)])%list ->
             trace u' = (trace u ++ [Download url' (metadata.TargetFiles.Length targetFile)])%list ->
             url' = url).
  { intros url' u' H1 H2. rewrite H1 in H2. apply app_inv_head in H2.
    injection H2 as H2. congruence. }
  destruct (DownloadFile ext url _ (world u)) as [[data|e|] w1] eqn:Hd.
  - destruct (VerifyLengthHashes targetFile data) as [err|] eqn:Hv.
    + cbn [fst snd]. split; [discriminate|]. split; [|right; exists url; reflexivity].
      intros url' data' w1' Htr Hd' _.
      rewrite (Htrace url' (state.setWorld (state.record u (Download url _)) w1)
                 eq_refl Htr) in Hd'.
      rewrite Hd in Hd'. injection Hd' as <- <-.
      split; [|reflexivity]. f_equal.
      eapply TargetFiles_VerifyLengthHashes_kind. exact Hv.
    + apply TargetFiles_VerifyLengthHashes_None in Hv as [Hlen Hdig].
      destruct (os_WriteFile ext path data w1) as [[[]|e|] w2] eqn:Hw; cbn [fst snd].
      * split; [|split; [|right; exists url; reflexivity]].
        -- intros path' [= <-]. split; [exact Hpath|].
           exists url, data, w1. repeat split; auto.
        -- intros url' data' w1' Htr Hd' Hv'. exfalso.
           rewrite (Htrace url' (state.setWorld (state.setWorld
                      (state.record u (Download url _)) w1) w2) eq_refl Htr) in Hd'.
           rewrite Hd in Hd'. injection Hd' as <- <-. apply Hv'.
           unfold metadata.TargetFiles_VerifyLengthHashes, metadata.verifyHashes.
           rewrite (proj2 (verifyHashes_range_None _ _ _ _)).
           ++ unfold metadata.verifyLength.
              destruct (decide (_ ≠ _)) as [N|_]; [contradiction|reflexivity].
           ++ apply Forall_forall. intros [k v] Hin. apply verifyHash_None.
              apply Hdig. apply elem_of_map_to_list. exact Hin.
      * split; [discriminate|]. split; [|right; exists url; reflexivity].
        intros url' data' w1' Htr Hd' Hv'. exfalso.
        rewrite (Htrace url' (state.setWorld (state.setWorld
                   (state.record u (Download url _)) w1) w2) eq_refl Htr) in Hd'.
        rewrite Hd in Hd'. injection Hd' as <- <-. apply Hv'.
        unfold metadata.TargetFiles_VerifyLengthHashes, metadata.verifyHashes.
        rewrite (proj2 (verifyHashes_range_None _ _ _ _)).
        -- unfold metadata.verifyLength.
           destruct (decide (_ ≠ _)) as [N|_]; [contradiction|reflexivity].
        -- apply Forall_forall. intros [k v] Hin. apply verifyHash_None.
           apply Hdig. apply elem_of_map_to_list. exact Hin.
      * split; [discriminate|]. split; [|right; exists url; reflexivity].
        intros url' data' w1' Htr Hd' Hv'. exfalso.
        rewrite (Htrace url' (state.setWorld (state.setWorld
                   (state.record u (Download url _)) w1) w2) eq_refl Htr) in Hd'.
        rewrite Hd in Hd'. injection Hd' as <- <-. apply Hv'.
        unfold metadata.TargetFiles_VerifyLengthHashes, metadata.verifyHashes.
        rewrite (proj2 (verifyHashes_range_None _ _ _ _)).
        -- unfold metadata.verifyLength.
           destruct (decide (_ ≠ _)) as [N|_]; [contradiction|reflexivity].
        -- apply Forall_forall. intros [k v] Hin. apply verifyHash_None.
           apply Hdig. apply elem_of_map_to_list. exact Hin.
  - cbn [fst snd]. split; [discriminate|]. split; [|right; exists url; reflexivity].
    intros url' data' w1' Htr Hd' _. exfalso.
    rewrite (Htrace url' (state.setWorld (state.record u (Download url _)) w1)
               eq_refl Htr) in Hd'.
    rewrite Hd in Hd'. discriminate.
  - cbn [fst snd]. split; [discriminate|]. split; [|right; exists url; reflexivity].
    intros url' data' w1' Htr Hd' _. exfalso.
    rewrite (Htrace url' (state.setWorld (state.record u (Download url _)) w1)
               eq_refl Htr) in Hd'.
    rewrite Hd in Hd'. discriminate.
Qed.

(** X23.  [FindCachedTarget] asks nothing of the repository and changes
    nothing of the trusted set; a path it returns names a local file whose
    length and digests are the ones the target file records, and a file
    given by its path that fails the check is answered with
    [ErrLengthOrHashMismatch]. *)
Theorem FindCachedTarget_verified_file (targetFile : metadata.TargetFiles.t)
    (filePath : string) (u : Updater World) :
  let r := FindCachedTarget targetFile filePath u in
  trace r.2 = trace u
  /\ trusted r.2 = trusted u
  /\ (forall path,
        r.1 = Ok path ->
        (filePath <> "" -> path = filePath)
        /\ exists data,
            os_ReadFile ext path (world u) = (Ok data, world r.2)
            /\ metadata.TargetFiles.Length targetFile = Z.of_nat (List.length data)
            /\ forall k v, metadata.TargetFiles.Hashes targetFile !! k = Some v ->
                           (k = "sha256" /\ v = sha256 data)
                           \/ (k = "sha512" /\ v = sha512 data))
  /\ (forall data w,
        filePath <> "" ->
        os_ReadFile ext filePath (world u) = (Ok data, w) ->
        VerifyLengthHashes targetFile data <> None ->
        r.1 = Err ErrLengthOrHashMismatch).
Proof.
  intros r. subst r. unfold targets.FindCachedTarget. rewrite bind_run.
  assert (Hpre : exists o : outcome string,
             (if decide (filePath = "")
              then targets.generateTargetFilePath url_JoinPath targetFile
              else ret filePath) u = (o, u)
             /\ (forall path, o = Ok path -> filePath <> "" -> path = filePath)
             /\ (filePath <> "" -> o = Ok filePath)).
  { destruct (decide (filePath = "")) as [E|N].
    - unfold targets.generateTargetFilePath. rewrite bind_get.
      destruct (decide (targetDir u = "")); eexists; split;
        try reflexivity; split; intros; contradiction.
    - exists (Ok filePath). split; [reflexivity|]. split; [|reflexivity].
      intros path [= <-] _. reflexivity. }
  destruct Hpre as (o & -> & Ho & Hgiven).
  destruct o as [path|e|]; cbn [fst snd].
  2,3: (split; [reflexivity|]; split; [reflexivity|]; split; [discriminate|];
        intros data w Hne; specialize (Hgiven Hne); discriminate).
  rewrite bind_run. unfold readFile. rewrite call_run.
  destruct (os_ReadFile ext path (world u)) as [[data|e|] w1] eqn:Hread; cbn [fst snd].
  - destruct (VerifyLengthHashes targetFile data) as [err|] eqn:Hv; cbn [fst snd fail ret].
    + split; [reflexivity|]. split; [reflexivity|]. split; [discriminate|].
      intros data' w Hne Hread' _. f_equal.
      eapply TargetFiles_VerifyLengthHashes_kind. exact Hv.
    + split; [reflexivity|]. split; [reflexivity|]. split.
      * intros path' [= <-]. split; [exact (Ho path eq_refl)|].
        apply TargetFiles_VerifyLengthHashes_None in Hv as [Hlen Hdig].
        exists data. auto.
      * intros data' w Hne Hread' Hv'. exfalso.
        specialize (Hgiven Hne). injection Hgiven as ->.
        rewrite Hread in Hread'. injection Hread' as <- <-. contradiction.
  - split; [reflexivity|]. split; [reflexivity|]. split; [discriminate|].
    intros data' w Hne Hread' _. exfalso.
    specialize (Hgiven Hne). injection Hgiven as ->.
    rewrite Hread in Hread'. discriminate.
  - split; [reflexivity|]. split; [reflexivity|]. split; [discriminate|].
    intros data' w Hne Hread' _. exfalso.
    specialize (Hgiven Hne). injection Hgiven as ->.
    rewrite Hread in Hread'. discriminate.
Qed.

End TargetFiles.

(** ** The first answer to [loadRoot] *)

Section RootRequests.

Context {World : Type}.
Variable ext : updater.Externals World.

Import updater.


End RootRequests.

